(** * GlavBot: the moderation core, embedded and verified

    A shallow embedding of the moderation logic of the bot:
    - [Utils]    : [utils.py]    (duration tokens, permission sets);
    - [Database] : [database.py] (warnings, mutes, user statistics, settings);
    - [Bot]      : [bot.py]      (the /warn, /unwarn and /mute commands and the
                                  handler of ordinary text messages).

    Conventions of the embedding.
    - Python [int] is [Z].  Instants ([datetime]) are [Z] microseconds; a
      duration of [n] seconds is [n * 1000000] microseconds.
    - Python [str] is [string].  Case folding and the digit class are the ASCII
      ones: the embedding agrees with Python on ASCII text.
    - A method that reads the clock, changes the store or calls the chat
      platform is a computation in the monad [M]: it takes the state of the
      process and returns a value or a raised exception, with the new state.
      Changes made before an exception is raised stay (every statement of
      [database.py] is committed at once). *)

From Stdlib Require Import ZArith Ascii String List Bool Lia.
From stdpp Require Import base option list gmap strings fin_maps.

Local Open Scope Z_scope.

(* ===================================================================== *)
(** * utils.py *)
(* ===================================================================== *)

Module Utils.

(** ** Characters

    A string is the UTF-8 text of a Python [str], one [ascii] for each byte:
    the characters of ASCII are the bytes below 128, and every other
    character is a run of bytes from 128 on.  The two classes below are those
    of ASCII.  Python's [\d] and [int] also read the decimal digits that
    Unicode has outside ASCII (the fullwidth digits, the Arabic-Indic ones),
    and [str.lower] also folds the capital letters outside ASCII (Cyrillic,
    accented Latin): on a text with such a digit or such a capital letter the
    code goes further than [is_digit] and [lower] do.  On every other text,
    and so on every text of ASCII characters, they agree with the code. *)

(** [c] is one of [0-9]: the class [\d] on ASCII text. *)
Definition is_digit (c : ascii) : bool :=
  let n := N_of_ascii c in ((48 <=? n) && (n <=? 57))%N.

(** The value of a decimal digit. *)
Definition digit_value (c : ascii) : Z := Z.of_N (N_of_ascii c) - 48.

(** [str.lower] on one character: [A-Z] go to [a-z], the rest stays. *)
Definition lower_char (c : ascii) : ascii :=
  let n := N_of_ascii c in
  if ((65 <=? n) && (n <=? 90))%N then ascii_of_N (n + 32) else c.

(** [str.lower]. *)
Fixpoint lower (s : string) : string :=
  match s with
  | EmptyString => EmptyString
  | String c r => String (lower_char c) (lower r)
  end.

(** [int(value)] on a string of decimal digits, most significant first. *)
Fixpoint int_from (acc : Z) (value : string) : Z :=
  match value with
  | EmptyString => acc
  | String c r => int_from (10 * acc + digit_value c) r
  end.

Definition int (value : string) : Z := int_from 0 value.

(** ** parse_time *)

(** The table [units] of [parse_time]. *)
Definition units (unit : ascii) : option Z :=
  if Ascii.eqb unit "s" then Some 1
  else if Ascii.eqb unit "m" then Some 60
  else if Ascii.eqb unit "h" then Some 3600
  else if Ascii.eqb unit "d" then Some 86400
  else None.

(** [units.get(unit, default)]. *)
Definition units_get (unit : ascii) (default : Z) : Z :=
  match units unit with Some k => k | None => default end.

(** The class [[smhd]]. *)
Definition is_unit (c : ascii) : bool :=
  Ascii.eqb c "s" || Ascii.eqb c "m" || Ascii.eqb c "h" || Ascii.eqb c "d".

(** The longest run of digits at the start of [s], and what follows it: what
    the greedy [\d+] takes first. *)
Fixpoint span_digits (s : string) : string * string :=
  match s with
  | String c r =>
      if is_digit c then let '(ds, rest) := span_digits r in (String c ds, rest)
      else (EmptyString, s)
  | EmptyString => (EmptyString, EmptyString)
  end.

(** [re.match(r'(\d+)([smhd])', s)]: the groups of a match anchored at the
    start of [s] (not at its end), or [None].  Giving back digits to [\d+]
    never helps, since the character after a shorter run is a digit and not a
    unit: the match, when there is one, takes the whole run. *)
Definition re_match (s : string) : option (string * ascii) :=
  match span_digits s with
  | (EmptyString, _) => None
  | (value, String unit _) => if is_unit unit then Some (value, unit) else None
  | (_, EmptyString) => None
  end.

Definition parse_time (time_str : string) : option Z :=
  match time_str with
  | EmptyString => None
  | _ =>
      match re_match (lower time_str) with
      | Some (value, unit) => Some (int value * units_get unit 60)
      | None => None
      end
  end.

(** ** format_time, by its three thresholds (the unit names are left out) *)

Inductive time_text :=
  | Sec (n : Z) | Min (n : Z) | Hours (n : Z) | Days (n : Z).

Definition format_time (seconds : Z) : time_text :=
  if seconds <? 60 then Sec seconds
  else if seconds <? 3600 then Min (seconds / 60)
  else if seconds <? 86400 then Hours (seconds / 3600)
  else Days (seconds / 86400).

(** ** Permission sets *)

Record ChatPermissions := {
  can_send_messages : option bool;
  can_send_media_messages : option bool;
  can_send_polls : option bool;
  can_send_other_messages : option bool;
  can_add_web_page_previews : option bool;
  can_change_info : option bool;
  can_invite_users : option bool;
  can_pin_messages : option bool }.

Definition create_mute_permissions : ChatPermissions :=
  {| can_send_messages := Some false;
     can_send_media_messages := Some false;
     can_send_polls := Some false;
     can_send_other_messages := Some false;
     can_add_web_page_previews := Some false;
     can_change_info := Some false;
     can_invite_users := Some false;
     can_pin_messages := Some false |}.

Definition create_default_permissions : ChatPermissions :=
  {| can_send_messages := Some true;
     can_send_media_messages := Some true;
     can_send_polls := Some true;
     can_send_other_messages := Some true;
     can_add_web_page_previews := Some true;
     can_change_info := Some false;
     can_invite_users := Some true;
     can_pin_messages := Some false |}.

(** [ChatPermissions(can_send_messages=b)]: the other rights are not given. *)
Definition only_send_messages (b : bool) : ChatPermissions :=
  {| can_send_messages := Some b;
     can_send_media_messages := None;
     can_send_polls := None;
     can_send_other_messages := None;
     can_add_web_page_previews := None;
     can_change_info := None;
     can_invite_users := None;
     can_pin_messages := None |}.

End Utils.

(* ===================================================================== *)
(** * The process: store, clock, platform, exceptions *)
(* ===================================================================== *)

Module Process.

(** The Python exceptions that the modelled code can meet. *)
Inductive exn :=
  | NameError        (* a global name that the module never imported *)
  | AttributeError   (* an attribute of [None] *)
  | KeyError         (* a key that left the cache *)
  | OverflowError    (* [timedelta] or [datetime] out of range *)
  | IntegrityError   (* sqlite3: a UNIQUE constraint failed *)
  | TelegramError    (* the platform rejected a call *)
  | ValueError.      (* [int] of a string that is no number *)

Inductive result (A : Type) :=
  | Ok (a : A)
  | Raise (e : exn).
Arguments Ok {A} a.
Arguments Raise {A} e.

(** ** Rows of the four tables of [create_tables] *)

Record settings_row := {
  welcome_message : string;
  rules : string;
  warn_limit : Z;
  antiflood_enabled : bool;
  antiflood_count : Z;
  antiflood_seconds : Z;
  bad_words : list string;      (* the JSON list, decoded *)
  banned_links : list string;
  slowmode_enabled : bool;
  slowmode_seconds : Z }.

Record warning_row := {
  id : Z;
  chat_id : Z;
  user_id : Z;
  warned_by : Z;
  reason : string;
  created_at : Z }.

(** A row of [user_stats]; its key (chat_id, user_id) is the key of the map. *)
Record stats_row := {
  messages_count : Z;
  first_seen : Z;
  last_seen : Z }.

(** The database file.  [warnings] is in insertion order; [sqlite_sequence]
    is the largest id that AUTOINCREMENT has given out. *)
Record database := {
  chat_settings : gmap Z settings_row;
  warnings : list warning_row;
  sqlite_sequence : Z;
  muted_users : gmap (Z * Z) Z;
  user_stats : gmap (Z * Z) stats_row }.

(** ** The chat platform *)

(** The texts the bot sends, by template, with the values they show. *)
Inductive notice :=
  | AdminsOnly
  | ReplyRequired
  | BannedAtLimit (warn_count warn_limit : Z) (reason : string)
  | BanFailed (e : exn)
  | Warned (warn_count warn_limit : Z) (reason : string)
  | Unwarned (warn_count : Z)
  | Muted (shown : Utils.time_text)
  | Failed (e : exn)
  | MutedForFlood
  | BadWordWarning (warn_count warn_limit : Z)
  | BannedOverLimit
  (* the other commands, the join of members and the buttons *)
  | Banned
  | TargetRequired
  | ByNameUnavailable
  | Unbanned (user : Z)
  | Unmuted
  | OnlyAdmins
  | WelcomeRequired
  | WelcomeUpdated
  | RulesRequired
  | RulesUpdated
  | WordRequired
  | WordAdded (word : string)
  | WordKnown (word : string)
  | WordRemoved (word : string)
  | WordMissing (word : string)
  | RulesText (rules : string)
  | SecondsRequired
  | SlowmodeOn (seconds : Z)
  | SlowmodeOff
  | ReportNeedsReply
  | Report (reporter reported : Z)
  | ReportSent (sent_count : Z)
  | RulesAccepted
  | CaptchaSolved
  | NotYourCaptcha
  | CaptchaMissing
  | InfoText (user warns : Z) (messages : option Z)
  | HelpHint
  | ReportHint.

Inductive call :=
  | DeleteMessage (chat message_id : Z)
  | BanMember (chat user : Z)
  | RestrictMember (chat user : Z) (permissions : Utils.ChatPermissions)
                   (until_date : option Z)
  | ReplyText (chat message_id : Z) (text : notice)
  | SendMessage (chat : Z) (text : notice)
  (* the other commands and the buttons *)
  | UnbanMember (chat user : Z)
  | SetSlowModeDelay (chat seconds : Z)
  | AnswerCallbackQuery (query_id : Z)
  | EditMessageText (chat message_id : Z) (text : notice).

Inductive member_status :=
  | creator | administrator | member | restricted | left | kicked.

(** ** The environment and the state *)

(** What the process cannot control: the values the wall clock
    ([datetime.now()]) and the monotonic clock (the timer of the cache) show,
    by the number of readings of the wall clock made so far; whether the
    platform accepts a call, by the number of calls made so far; and the
    status of a member, or [None] when the lookup fails. *)
Record environment := {
  clock : nat → Z;
  monotonic : nat → Z;
  accepts : nat → call → bool;
  get_member : Z → Z → option member_status }.

(** [flood_cache] maps the key of a (chat, user) to its list of timestamps and
    the monotonic instant at which the entry expires.  [calls] lists the
    platform calls issued, oldest first, accepted or not. *)
Record world := {
  env : environment;
  db : database;
  flood_cache : gmap (Z * Z) (list Z * Z);
  ticks : nat;
  calls : list call }.

Definition set_db (d : database) (w : world) : world :=
  {| env := env w; db := d; flood_cache := flood_cache w;
     ticks := ticks w; calls := calls w |}.

Definition set_flood_cache (c : gmap (Z * Z) (list Z * Z)) (w : world) : world :=
  {| env := env w; db := db w; flood_cache := c;
     ticks := ticks w; calls := calls w |}.

(** One more reading of the wall clock was made. *)
Definition tick (w : world) : world :=
  {| env := env w; db := db w; flood_cache := flood_cache w;
     ticks := S (ticks w); calls := calls w |}.

(** One more call to the platform was issued. *)
Definition record (c : call) (w : world) : world :=
  {| env := env w; db := db w; flood_cache := flood_cache w;
     ticks := ticks w; calls := calls w ++ [c] |}.

Definition set_warnings (l : list warning_row) (seq : Z) (d : database) : database :=
  {| chat_settings := chat_settings d; warnings := l; sqlite_sequence := seq;
     muted_users := muted_users d; user_stats := user_stats d |}.

Definition set_muted_users (m : gmap (Z * Z) Z) (d : database) : database :=
  {| chat_settings := chat_settings d; warnings := warnings d;
     sqlite_sequence := sqlite_sequence d;
     muted_users := m; user_stats := user_stats d |}.

Definition set_user_stats (m : gmap (Z * Z) stats_row) (d : database) : database :=
  {| chat_settings := chat_settings d; warnings := warnings d;
     sqlite_sequence := sqlite_sequence d;
     muted_users := muted_users d; user_stats := m |}.

(** ** The monad *)

Definition M (A : Type) : Type := world → result A * world.

Definition ret {A} (a : A) : M A := λ w, (Ok a, w).

Definition raise {A} (e : exn) : M A := λ w, (Raise e, w).

Definition bind {A B} (m : M A) (f : A → M B) : M B :=
  λ w, match m w with
       | (Ok a, w') => f a w'
       | (Raise e, w') => (Raise e, w')
       end.

(** [try: body  except Exception as e: handler(e)]. *)
Definition try_except {A} (body : M A) (handler : exn → M A) : M A :=
  λ w, match body w with
       | (Ok a, w') => (Ok a, w')
       | (Raise e, w') => handler e w'
       end.

(** A pure computation that may raise. *)
Definition lift {A} (r : result A) : M A := λ w, (r, w).

Definition get_db : M database := λ w, (Ok (db w), w).
Definition put_db (d : database) : M unit := λ w, (Ok tt, set_db d w).

Declare Scope process_scope.
Delimit Scope process_scope with process.
Notation "x <- m ;; k" := (bind m (λ x, k))
  (at level 100, m at next level, right associativity) : process_scope.
Notation "m ;;; k" := (bind m (λ _, k))
  (at level 100, right associativity) : process_scope.

(** ** datetime *)

Definition second : Z := 1000000.

(** Instants count microseconds from 0001-01-01 00:00:00; the last one that
    [datetime] holds is the end of 9999-12-31, day 3652059. *)
Definition datetime_max : Z := 3652059 * 86400 * second - 1.

(** [datetime.now()]: one reading of the clock. *)
Definition datetime_now : M Z :=
  λ w, (Ok (clock (env w) (ticks w)), tick w).

(** [timedelta(seconds=n)]: more than 999999999 days do not fit. *)
Definition timedelta (seconds : Z) : result Z :=
  if 999999999 <? Z.abs (seconds / 86400) then Raise OverflowError
  else Ok (seconds * second).

(** [t + d] on a [datetime] and a [timedelta]. *)
Definition datetime_add (t d : Z) : result Z :=
  if (0 <=? t + d) && (t + d <=? datetime_max) then Ok (t + d)
  else Raise OverflowError.

(** ** Calls to the platform *)

(** Issue [c]: it is recorded; when the platform rejects it the call raises. *)
Definition api (c : call) : M unit :=
  λ w, if accepts (env w) (length (calls w)) c then (Ok tt, record c w)
       else (Raise TelegramError, record c w).

(** ** The cache [TTLCache(maxsize=10000, ttl=60)] of cachetools

    An entry is seen until the monotonic clock reaches its expiry; setting a
    key renews it.  The bound on the size is left out: when the cache is full,
    setting a new key drops entries of other keys, never the one being set. *)

Definition ttl : Z := 60 * second.

Definition cache_now (w : world) : Z := monotonic (env w) (ticks w).

(** [key in flood_cache]. *)
Definition cache_contains (key : Z * Z) : M bool :=
  λ w, match flood_cache w !! key with
       | Some (_, expires) => (Ok (cache_now w <? expires), w)
       | None => (Ok false, w)
       end.

(** [flood_cache[key]]. *)
Definition cache_get (key : Z * Z) : M (list Z) :=
  λ w, match flood_cache w !! key with
       | Some (v, expires) =>
           if cache_now w <? expires then (Ok v, w) else (Raise KeyError, w)
       | None => (Raise KeyError, w)
       end.

(** [flood_cache[key] = v]. *)
Definition cache_set (key : Z * Z) (v : list Z) : M unit :=
  λ w, (Ok tt, set_flood_cache (<[key := (v, cache_now w + ttl)]> (flood_cache w)) w).

(** [flood_cache[key].append(x)]: the list is changed in place, the expiry
    stays. *)
Definition cache_append (key : Z * Z) (x : Z) : M unit :=
  λ w, match flood_cache w !! key with
       | Some (v, expires) =>
           if cache_now w <? expires
           then (Ok tt, set_flood_cache (<[key := (v ++ [x], expires)]> (flood_cache w)) w)
           else (Raise KeyError, w)
       | None => (Raise KeyError, w)
       end.

End Process.

(* ===================================================================== *)
(** * database.py *)
(* ===================================================================== *)

Module Database.
Import Process.
Local Open Scope process_scope.

(** ** Chat settings *)

(** The row is returned when there is one.  When there is none the method
    builds the arguments of its INSERT from [DEFAULT_WELCOME_MESSAGE] and
    [DEFAULT_RULES], names that [database.py] does not import: the call
    raises before any row is written. *)
Definition get_chat_settings (chat : Z) : M settings_row :=
  d <- get_db ;;
  match chat_settings d !! chat with
  | Some settings => ret settings
  | None => raise NameError
  end.

Definition get_bad_words (chat : Z) : M (list string) :=
  d <- get_db ;;
  match chat_settings d !! chat with
  | Some settings => ret (bad_words settings)
  | None => ret []
  end.

(** ** Warnings *)

(** [WHERE chat_id = ? AND user_id = ?]. *)
Definition of_user (chat user : Z) (r : warning_row) : bool :=
  (chat_id r =? chat) && (user_id r =? user).

Definition get_warnings_count (chat user : Z) : M Z :=
  d <- get_db ;;
  ret (Z.of_nat (length (List.filter (of_user chat user) (warnings d)))).

(** [UNIQUE(chat_id, user_id, created_at)] would fail for a row at [now]. *)
Definition collides (chat user now : Z) (l : list warning_row) : bool :=
  existsb (λ r, of_user chat user r && (created_at r =? now)) l.

(** The row gets the next id of AUTOINCREMENT and the instant read for it;
    sqlite3 refuses a row that breaks the UNIQUE constraint, and nothing is
    stored then. *)
Definition add_warning (chat user by_user : Z) (why : string) : M Z :=
  now <- datetime_now ;;
  d <- get_db ;;
  (if collides chat user now (warnings d) then raise IntegrityError
   else
     let new_id := sqlite_sequence d + 1 in
     put_db (set_warnings
               (warnings d ++
                [{| id := new_id; chat_id := chat; user_id := user;
                    warned_by := by_user; reason := why; created_at := now |}])
               new_id d)) ;;;
  get_warnings_count chat user.

(** [SELECT id ... WHERE chat_id = ? AND user_id = ?
     ORDER BY created_at DESC LIMIT 1]: the row of the user created last. *)
Definition select_latest (chat user : Z) (l : list warning_row) : option warning_row :=
  match List.filter (of_user chat user) l with
  | [] => None
  | r :: rs =>
      Some (fold_left (λ best x, if created_at best <? created_at x then x else best) rs r)
  end.

(** [DELETE FROM warnings WHERE id = (...)]: with no row of the user the
    subquery gives NULL and nothing is deleted. *)
Definition remove_warning (chat user : Z) : M Z :=
  d <- get_db ;;
  match select_latest chat user (warnings d) with
  | Some r =>
      put_db (set_warnings (List.filter (λ x, negb (id x =? id r)) (warnings d))
                           (sqlite_sequence d) d)
  | None => ret tt
  end ;;;
  get_warnings_count chat user.

Definition clear_warnings (chat user : Z) : M unit :=
  d <- get_db ;;
  put_db (set_warnings (List.filter (λ x, negb (of_user chat user x)) (warnings d))
                       (sqlite_sequence d) d).

(** ** Mutes *)

(** [INSERT OR REPLACE]: a mute of the user in the chat replaces the one
    stored before. *)
Definition add_mute (chat user duration_seconds : Z) : M Z :=
  now <- datetime_now ;;
  delta <- lift (timedelta duration_seconds) ;;
  mute_until <- lift (datetime_add now delta) ;;
  d <- get_db ;;
  put_db (set_muted_users (<[(chat, user) := mute_until]> (muted_users d)) d) ;;;
  ret mute_until.

Definition remove_mute (chat user : Z) : M unit :=
  d <- get_db ;;
  put_db (set_muted_users (delete (chat, user) (muted_users d)) d).

(** The clock is read only when a record is found. *)
Definition is_muted (chat user : Z) : M bool :=
  d <- get_db ;;
  match muted_users d !! (chat, user) with
  | None => ret false
  | Some mute_until =>
      now <- datetime_now ;;
      if now <? mute_until then ret true
      else (remove_mute chat user ;;; ret false)
  end.

(** ** Statistics *)

(** [INSERT OR REPLACE] with the two [COALESCE]s: the count of the row plus
    one, or 1; the first_seen of the row, or now; and now.  The arguments
    [username] and [first_name] are not used by the method and are left
    out. *)
Definition update_user_stats (chat user : Z) : M unit :=
  now <- datetime_now ;;
  d <- get_db ;;
  let old := user_stats d !! (chat, user) in
  put_db (set_user_stats
            (<[(chat, user) :=
                 {| messages_count :=
                      match old with Some r => messages_count r + 1 | None => 1 end;
                    first_seen :=
                      match old with Some r => first_seen r | None => now end;
                    last_seen := now |}]> (user_stats d)) d).

Definition get_user_stats (chat user : Z) : M (option stats_row) :=
  d <- get_db ;;
  ret (user_stats d !! (chat, user)).

(** ** The admin panel: three UPDATEs of [chat_settings]

    An UPDATE changes the row of the chat when there is one and does nothing
    when there is none; the methods insert no row. *)

Definition set_chat_settings (m : gmap Z settings_row) (d : database) : database :=
  {| chat_settings := m; warnings := warnings d;
     sqlite_sequence := sqlite_sequence d;
     muted_users := muted_users d; user_stats := user_stats d |}.

Definition with_welcome_message (message : string) (r : settings_row) : settings_row :=
  {| welcome_message := message; rules := rules r; warn_limit := warn_limit r;
     antiflood_enabled := antiflood_enabled r; antiflood_count := antiflood_count r;
     antiflood_seconds := antiflood_seconds r; bad_words := bad_words r;
     banned_links := banned_links r; slowmode_enabled := slowmode_enabled r;
     slowmode_seconds := slowmode_seconds r |}.

Definition with_rules (text : string) (r : settings_row) : settings_row :=
  {| welcome_message := welcome_message r; rules := text; warn_limit := warn_limit r;
     antiflood_enabled := antiflood_enabled r; antiflood_count := antiflood_count r;
     antiflood_seconds := antiflood_seconds r; bad_words := bad_words r;
     banned_links := banned_links r; slowmode_enabled := slowmode_enabled r;
     slowmode_seconds := slowmode_seconds r |}.

Definition with_bad_words (words : list string) (r : settings_row) : settings_row :=
  {| welcome_message := welcome_message r; rules := rules r; warn_limit := warn_limit r;
     antiflood_enabled := antiflood_enabled r; antiflood_count := antiflood_count r;
     antiflood_seconds := antiflood_seconds r; bad_words := words;
     banned_links := banned_links r; slowmode_enabled := slowmode_enabled r;
     slowmode_seconds := slowmode_seconds r |}.

Definition update_welcome (chat : Z) (message : string) : M unit :=
  d <- get_db ;;
  put_db (set_chat_settings (alter (with_welcome_message message) chat (chat_settings d)) d).

Definition update_rules (chat : Z) (text : string) : M unit :=
  d <- get_db ;;
  put_db (set_chat_settings (alter (with_rules text) chat (chat_settings d)) d).

(** [json.dumps] of the list is stored, and [get_bad_words] reads it back
    with [json.loads]: the list itself is kept here. *)
Definition update_bad_words (chat : Z) (words_list : list string) : M unit :=
  d <- get_db ;;
  put_db (set_chat_settings (alter (with_bad_words words_list) chat (chat_settings d)) d).

End Database.

(* ===================================================================== *)
(** * bot.py *)
(* ===================================================================== *)

Module Bot.
Import Process.
Local Open Scope process_scope.

(** What the handlers read of an update: [reply_to_message] is the id of the
    author of the message replied to. *)
Record Message := {
  message_id : Z;
  text : option string;
  reply_to_message : option Z }.

Record Update := {
  effective_chat : Z;
  effective_user : Z;
  message : option Message }.

Record Context := {
  args : list string;
  bot_id : Z }.

(** [is_admin] of [utils.py]: a failed lookup counts as "not an admin". *)
Definition is_admin (update : Update) : M bool :=
  λ w, match get_member (env w) (effective_chat update) (effective_user update) with
       | Some administrator | Some creator => (Ok true, w)
       | _ => (Ok false, w)
       end.

(** [update.message]: reading an attribute of it fails when it is [None]. *)
Definition the_message (update : Update) : M Message :=
  match message update with
  | Some m => ret m
  | None => raise AttributeError
  end.

Definition reply_text (update : Update) (m : Message) (t : notice) : M unit :=
  api (ReplyText (effective_chat update) (message_id m) t).

Definition delete (update : Update) (m : Message) : M unit :=
  api (DeleteMessage (effective_chat update) (message_id m)).

(** The truth value of an [int] or [None]. *)
Definition truthy (v : option Z) : bool :=
  match v with
  | Some n => negb (n =? 0)
  | None => false
  end.

(** ** /mute *)

(** In the three commands, the refusal of a user who is not an administrator
    and the path of an administrator both start by reading an attribute of
    [update.message]: the message is taken right after the test of
    [is_admin], which changes nothing.  [if not duration] is true of [None]
    and of 0.  The instant of the restriction is computed outside [try]. *)
Definition mute_command (update : Update) (context : Context) : M unit :=
  admin <- is_admin update ;;
  message <- the_message update ;;
  if negb admin then reply_text update message AdminsOnly
  else
    let chat := effective_chat update in
    match reply_to_message message with
    | None => reply_text update message ReplyRequired
    | Some user_to_mute =>
        let duration :=
          match args context with
          | [] => None
          | token :: _ => Utils.parse_time token
          end in
        let duration := if truthy duration then default 0 duration else 3600 in
        now <- datetime_now ;;
        delta <- lift (timedelta duration) ;;
        mute_until <- lift (datetime_add now delta) ;;
        try_except
          (api (RestrictMember chat user_to_mute Utils.create_mute_permissions
                               (Some mute_until)) ;;;
           Database.add_mute chat user_to_mute duration ;;;
           reply_text update message (Muted (Utils.format_time duration)))
          (λ e, reply_text update message (Failed e))
    end.

(** ** /warn *)

Definition warn_command (update : Update) (context : Context) : M unit :=
  admin <- is_admin update ;;
  message <- the_message update ;;
  if negb admin then reply_text update message AdminsOnly
  else
    let chat := effective_chat update in
    match reply_to_message message with
    | None => reply_text update message ReplyRequired
    | Some user_to_warn =>
        let why :=
          match args context with
          | [] => "Без причины"
          | _ => String.concat " " (args context)
          end in
        warn_count <- Database.add_warning chat user_to_warn (effective_user update) why ;;
        settings <- Database.get_chat_settings chat ;;
        let limit := warn_limit settings in
        if limit <=? warn_count then
          try_except
            (api (BanMember chat user_to_warn) ;;;
             Database.clear_warnings chat user_to_warn ;;;
             reply_text update message (BannedAtLimit warn_count limit why))
            (λ e, reply_text update message (BanFailed e))
        else reply_text update message (Warned warn_count limit why)
    end.

(** ** /unwarn *)

Definition unwarn_command (update : Update) (context : Context) : M unit :=
  admin <- is_admin update ;;
  message <- the_message update ;;
  if negb admin then reply_text update message AdminsOnly
  else
    match reply_to_message message with
    | None => reply_text update message ReplyRequired
    | Some user_to_unwarn =>
        warn_count <- Database.remove_warning (effective_chat update) user_to_unwarn ;;
        reply_text update message (Unwarned warn_count)
    end.

(** ** Text messages *)

(** [needle in hay] on strings. *)
Fixpoint contains (needle hay : string) : bool :=
  String.prefix needle hay ||
  match hay with
  | EmptyString => false
  | String _ rest => contains needle rest
  end.

(** The loop over the banned words: the first word found in the text ends the
    handler, after its block. *)
Fixpoint anti_mat (update : Update) (context : Context) (m : Message)
    (settings : settings_row) (text_lower : string) (words : list string) : M unit :=
  match words with
  | [] => ret tt
  | word :: rest =>
      if contains (Utils.lower word) text_lower then
        let chat := effective_chat update in
        let user := effective_user update in
        try_except
          (delete update m ;;;
           warn_count <- Database.add_warning chat user (bot_id context)
                                               ("Мат: " +:+ word) ;;
           api (SendMessage chat (BadWordWarning warn_count (warn_limit settings))) ;;;
           if warn_limit settings <=? warn_count then
             api (BanMember chat user) ;;;
             api (SendMessage chat BannedOverLimit)
           else ret tt)
          (λ _, ret tt)
      else anti_mat update context m settings text_lower rest
  end.

Definition handle_messages (update : Update) (context : Context) : M unit :=
  match message update with
  | None => ret tt
  | Some m =>
      match text m with
      | None | Some EmptyString => ret tt
      | Some txt =>
          let chat := effective_chat update in
          let user := effective_user update in
          muted <- Database.is_muted chat user ;;
          if muted then try_except (delete update m) (λ _, ret tt)
          else
            Database.update_user_stats chat user ;;;
            settings <- Database.get_chat_settings chat ;;
            let words_check :=
              (bad_words <- Database.get_bad_words chat ;;
               anti_mat update context m settings (Utils.lower txt) bad_words) in
            if antiflood_enabled settings then
              (* the string "{chat.id}_{user.id}" names the pair *)
              let cache_key := (chat, user) in
              known <- cache_contains cache_key ;;
              (if known then ret tt else cache_set cache_key []) ;;;
              current_time <- datetime_now ;;
              cache_append cache_key current_time ;;;
              window <- cache_get cache_key ;;
              cache_set cache_key
                (List.filter
                   (λ t, current_time - t <=? antiflood_seconds settings * second)
                   window) ;;;
              window <- cache_get cache_key ;;
              if antiflood_count settings <? Z.of_nat (length window) then
                try_except
                  (delete update m ;;;
                   now <- datetime_now ;;
                   mute_until <- lift (datetime_add now (300 * second)) ;;
                   api (RestrictMember chat user (Utils.only_send_messages false)
                                       (Some mute_until)) ;;;
                   Database.add_mute chat user 300 ;;;
                   api (SendMessage chat MutedForFlood))
                  (λ _, ret tt)
              else words_check
            else words_check
      end
  end.

(** ** /ban, /unmute *)

Definition ban_command (update : Update) (context : Context) : M unit :=
  admin <- is_admin update ;;
  message <- the_message update ;;
  if negb admin then reply_text update message AdminsOnly
  else
    let chat := effective_chat update in
    match reply_to_message message with
    | None => reply_text update message ReplyRequired
    | Some user_to_ban =>
        try_except
          (api (BanMember chat user_to_ban) ;;;
           reply_text update message Banned)
          (λ e, reply_text update message (Failed e))
    end.

Definition unmute_command (update : Update) (context : Context) : M unit :=
  admin <- is_admin update ;;
  message <- the_message update ;;
  if negb admin then reply_text update message AdminsOnly
  else
    let chat := effective_chat update in
    match reply_to_message message with
    | None => reply_text update message ReplyRequired
    | Some user_to_unmute =>
        try_except
          (api (RestrictMember chat user_to_unmute (Utils.only_send_messages true) None) ;;;
           Database.remove_mute chat user_to_unmute ;;;
           reply_text update message Unmuted)
          (λ e, reply_text update message (Failed e))
    end.

(** ** /unban, /slowmode

    [python_int] stands for [int] on a string: the number, or [None] where
    [int] raises [ValueError]. *)

(** [target.startswith('@')]. *)
Definition starts_with_at (target : string) : bool :=
  match target with
  | String c _ => Ascii.eqb c "@"
  | EmptyString => false
  end.

Definition unban_command (python_int : string → option Z)
    (update : Update) (context : Context) : M unit :=
  admin <- is_admin update ;;
  message <- the_message update ;;
  if negb admin then reply_text update message AdminsOnly
  else
    let chat := effective_chat update in
    match args context with
    | [] => reply_text update message TargetRequired
    | target :: _ =>
        try_except
          (if starts_with_at target then reply_text update message ByNameUnavailable
           else
             user_id <- match python_int target with
                        | Some n => ret n
                        | None => raise ValueError
                        end ;;
             api (UnbanMember chat user_id) ;;;
             reply_text update message (Unbanned user_id))
          (λ e, reply_text update message (Failed e))
    end.

(** The seconds that /slowmode asks for: 5 without an argument, and the
    number of the argument brought into the range from 0 to 300. *)
Definition slowmode_seconds_of (python_int : string → option Z)
    (context : Context) : result Z :=
  match args context with
  | [] => Ok 5
  | token :: _ =>
      match python_int token with
      | Some seconds =>
          let seconds := if seconds <? 0 then 0 else seconds in
          let seconds := if 300 <? seconds then 300 else seconds in
          Ok seconds
      | None => Raise ValueError
      end
  end.

Definition slowmode_command (python_int : string → option Z)
    (update : Update) (context : Context) : M unit :=
  admin <- is_admin update ;;
  message <- the_message update ;;
  if negb admin then reply_text update message AdminsOnly
  else
    let chat := effective_chat update in
    match slowmode_seconds_of python_int context with
    | Raise _ => reply_text update message SecondsRequired
    | Ok seconds =>
        try_except
          (api (SetSlowModeDelay chat seconds) ;;;
           if 0 <? seconds then reply_text update message (SlowmodeOn seconds)
           else reply_text update message SlowmodeOff)
          (λ e, reply_text update message (Failed e))
    end.

(** ** The admin panel *)

(** [update.message.reply_text(t)]. *)
Definition reply (update : Update) (t : notice) : M unit :=
  message <- the_message update ;;
  reply_text update message t.

Definition set_welcome_command (update : Update) (context : Context) : M unit :=
  admin <- is_admin update ;;
  if negb admin then reply update OnlyAdmins
  else
    match args context with
    | [] => reply update WelcomeRequired
    | _ =>
        let welcome_text := String.concat " " (args context) in
        Database.update_welcome (effective_chat update) welcome_text ;;;
        reply update WelcomeUpdated
    end.

Definition set_rules_command (update : Update) (context : Context) : M unit :=
  admin <- is_admin update ;;
  if negb admin then reply update OnlyAdmins
  else
    match args context with
    | [] => reply update RulesRequired
    | _ =>
        let rules_text := String.concat " " (args context) in
        Database.update_rules (effective_chat update) rules_text ;;;
        reply update RulesUpdated
    end.

(** [word in bad_words]. *)
Definition listed (word : string) (bad_words : list string) : bool :=
  existsb (String.eqb word) bad_words.

(** [bad_words.remove(word)]: the first occurrence goes. *)
Fixpoint remove_first (word : string) (bad_words : list string) : list string :=
  match bad_words with
  | [] => []
  | w :: rest => if String.eqb word w then rest else w :: remove_first word rest
  end.

Definition add_badword_command (update : Update) (context : Context) : M unit :=
  admin <- is_admin update ;;
  if negb admin then reply update OnlyAdmins
  else
    match args context with
    | [] => reply update WordRequired
    | token :: _ =>
        let word := Utils.lower token in
        let chat_id := effective_chat update in
        bad_words <- Database.get_bad_words chat_id ;;
        if negb (listed word bad_words) then
          Database.update_bad_words chat_id (bad_words ++ [word]) ;;;
          reply update (WordAdded word)
        else reply update (WordKnown word)
    end.

Definition remove_badword_command (update : Update) (context : Context) : M unit :=
  admin <- is_admin update ;;
  if negb admin then reply update OnlyAdmins
  else
    match args context with
    | [] => reply update WordRequired
    | token :: _ =>
        let word := Utils.lower token in
        let chat_id := effective_chat update in
        bad_words <- Database.get_bad_words chat_id ;;
        if listed word bad_words then
          Database.update_bad_words chat_id (remove_first word bad_words) ;;;
          reply update (WordRemoved word)
        else reply update (WordMissing word)
    end.

(** ** /rules, /report *)

Definition rules_command (update : Update) (context : Context) : M unit :=
  settings <- Database.get_chat_settings (effective_chat update) ;;
  reply update (RulesText (rules settings)).

(** An administrator as [get_administrators] lists it. *)
Record Administrator := {
  admin_id : Z;
  admin_is_bot : bool }.

(** The loop of /report over the administrators: bots are passed over, a
    send that fails is passed over too, and the sends that went through are
    counted. *)
Fixpoint send_reports (admins : list Administrator) (report_text : notice)
    (sent_count : Z) : M Z :=
  match admins with
  | [] => ret sent_count
  | admin :: rest =>
      if admin_is_bot admin then send_reports rest report_text sent_count
      else
        sent <- try_except
                  (api (SendMessage (admin_id admin) report_text) ;;; ret true)
                  (λ _, ret false) ;;
        send_reports rest report_text (if sent then sent_count + 1 else sent_count)
  end.

(** [administrators] is what [chat.get_administrators()] gives: the list, or
    the exception that it raises. *)
Definition report_command (administrators : result (list Administrator))
    (update : Update) (context : Context) : M unit :=
  message <- the_message update ;;
  match reply_to_message message with
  | None => reply_text update message ReportNeedsReply
  | Some reported_user =>
      admins <- lift administrators ;;
      let report_text := Report (effective_user update) reported_user in
      sent_count <- send_reports admins report_text 0 ;;
      reply_text update message (ReportSent sent_count)
  end.

(** ** The join of members *)

(** A new member: [created_at] is what reading [new_member.created_at]
    gives, an instant, [None], or the exception of the read. *)
Record Member := {
  member_id : Z;
  is_bot : bool;
  created_at_of : result (option Z) }.

(** The loop over the new members.  Bots are passed over.  For any other
    member the age of the account is computed, and the next statement reads
    [DEFAULT_WELCOME_MESSAGE], a name that [bot.py] does not import: it
    raises, and the statements after it (the welcome, the captcha, the
    restriction) are never reached. *)
Fixpoint greet (settings : settings_row) (members : list Member) : M unit :=
  match members with
  | [] => ret tt
  | new_member :: rest =>
      if is_bot new_member then greet settings rest
      else
        created_at <- lift (created_at_of new_member) ;;
        account_age <- match created_at with
                       | Some t => now <- datetime_now ;; ret ((now - t) / (86400 * second))
                       | None => ret 999
                       end ;;
        let is_suspicious := account_age <? 7 in
        raise NameError
  end.

(** [new_chat_members] is the list of [update.message.new_chat_members]. *)
Definition handle_new_members (new_chat_members : list Member)
    (update : Update) (context : Context) : M unit :=
  settings <- Database.get_chat_settings (effective_chat update) ;;
  message <- the_message update ;;
  greet settings new_chat_members.

(** ** The buttons *)

Record CallbackQuery := {
  query_id : Z;
  data : string;
  from_user : Z;
  query_chat : Z;
  query_message_id : Z }.

(** [context.user_data['captcha']]. *)
Record Captcha := {
  captcha_chat_id : Z;
  captcha_user_id : Z;
  answer : Z }.

Definition edit_message_text (query : CallbackQuery) (t : notice) : M unit :=
  api (EditMessageText (query_chat query) (query_message_id query) t).

Definition button_callback (query : CallbackQuery) (captcha : option Captcha) : M unit :=
  api (AnswerCallbackQuery (query_id query)) ;;;
  let user := from_user query in
  let chat := query_chat query in
  if String.eqb (data query) "accept_rules" then
    edit_message_text query RulesAccepted ;;;
    muted <- Database.is_muted chat user ;;
    if muted then
      Database.remove_mute chat user ;;;
      api (RestrictMember chat user (Utils.only_send_messages true) None)
    else ret tt
  else if String.eqb (data query) "solve_captcha" then
    match captcha with
    | Some captcha =>
        if (captcha_user_id captcha =? user) && (captcha_chat_id captcha =? chat)
        then edit_message_text query CaptchaSolved
        else edit_message_text query NotYourCaptcha
    | None => edit_message_text query CaptchaMissing
    end
  else if String.eqb (data query) "menu_rules" then
    settings <- Database.get_chat_settings chat ;;
    edit_message_text query (RulesText (rules settings))
  else if String.eqb (data query) "menu_info" then
    stats <- Database.get_user_stats chat user ;;
    warns <- Database.get_warnings_count chat user ;;
    edit_message_text query (InfoText user warns (messages_count <$> stats))
  else if String.eqb (data query) "menu_help" then
    edit_message_text query HelpHint
  else if String.eqb (data query) "menu_report" then
    edit_message_text query ReportHint
  else ret tt.

End Bot.

(* ===================================================================== *)
(** * Notions used in the statements *)
(* ===================================================================== *)

Module Notions.
Import Utils Process.

(** ** Duration tokens *)

(** Every character of [s] is a decimal digit. *)
Fixpoint digits (s : string) : bool :=
  match s with
  | EmptyString => true
  | String c r => is_digit c && digits r
  end.

(** The unit letters, in either case. *)
Definition unit_letter (u : ascii) : Prop :=
  In u ["s"; "m"; "h"; "d"; "S"; "M"; "H"; "D"]%char.

(** Seconds in one unit. *)
Definition multiplier (u : ascii) : Z :=
  if Ascii.eqb u "s" || Ascii.eqb u "S" then 1
  else if Ascii.eqb u "m" || Ascii.eqb u "M" then 60
  else if Ascii.eqb u "h" || Ascii.eqb u "H" then 3600
  else if Ascii.eqb u "d" || Ascii.eqb u "D" then 86400
  else 0.

(** [s] is a token <digits><unit> and nothing more. *)
Definition is_token (s : string) : Prop :=
  ∃ ds u, ds ≠ EmptyString ∧ digits ds = true ∧ unit_letter u ∧
          s = ds +:+ String u EmptyString.

(** [s] starts with a token <digits><unit>. *)
Definition begins_with_token (s : string) : Prop :=
  ∃ ds u rest, ds ≠ EmptyString ∧ digits ds = true ∧ unit_letter u ∧
               s = ds +:+ String u rest.

(** ** The store and the clock *)

(** What the wall clock shows at its next reading. *)
Definition now (w : world) : Z := clock (env w) (ticks w).

(** The wall clock never runs backwards. *)
Definition monotone_clock (e : environment) : Prop :=
  ∀ i j : nat, (i ≤ j)%nat → clock e i ≤ clock e j.

(** The wall clock shows a later instant at every reading. *)
Definition increasing_clock (e : environment) : Prop :=
  ∀ i j : nat, (i < j)%nat → clock e i < clock e j.

(** The number of warning rows of the user in the chat. *)
Definition warning_count (chat user : Z) (w : world) : Z :=
  Z.of_nat (length (List.filter (Database.of_user chat user) (warnings (db w)))).

(** The stored expiry of the mute of the user in the chat. *)
Definition mute_of (chat user : Z) (w : world) : option Z :=
  muted_users (db w) !! (chat, user).

Definition stats_of (chat user : Z) (w : world) : option stats_row :=
  user_stats (db w) !! (chat, user).

(** What the schema of [warnings] enforces: [id] is a key, never above the
    AUTOINCREMENT counter, and (chat_id, user_id, created_at) is unique. *)
Definition well_formed (d : database) : Prop :=
  NoDup (map id (warnings d)) ∧
  Forall (λ r, id r ≤ sqlite_sequence d) (warnings d) ∧
  NoDup (map (λ r, (chat_id r, user_id r, created_at r)) (warnings d)).

(** A run of the process, seen from the statistics of one user:
    [history chat user w ts w'] when the process went from [w] to [w'] by
    calls of [update_user_stats] for the user, made at the instants [ts]
    (oldest first), and by other steps, which leave the row of the user as it
    is and wind no clock reading back. *)
Inductive history (chat user : Z) (w : world) : list Z → world → Prop :=
  | history_start : history chat user w [] w
  | history_update ts w1 :
      history chat user w ts w1 →
      history chat user w (ts ++ [now w1])
              (snd (Database.update_user_stats chat user w1))
  | history_other ts w1 w2 :
      history chat user w ts w1 →
      env w2 = env w1 → (ticks w1 ≤ ticks w2)%nat →
      stats_of chat user w2 = stats_of chat user w1 →
      history chat user w ts w2.

(** A step that is none of [update_user_stats]: same environment, no clock
    reading wound back, the table of statistics as it was. *)
Definition keeps_statistics (w w' : world) : Prop :=
  env w' = env w ∧ (ticks w ≤ ticks w')%nat ∧ user_stats (db w') = user_stats (db w).

(** ** The platform and the calendar *)

(** The platform accepts every call. *)
Definition cooperative (e : environment) : Prop :=
  ∀ k c, accepts e k c = true.

(** A duration of [d] seconds fits: [timedelta] holds it, and added to the
    next two readings of the clock it stays within the years of [datetime]. *)
Definition fits (w : world) (d : Z) : Prop :=
  Z.abs (d / 86400) ≤ 999999999 ∧
  ∀ k : nat, (ticks w ≤ k ≤ S (ticks w))%nat →
             0 ≤ clock (env w) k + d * second ≤ datetime_max.

(** ** Sample worlds *)

(** A clock that shows one millisecond more at each reading, a platform that
    accepts every call, and members who are all administrators. *)
Definition sample_env : environment :=
  {| clock := λ k, 1000 * Z.of_nat k;
     monotonic := λ k, 1000 * Z.of_nat k;
     accepts := λ _ _, true;
     get_member := λ _ _, Some administrator |}.

Definition sample_settings : settings_row :=
  {| welcome_message := "welcome"; rules := "rules"; warn_limit := 3;
     antiflood_enabled := true; antiflood_count := 5; antiflood_seconds := 10;
     bad_words := ["spam"]; banned_links := [];
     slowmode_enabled := false; slowmode_seconds := 5 |}.

(** A database with the settings of chat 1 and nothing else. *)
Definition sample_db : database :=
  {| chat_settings := {[ 1 := sample_settings ]};
     warnings := []; sqlite_sequence := 0;
     muted_users := ∅; user_stats := ∅ |}.

Definition sample_world : world :=
  {| env := sample_env; db := sample_db; flood_cache := ∅;
     ticks := 0; calls := [] |}.

(** In chat 1, user 7 replies to a message of user 9. *)
Definition sample_command : Bot.Update :=
  {| Bot.effective_chat := 1; Bot.effective_user := 7;
     Bot.message := Some {| Bot.message_id := 100; Bot.text := Some "/cmd";
                            Bot.reply_to_message := Some 9 |} |}.

(** In chat 1, user 9 writes [txt]. *)
Definition sample_message (txt : string) : Bot.Update :=
  {| Bot.effective_chat := 1; Bot.effective_user := 9;
     Bot.message := Some {| Bot.message_id := 200; Bot.text := Some txt;
                            Bot.reply_to_message := None |} |}.

Definition sample_context (args : list string) : Bot.Context :=
  {| Bot.args := args; Bot.bot_id := 0 |}.

(** ** What /mute leaves behind *)

(** /mute ran to its end and recorded a mute of [d] seconds of [target]: the
    command raised nothing, the stored expiry is [d] seconds after the
    reading of the clock made when storing, and the platform was asked to
    restrict the member until [d] seconds after the reading made before. *)
Definition mute_recorded (update : Bot.Update) (context : Bot.Context)
    (target d : Z) (w : world) : Prop :=
  let w' := snd (Bot.mute_command update context w) in
  fst (Bot.mute_command update context w) = Ok tt ∧
  mute_of (Bot.effective_chat update) target w' =
    Some (clock (env w) (S (ticks w)) + d * second) ∧
  ∃ m, Bot.message update = Some m ∧
    calls w' = calls w ++
      [RestrictMember (Bot.effective_chat update) target Utils.create_mute_permissions
                      (Some (now w + d * second));
       ReplyText (Bot.effective_chat update) (Bot.message_id m)
                 (Muted (Utils.format_time d))].

(** ** What /warn does *)

(** The reason that /warn stores. *)
Definition warn_reason (context : Bot.Context) : string :=
  match Bot.args context with
  | [] => "Без причины"
  | _ => String.concat " " (Bot.args context)
  end.

(** The world once the warning of /warn is stored. *)
Definition with_warning (chat target by_user : Z) (why : string) (w : world) : world :=
  set_db (set_warnings
            (warnings (db w) ++
             [{| id := sqlite_sequence (db w) + 1; chat_id := chat; user_id := target;
                 warned_by := by_user; reason := why; created_at := now w |}])
            (sqlite_sequence (db w) + 1) (db w)) (tick w).

(** [c] asks for a ban. *)
Definition is_ban (c : call) : bool :=
  match c with BanMember _ _ => true | _ => false end.

(** The world after the /warn commands [l] were handled, oldest first. *)
Fixpoint warned (l : list (Bot.Update * Bot.Context)) (w : world) : world :=
  match l with
  | [] => w
  | (update, context) :: rest => warned rest (snd (Bot.warn_command update context w))
  end.

(** A /warn in the chat, by one of its administrators, in reply to a message
    of [target]. *)
Definition warns (chat target : Z) (w : world) (uc : Bot.Update * Bot.Context) : Prop :=
  Bot.effective_chat (fst uc) = chat ∧
  fst (Bot.is_admin (fst uc) w) = Ok true ∧
  ∃ m, Bot.message (fst uc) = Some m ∧ Bot.reply_to_message m = Some target.

(** The stored warnings of the user were all made before the instant the
    clock shows next. *)
Definition older_than_clock (chat user : Z) (w : world) : Prop :=
  ∀ r, In r (warnings (db w)) → Database.of_user chat user r = true →
       created_at r < now w.

(** From [w] to [w'] calls were issued, and none of them asks for a ban. *)
Definition no_ban_since (w w' : world) : Prop :=
  ∃ new, calls w' = calls w ++ new ∧ Forall (λ c, is_ban c = false) new.

(** ** Runs of the handler of text messages *)

(** The world after the messages [l] were handled, oldest first. *)
Fixpoint handled (l : list (Bot.Update * Bot.Context)) (w : world) : world :=
  match l with
  | [] => w
  | (update, context) :: rest => handled rest (snd (Bot.handle_messages update context w))
  end.

(** Clocks for messages that come 61 seconds apart, each handled with three
    readings: the readings of one message are a millisecond apart. *)
Definition slow_env : environment :=
  {| clock := λ k, 61 * second * (Z.of_nat k / 3) + 1000 * (Z.of_nat k mod 3);
     monotonic := λ k, 61 * second * (Z.of_nat k / 3) + 1000 * (Z.of_nat k mod 3);
     accepts := λ _ _, true;
     get_member := λ _ _, Some administrator |}.

Definition slow_world : world :=
  {| env := slow_env; db := sample_db; flood_cache := ∅;
     ticks := 0; calls := [] |}.

(** ** Steps that take no flood action *)

(** [c] restricts a member. *)
Definition is_restrict (c : call) : bool :=
  match c with RestrictMember _ _ _ _ => true | _ => false end.

(** From [w] to [w'] the settings, the mutes and the flood windows stayed,
    the clock was read at most [n] times, and no call restricts a member. *)
Definition quiet (n : nat) (w w' : world) : Prop :=
  env w' = env w ∧
  chat_settings (db w') = chat_settings (db w) ∧
  muted_users (db w') = muted_users (db w) ∧
  flood_cache w' = flood_cache w ∧
  (ticks w ≤ ticks w' ≤ ticks w + n)%nat ∧
  ∃ new, calls w' = calls w ++ new ∧ Forall (λ c, is_restrict c = false) new.

(** A computation whose every run is quiet, whether it returns or raises. *)
Definition frames {A} (n : nat) (m : M A) : Prop :=
  ∀ w, quiet n w (snd (m w)).

(** ** The flood window *)

(** The window of the key as the handler of a message finds it: the list of
    the entry when the entry has not expired at the check, and no timestamp
    otherwise.  The check is made after one reading of the clock. *)
Definition window_found (key : Z * Z) (w : world) : list Z :=
  match flood_cache w !! key with
  | Some (v, expires) =>
      if monotonic (env w) (S (ticks w)) <? expires then v else []
  | None => []
  end.

(** No entry of the key expires between the check of the handler and its
    uses of the entry, one reading of the clock later. *)
Definition cache_holds (key : Z * Z) (w : world) : Prop :=
  let at_check := monotonic (env w) (S (ticks w)) in
  let at_use := monotonic (env w) (S (S (ticks w))) in
  at_use < at_check + ttl ∧
  match flood_cache w !! key with
  | Some (_, expires) => at_check < expires → at_use < expires
  | None => True
  end.

(** What the handler does when it finds a flood. *)
Definition flood_action (update : Bot.Update) (m : Bot.Message) : M unit :=
  (Bot.delete update m ;;;
   now <- datetime_now ;;
   mute_until <- lift (datetime_add now (300 * second)) ;;
   api (RestrictMember (Bot.effective_chat update) (Bot.effective_user update)
                       (Utils.only_send_messages false) (Some mute_until)) ;;;
   Database.add_mute (Bot.effective_chat update) (Bot.effective_user update) 300 ;;;
   api (SendMessage (Bot.effective_chat update) MutedForFlood))%process.

(** What the handler does when it finds no flood. *)
Definition words_check (update : Bot.Update) (context : Bot.Context)
    (m : Bot.Message) (settings : settings_row) (txt : string) : M unit :=
  (bad_words <- Database.get_bad_words (Bot.effective_chat update) ;;
   Bot.anti_mat update context m settings (Utils.lower txt) bad_words)%process.

(** ** Bursts of messages *)

(** A text message of the user in the chat, with some text. *)
Definition from_user (chat user : Z) (uc : Bot.Update * Bot.Context) : Prop :=
  Bot.effective_chat (fst uc) = chat ∧ Bot.effective_user (fst uc) = user ∧
  ∃ m txt, Bot.message (fst uc) = Some m ∧ Bot.text m = Some txt ∧
           txt ≠ EmptyString.

(** The next [readings] readings of the wall clock. *)
Definition upcoming (w : world) (readings : nat) (k : nat) : Prop :=
  (ticks w ≤ k < ticks w + readings)%nat.

(** The next [readings] readings of the wall clock all fall within
    [seconds] seconds. *)
Definition within_seconds (w : world) (readings : nat) (seconds : Z) : Prop :=
  ∀ i j, upcoming w readings i → upcoming w readings j →
         clock (env w) j - clock (env w) i ≤ seconds * second.

(** Meanwhile the monotonic clock moves by less than the lifetime of an
    entry of the cache. *)
Definition cache_steady (w : world) (readings : nat) : Prop :=
  ∀ i j, upcoming w readings i → upcoming w readings j →
         monotonic (env w) j - monotonic (env w) i < ttl.

(** The next readings, and the instants [seconds] seconds after them, are
    within the years that [datetime] holds. *)
Definition calendar_ok (w : world) (readings : nat) (seconds : Z) : Prop :=
  ∀ k, upcoming w readings k →
       0 ≤ clock (env w) k + seconds * second ≤ datetime_max.

(** From [w] to [w'] calls were issued, and none restricts a member. *)
Definition no_restrict_since (w w' : world) : Prop :=
  ∃ new, calls w' = calls w ++ new ∧ Forall (λ c, is_restrict c = false) new.

(** The state of the user after [n] messages of a burst that started in
    [w0]: nothing restricted or muted the user, and the window holds [n]
    instants, all of them recent for every reading of the burst, in an entry
    that outlives the burst. *)
Definition settled (chat user : Z) (readings : nat) (seconds : Z)
    (w0 : world) (n : nat) (w : world) : Prop :=
  env w = env w0 ∧
  chat_settings (db w) = chat_settings (db w0) ∧
  mute_of chat user w = None ∧
  (ticks w0 ≤ ticks w ≤ ticks w0 + 3 * n)%nat ∧
  no_restrict_since w0 w ∧
  match flood_cache w !! (chat, user) with
  | None => n = O
  | Some (v, expires) =>
      length v = n ∧
      Forall (λ t, ∀ j, upcoming w0 readings j →
                        clock (env w0) j - t ≤ seconds * second) v ∧
      ∀ j, upcoming w0 readings j → monotonic (env w0) j < expires
  end.

(** The handler of text messages reads the wall clock at most four times
    for a message (statistics, window, restriction, mute): the readings that
    the handling of [messages] messages can make. *)
Definition readings_of (messages : nat) : nat := 4 * messages.

(** ** Steps that delete no warning *)

(** From [w] to [w'] warnings were added at the end of the table, and none
    was deleted. *)
Definition grows (w w' : world) : Prop :=
  ∃ added, warnings (db w') = warnings (db w) ++ added.

(** A computation whose every run deletes no warning. *)
Definition growing {A} (m : M A) : Prop :=
  ∀ w, grows w (snd (m w)).

(** ** More sample worlds *)

(** The sample world after five readings of the clock, with a mute of user 9
    in chat 1 that expires at [t]. *)
Definition muted_until (t : Z) : world :=
  {| env := sample_env;
     db := set_muted_users {[ (1, 9) := t ]} sample_db;
     flood_cache := ∅; ticks := 5; calls := [] |}.

(** The sample world after two warnings of user 9 in chat 1. *)
Definition twice_warned : world :=
  snd (Database.add_warning 1 9 7 "second"
         (snd (Database.add_warning 1 9 7 "first" sample_world))).

(** Six text messages of user 9 in chat 1. *)
Definition six_messages : list (Bot.Update * Bot.Context) :=
  repeat (sample_message "hello", sample_context []) 6.

(** ** What /mute shows *)

(** The text of [format_time] for [n] units of the letter [u]. *)
Definition unit_text (u : ascii) (n : Z) : time_text :=
  if Ascii.eqb u "s" || Ascii.eqb u "S" then Sec n
  else if Ascii.eqb u "m" || Ascii.eqb u "M" then Min n
  else if Ascii.eqb u "h" || Ascii.eqb u "H" then Hours n
  else Days n.

(** How many units of the letter [u] make the next unit; none for days. *)
Definition unit_range (u : ascii) : option Z :=
  if Ascii.eqb u "s" || Ascii.eqb u "S" then Some 60
  else if Ascii.eqb u "m" || Ascii.eqb u "M" then Some 60
  else if Ascii.eqb u "h" || Ascii.eqb u "H" then Some 24
  else None.

(** ** Steps that keep a relation *)

(** A computation whose every run, whether it returns or raises, takes a
    world to one that [R] relates to it. *)
Definition keeps {A} (R : world → world → Prop) (m : M A) : Prop :=
  ∀ w, R w (snd (m w)).

(** The same chats have a row of settings. *)
Definition same_chats (w w' : world) : Prop :=
  ∀ chat, is_Some (chat_settings (db w') !! chat) ↔
          is_Some (chat_settings (db w) !! chat).

(** ** The handlers that [main] registers

    An event is one run of a handler, with what the platform hands to it:
    the update and the context, and for /unban and /slowmode what [int]
    makes of a string, for /report the administrators of the chat, for a
    join the new members, for a button the query and the stored captcha. *)
Inductive event : Type :=
  | on_ban (update : Bot.Update) (context : Bot.Context)
  | on_unban (python_int : string → option Z) (update : Bot.Update) (context : Bot.Context)
  | on_mute (update : Bot.Update) (context : Bot.Context)
  | on_unmute (update : Bot.Update) (context : Bot.Context)
  | on_warn (update : Bot.Update) (context : Bot.Context)
  | on_unwarn (update : Bot.Update) (context : Bot.Context)
  | on_slowmode (python_int : string → option Z) (update : Bot.Update) (context : Bot.Context)
  | on_report (administrators : result (list Bot.Administrator))
              (update : Bot.Update) (context : Bot.Context)
  | on_rules (update : Bot.Update) (context : Bot.Context)
  | on_set_welcome (update : Bot.Update) (context : Bot.Context)
  | on_set_rules (update : Bot.Update) (context : Bot.Context)
  | on_add_badword (update : Bot.Update) (context : Bot.Context)
  | on_remove_badword (update : Bot.Update) (context : Bot.Context)
  | on_new_members (new_chat_members : list Bot.Member)
                   (update : Bot.Update) (context : Bot.Context)
  | on_message (update : Bot.Update) (context : Bot.Context)
  | on_button (query : Bot.CallbackQuery) (captcha : option Bot.Captcha).

Definition handler_of (e : event) : M unit :=
  match e with
  | on_ban update context => Bot.ban_command update context
  | on_unban python_int update context => Bot.unban_command python_int update context
  | on_mute update context => Bot.mute_command update context
  | on_unmute update context => Bot.unmute_command update context
  | on_warn update context => Bot.warn_command update context
  | on_unwarn update context => Bot.unwarn_command update context
  | on_slowmode python_int update context => Bot.slowmode_command python_int update context
  | on_report administrators update context =>
      Bot.report_command administrators update context
  | on_rules update context => Bot.rules_command update context
  | on_set_welcome update context => Bot.set_welcome_command update context
  | on_set_rules update context => Bot.set_rules_command update context
  | on_add_badword update context => Bot.add_badword_command update context
  | on_remove_badword update context => Bot.remove_badword_command update context
  | on_new_members new_chat_members update context =>
      Bot.handle_new_members new_chat_members update context
  | on_message update context => Bot.handle_messages update context
  | on_button query captcha => Bot.button_callback query captcha
  end.

(** The world after the events of [l], one after the other; an exception of
    a handler ends that handler and the process goes on. *)
Fixpoint after (l : list event) (w : world) : world :=
  match l with
  | [] => w
  | e :: rest => after rest (snd (handler_of e w))
  end.

(** The commands that ask [is_admin] first. *)
Definition admin_command (e : event) : option (Bot.Update * notice) :=
  match e with
  | on_ban update _ | on_unban _ update _ | on_mute update _ | on_unmute update _
  | on_warn update _ | on_unwarn update _ | on_slowmode _ update _ =>
      Some (update, AdminsOnly)
  | on_set_welcome update _ | on_set_rules update _
  | on_add_badword update _ | on_remove_badword update _ =>
      Some (update, OnlyAdmins)
  | _ => None
  end.

(** ** Texts of ASCII characters *)

(** Every character of [s] is one of ASCII. *)
Fixpoint ascii_text (s : string) : bool :=
  match s with
  | EmptyString => true
  | String c r => (N_of_ascii c <? 128)%N && ascii_text r
  end.

(** ** A clock that is set back *)

(** One hour, in the unit of the instants. *)
Definition hour : Z := 3600 * second.

(** A wall clock that shows 03:00 at its first reading and 02:00 at every
    later one, as the local time that [datetime.now()] gives does in the
    night in which daylight saving time ends. *)
Definition set_back_env : environment :=
  {| clock := λ k, match k with O => 3 * hour | S _ => 2 * hour end;
     monotonic := λ k, 1000 * Z.of_nat k;
     accepts := λ _ _, true;
     get_member := λ _ _, Some administrator |}.

(** The store right after [create_tables], under that clock. *)
Definition set_back_world : world :=
  {| env := set_back_env;
     db := {| chat_settings := ∅; warnings := []; sqlite_sequence := 0;
              muted_users := ∅; user_stats := ∅ |};
     flood_cache := ∅; ticks := 0; calls := [] |}.

(** ** Further sample worlds *)

(** The store right after [create_tables]: every table is empty. *)
Definition fresh_db : database :=
  {| chat_settings := ∅; warnings := []; sqlite_sequence := 0;
     muted_users := ∅; user_stats := ∅ |}.

Definition fresh_world : world :=
  {| env := sample_env; db := fresh_db; flood_cache := ∅; ticks := 0; calls := [] |}.

(** The world [w] on another platform. *)
Definition with_env (e : environment) (w : world) : world :=
  {| env := e; db := db w; flood_cache := flood_cache w;
     ticks := ticks w; calls := calls w |}.

(** The sample platform with no administrator on it. *)
Definition member_env : environment :=
  {| clock := clock sample_env; monotonic := monotonic sample_env;
     accepts := λ _ _, true; get_member := λ _ _, Some member |}.

(** The sample platform when it rejects every restriction of a member, as it
    does when the bot has not the right to restrict. *)
Definition refusing_env : environment :=
  {| clock := clock sample_env; monotonic := monotonic sample_env;
     accepts := λ _ c, negb (is_restrict c); get_member := get_member sample_env |}.

(** The commands that act on the sender of the message replied to. *)
Definition reply_command (e : event) : option Bot.Update :=
  match e with
  | on_ban update _ | on_mute update _ | on_unmute update _
  | on_warn update _ | on_unwarn update _ => Some update
  | _ => None
  end.

(** The delay of /slowmode for the number [n]: [n] brought into the range
    from 0 to 300. *)
Definition clamped (n : Z) : Z := Z.max 0 (Z.min n 300).

(** The administrators that /report writes to. *)
Definition people (admins : list Bot.Administrator) : list Bot.Administrator :=
  List.filter (λ a, negb (Bot.admin_is_bot a)) admins.

(** In chat 1, user 9 presses the button [data] under message 300. *)
Definition sample_query (data : string) : Bot.CallbackQuery :=
  {| Bot.query_id := 50; Bot.data := data; Bot.from_user := 9;
     Bot.query_chat := 1; Bot.query_message_id := 300 |}.

(** The commands of the admin panel that store something, with the answer
    they give once it is stored. *)
Definition panel_success (e : event) : option (Bot.Update * notice) :=
  match e with
  | on_set_welcome update context =>
      match Bot.args context with
      | [] => None
      | _ => Some (update, WelcomeUpdated)
      end
  | on_set_rules update context =>
      match Bot.args context with
      | [] => None
      | _ => Some (update, RulesUpdated)
      end
  | on_add_badword update context =>
      match Bot.args context with
      | [] => None
      | token :: _ => Some (update, WordAdded (lower token))
      end
  | _ => None
  end.

(** The settings of a chat that moderation reads, the two texts apart. *)
Definition moderation (r : settings_row) :=
  (warn_limit r, antiflood_enabled r, antiflood_count r, antiflood_seconds r,
   bad_words r, banned_links r, slowmode_enabled r, slowmode_seconds r).

(** ** Messages that are no flood *)

(** The message that the handler is about to read is no flood: the flood
    control of the chat is off; or no entry of the sender expires while the
    handler runs, and the window of the sender, with the instant of this
    message, holds no more instants than the settings allow. *)
Definition calm (update : Bot.Update) (settings : settings_row) (w : world) : Prop :=
  antiflood_enabled settings = true →
  let key := (Bot.effective_chat update, Bot.effective_user update) in
  let current := clock (env w) (S (ticks w)) in
  cache_holds key w ∧
  Z.of_nat (length (List.filter
                      (λ t, current - t <=? antiflood_seconds settings * second)
                      (window_found key w ++ [current])))
  ≤ antiflood_count settings.

(** The table of warnings is as it was. *)
Definition same_warnings (w w' : world) : Prop :=
  warnings (db w') = warnings (db w).

(** A computation whose every run adds at most one warning at the end of the
    table, a warning of [user] in [chat] given by [by_user], and deletes
    none. *)
Definition warns_once {A} (chat user by_user : Z) (m : M A) : Prop :=
  ∀ w, ∃ added,
    warnings (db (snd (m w))) = warnings (db w) ++ added ∧
    (length added ≤ 1)%nat ∧
    Forall (λ r, chat_id r = chat ∧ user_id r = user ∧ warned_by r = by_user) added.

End Notions.

(* ===================================================================== *)
(** * The time parser *)
(* ===================================================================== *)

Section ParseTime.
Import Utils Notions.

Lemma lower_char_digit c : is_digit c = true → lower_char c = c.
Proof.
  destruct c as [[] [] [] [] [] [] [] []]; vm_compute; congruence.
Qed.

Lemma is_digit_lower_char c : is_digit (lower_char c) = is_digit c.
Proof.
  destruct c as [[] [] [] [] [] [] [] []]; reflexivity.
Qed.

Lemma is_unit_not_digit c : is_unit c = true → is_digit c = false.
Proof.
  destruct c as [[] [] [] [] [] [] [] []]; vm_compute; congruence.
Qed.

Lemma unit_letter_lower u :
  unit_letter u ↔ is_unit (lower_char u) = true.
Proof.
  unfold unit_letter; split.
  - cbn [In]. intros H; repeat (destruct H as [<- | H]; [reflexivity|]).
    destruct H.
  - destruct u as [[] [] [] [] [] [] [] []]; vm_compute; intros H;
      try discriminate H; clear H; tauto.
Qed.

Lemma units_get_lower u :
  unit_letter u → units_get (lower_char u) 60 = multiplier u.
Proof.
  unfold unit_letter. cbn [In].
  intros H; repeat (destruct H as [<- | H]; [reflexivity|]). destruct H.
Qed.

Lemma lower_app a b : lower (a +:+ b) = lower a +:+ lower b.
Proof.
  induction a as [|c a IH]; simpl; [reflexivity | now rewrite IH].
Qed.

Lemma lower_digits ds : digits ds = true → lower ds = ds.
Proof.
  induction ds as [|c ds IH]; simpl; [reflexivity|].
  intros [Hc Hds]%andb_prop. now rewrite lower_char_digit, IH.
Qed.

(** A run of digits followed by a character that is not a digit is what
    [span_digits] splits off. *)
Lemma span_digits_app ds u rest :
  digits ds = true → is_digit u = false →
  span_digits (ds +:+ String u rest) = (ds, String u rest).
Proof.
  intros Hds Hu. induction ds as [|c ds IH]; simpl.
  - now rewrite Hu.
  - simpl in Hds. apply andb_prop in Hds as [Hc Hds].
    now rewrite Hc, (IH Hds).
Qed.

(** [span_digits] cuts its argument in two, digits first, and stops at a
    character that is not a digit. *)
Lemma span_digits_spec s a b :
  span_digits s = (a, b) →
  s = a +:+ b ∧ digits a = true ∧
  match b with String c _ => is_digit c = false | EmptyString => True end.
Proof.
  revert a b. induction s as [|c s IH]; simpl; intros a b H.
  - now inversion H.
  - destruct (is_digit c) eqn:Hc.
    + destruct (span_digits s) as [ds rest]. inversion H; subst.
      destruct (IH ds b eq_refl) as (-> & Hds & Hb). simpl.
      now rewrite Hc, Hds.
    + inversion H; subst. simpl. now rewrite Hc.
Qed.

Lemma span_digits_lower s :
  span_digits (lower s) =
  let '(a, b) := span_digits s in (a, lower b).
Proof.
  induction s as [|c s IH]; simpl; [reflexivity|].
  rewrite is_digit_lower_char. destruct (is_digit c) eqn:Hc.
  - rewrite IH. destruct (span_digits s) as [a b].
    now rewrite lower_char_digit.
  - reflexivity.
Qed.

(** The parser on a string that starts with a token. *)
Lemma parse_time_prefix_value ds u rest :
  ds ≠ EmptyString → digits ds = true → unit_letter u →
  parse_time (ds +:+ String u rest) = Some (int ds * multiplier u).
Proof.
  intros Hne Hds Hu.
  assert (Hl : is_unit (lower_char u) = true) by now apply unit_letter_lower.
  unfold parse_time.
  destruct ds as [|c ds]; [congruence|].
  change (String c ds +:+ String u rest)
    with (String c (ds +:+ String u rest)) at 1.
  cbv iota. unfold re_match.
  rewrite lower_app, (lower_digits _ Hds). cbn [lower].
  rewrite span_digits_app; [|assumption|now apply is_unit_not_digit].
  rewrite Hl, units_get_lower by assumption. reflexivity.
Qed.

(** A value comes only from a string that starts with a token. *)
Lemma parse_time_some_inv s v :
  parse_time s = Some v → begins_with_token s.
Proof.
  unfold parse_time, re_match. destruct s as [|c0 s0]; [discriminate|].
  set (s := String c0 s0). rewrite span_digits_lower.
  destruct (span_digits s) as [a b] eqn:Hs.
  apply span_digits_spec in Hs as (-> & Hda & _).
  destruct a as [|c a]; [discriminate|].
  destruct b as [|u rest]; [discriminate|]. cbn [lower].
  destruct (is_unit (lower_char u)) eqn:Hu; [|discriminate].
  intros _. exists (String c a), u, rest.
  repeat split; try assumption; try congruence.
  now apply unit_letter_lower.
Qed.

(** [int] reads decimal notation: one more digit at the end multiplies the
    value by ten and adds the digit. *)
Lemma int_from_snoc acc ds c :
  int_from acc (ds +:+ String c EmptyString) = 10 * int_from acc ds + digit_value c.
Proof.
  revert acc. induction ds as [|d ds IH]; intros acc; simpl; [reflexivity|].
  apply IH.
Qed.

Lemma int_snoc ds c :
  int (ds +:+ String c EmptyString) = 10 * int ds + digit_value c.
Proof. apply int_from_snoc. Qed.

(** C6, as the specification words it, fails: "10mfoo" is not a token
    <digits><unit>, and the parser still returns a value for it. *)
Lemma parse_time_rejects_non_tokens_counterexample :
  ¬ (∀ s, ¬ is_token s → parse_time s = None).
Proof.
  intros H. specialize (H "10mfoo").
  assert (Hv : parse_time "10mfoo" = Some 600) by reflexivity.
  rewrite H in Hv; [discriminate|].
  intros (ds & u & Hne & Hds & _ & Heq).
  destruct ds as [|c1 [|c2 [|c3 ds]]]; simpl in Heq; [congruence | | |];
    injection Heq; intros; subst; discriminate.
Qed.

(** C6 (amended): "10m" gives 600 and "2h" gives 7200; a token
    <digits><unit>, the digits those of ASCII and the unit in either case,
    gives the value of the digits times the multiplier of the unit; the
    empty string and "bogus" give no value, and so does every string of
    ASCII characters that does not start with such a token.  (A string with
    decimal digits from outside ASCII is left out of the last part: the
    pattern and [int] of the code read these digits too.) *)
Theorem parse_time_spec :
  parse_time "10m" = Some 600 ∧
  parse_time "2h" = Some 7200 ∧
  (∀ ds u, ds ≠ EmptyString → digits ds = true → unit_letter u →
           parse_time (ds +:+ String u EmptyString) = Some (int ds * multiplier u)) ∧
  parse_time "" = None ∧
  parse_time "bogus" = None ∧
  (∀ s, ascii_text s = true → ¬ begins_with_token s → parse_time s = None).
Proof.
  split; [reflexivity|]. split; [reflexivity|].
  split; [intros ds u; apply parse_time_prefix_value|].
  split; [reflexivity|]. split; [reflexivity|].
  intros s _ Hs. destruct (parse_time s) as [v|] eqn:Hv; [|reflexivity].
  destruct Hs. eapply parse_time_some_inv, Hv.
Qed.

Lemma parse_time_spec_witness :
  parse_time ("45" +:+ String "D" EmptyString) = Some (int "45" * multiplier "D") ∧
  parse_time "m10" = None.
Proof.
  destruct parse_time_spec as (_ & _ & Htok & _ & _ & Hnone). split.
  - apply Htok; [discriminate | reflexivity | unfold unit_letter; simpl; tauto].
  - apply Hnone; [reflexivity|]. intros (ds & u & rest & Hne & Hds & _ & Heq).
    destruct ds as [|c ds]; [congruence|].
    injection Heq as <- _. vm_compute in Hds. discriminate Hds.
Defined.

(** C10: the parser looks at the start of its input only.  A string that
    starts with a token <digits><unit> gets the value of that token, whatever
    follows it. *)
Theorem parse_time_matches_prefix ds u rest :
  ds ≠ EmptyString → digits ds = true → unit_letter u →
  parse_time (ds +:+ String u rest) = parse_time (ds +:+ String u EmptyString) ∧
  parse_time (ds +:+ String u rest) = Some (int ds * multiplier u).
Proof.
  intros Hne Hds Hu.
  rewrite !parse_time_prefix_value by assumption. split; reflexivity.
Qed.

Lemma parse_time_matches_prefix_witness :
  parse_time "10mfoo" = parse_time "10m" ∧ parse_time "10mfoo" = Some 600 ∧
  parse_time "10m extra" = parse_time "10m" ∧ parse_time "10m extra" = Some 600.
Proof.
  assert (Hu : unit_letter "m") by (unfold unit_letter; simpl; tauto).
  destruct (parse_time_matches_prefix "10" "m" "foo") as [H1 H2];
    [discriminate | reflexivity | exact Hu |].
  destruct (parse_time_matches_prefix "10" "m" " extra") as [H3 H4];
    [discriminate | reflexivity | exact Hu |].
  exact (conj H1 (conj H2 (conj H3 H4))).
Defined.

End ParseTime.

(* ===================================================================== *)
(** * The store *)
(* ===================================================================== *)

Section Mutes.
Import Process Database Notions.

(** How the methods run, one equation each. *)

Lemma run_remove_mute chat user w :
  remove_mute chat user w =
  (Ok tt, set_db (set_muted_users (delete (chat, user) (muted_users (db w))) (db w)) w).
Proof. reflexivity. Qed.

Lemma run_is_muted chat user w :
  is_muted chat user w =
  match mute_of chat user w with
  | None => (Ok false, w)
  | Some mute_until =>
      if now w <? mute_until then (Ok true, tick w)
      else (Ok false,
            set_db (set_muted_users (delete (chat, user) (muted_users (db w))) (db w))
                   (tick w))
  end.
Proof.
  unfold is_muted, mute_of, bind, get_db. simpl.
  destruct (muted_users (db w) !! (chat, user)) as [t|]; [|reflexivity].
  unfold datetime_now, now. destruct (_ <? t); reflexivity.
Qed.

Lemma run_add_mute chat user duration w :
  add_mute chat user duration w =
  match timedelta duration with
  | Raise e => (Raise e, tick w)
  | Ok delta =>
      match datetime_add (now w) delta with
      | Raise e => (Raise e, tick w)
      | Ok mute_until =>
          (Ok mute_until,
           set_db (set_muted_users (<[(chat, user) := mute_until]> (muted_users (db w)))
                                   (db w)) (tick w))
      end
  end.
Proof.
  unfold add_mute, bind, datetime_now, lift, now. simpl.
  destruct (timedelta duration); [|reflexivity].
  destruct (datetime_add _ _); reflexivity.
Qed.

(** C4: [is_muted] answers False when no mute is stored, and True while the
    stored expiry lies ahead of the clock.  When the expiry is at the clock
    or behind it, the answer is False and the record is deleted, the rest of
    the store staying as it was; the same call made again at once answers
    False again, raises nothing and changes nothing. *)
Theorem is_muted_lazy_expiry w chat user :
  (mute_of chat user w = None → is_muted chat user w = (Ok false, w)) ∧
  (∀ mute_until, mute_of chat user w = Some mute_until → now w < mute_until →
     fst (is_muted chat user w) = Ok true ∧
     db (snd (is_muted chat user w)) = db w) ∧
  (∀ mute_until, mute_of chat user w = Some mute_until → mute_until ≤ now w →
     let w' := snd (is_muted chat user w) in
     fst (is_muted chat user w) = Ok false ∧
     mute_of chat user w' = None ∧
     db w' = set_muted_users (delete (chat, user) (muted_users (db w))) (db w) ∧
     is_muted chat user w' = (Ok false, w')).
Proof.
  rewrite run_is_muted. repeat apply conj.
  - now intros ->.
  - intros t -> Hlt. apply Z.ltb_lt in Hlt. now rewrite Hlt.
  - intros t -> Hle. apply Z.ltb_ge in Hle. rewrite Hle. cbn zeta.
    assert (Hgone : mute_of chat user
              (set_db (set_muted_users (delete (chat, user) (muted_users (db w))) (db w))
                      (tick w)) = None)
      by apply lookup_delete_eq.
    cbn [fst snd]. rewrite run_is_muted, Hgone. auto.
Qed.

End Mutes.

Section Warnings.
Import Process Database Notions.

Lemma run_get_warnings_count chat user w :
  get_warnings_count chat user w = (Ok (warning_count chat user w), w).
Proof. reflexivity. Qed.

Lemma run_clear_warnings chat user w :
  clear_warnings chat user w =
  (Ok tt, set_db (set_warnings
                    (List.filter (λ x, negb (of_user chat user x)) (warnings (db w)))
                    (sqlite_sequence (db w)) (db w)) w).
Proof. reflexivity. Qed.

Lemma run_add_warning chat user by_user why w :
  add_warning chat user by_user why w =
  if collides chat user (now w) (warnings (db w)) then (Raise IntegrityError, tick w)
  else
    (Ok (warning_count chat user w + 1),
     set_db (set_warnings
               (warnings (db w) ++
                [{| id := sqlite_sequence (db w) + 1; chat_id := chat; user_id := user;
                    warned_by := by_user; reason := why; created_at := now w |}])
               (sqlite_sequence (db w) + 1) (db w)) (tick w)).
Proof.
  unfold add_warning, bind, datetime_now, get_db, now. simpl.
  destruct (collides _ _ _ _); [reflexivity|].
  unfold get_warnings_count, bind, get_db, ret, put_db, warning_count. simpl.
  rewrite List.filter_app, length_app. simpl.
  unfold of_user at 2. simpl. rewrite !Z.eqb_refl. simpl.
  do 2 f_equal. lia.
Qed.

Lemma run_remove_warning chat user w :
  remove_warning chat user w =
  match select_latest chat user (warnings (db w)) with
  | Some r =>
      let w' := set_db (set_warnings
                          (List.filter (λ x, negb (id x =? id r)) (warnings (db w)))
                          (sqlite_sequence (db w)) (db w)) w in
      (Ok (warning_count chat user w'), w')
  | None => (Ok (warning_count chat user w), w)
  end.
Proof.
  unfold remove_warning, bind, get_db. simpl.
  destruct (select_latest _ _ _); reflexivity.
Qed.

(** The row that the fold keeps is one of the rows, and none is newer. *)
Lemma latest_fold (rs : list warning_row) (r : warning_row) :
  let m := fold_left (λ best x, if created_at best <? created_at x then x else best) rs r in
  In m (r :: rs) ∧ ∀ x, In x (r :: rs) → created_at x ≤ created_at m.
Proof.
  revert r. induction rs as [|a rs IH]; intros r; simpl.
  - split; [now left|]. intros x [<-|[]]. lia.
  - destruct (created_at r <? created_at a) eqn:Hlt.
    + apply Z.ltb_lt in Hlt. destruct (IH a) as [Hin Hmax]. split.
      * right. exact Hin.
      * intros x [<-|Hx]; [|now apply Hmax].
        specialize (Hmax a (or_introl eq_refl)). lia.
    + apply Z.ltb_ge in Hlt. destruct (IH r) as [Hin Hmax]. split.
      * destruct Hin as [<-|Hin]; [now left | now right; right].
      * intros x [<-|[<-|Hx]].
        -- apply Hmax. now left.
        -- specialize (Hmax r (or_introl eq_refl)). lia.
        -- apply Hmax. now right.
Qed.

Lemma select_latest_none chat user l :
  select_latest chat user l = None ↔ List.filter (of_user chat user) l = [].
Proof.
  unfold select_latest. destruct (List.filter _ l); split; congruence.
Qed.

Lemma select_latest_some chat user l r :
  select_latest chat user l = Some r →
  In r l ∧ of_user chat user r = true ∧
  ∀ x, In x l → of_user chat user x = true → created_at x ≤ created_at r.
Proof.
  unfold select_latest.
  destruct (List.filter (of_user chat user) l) as [|r0 rs] eqn:Hf; [discriminate|].
  intros [= <-]. destruct (latest_fold rs r0) as [Hin Hmax].
  rewrite <- Hf in Hin, Hmax. apply filter_In in Hin as [Hin Hu].
  repeat apply conj; try assumption.
  intros x Hx Hxu. apply Hmax, filter_In. now split.
Qed.


Lemma of_user_true chat user r :
  of_user chat user r = true ↔ chat_id r = chat ∧ user_id r = user.
Proof. unfold of_user. rewrite andb_true_iff, !Z.eqb_eq. reflexivity. Qed.




(** The methods keep what the schema enforces. *)

Lemma NoDup_map_filter {A B} (f : A → B) (p : A → bool) (l : list A) :
  NoDup (map f l) → NoDup (map f (List.filter p l)).
Proof.
  induction l as [|a l IH]; simpl; intros H; [constructor|].
  apply NoDup_cons in H as [Ha H]. destruct (p a); simpl; [|now apply IH].
  apply NoDup_cons. split; [|now apply IH].
  rewrite list_elem_of_In in *. intros Hin. apply Ha.
  apply in_map_iff in Hin as (x & <- & Hx). apply filter_In in Hx as [Hx _].
  now apply in_map.
Qed.

Lemma Forall_filter_keep {A} (P : A → Prop) (p : A → bool) (l : list A) :
  Forall P l → Forall P (List.filter p l).
Proof.
  induction 1 as [|a l Ha _ IH]; simpl; [constructor|].
  destruct (p a); [now constructor | assumption].
Qed.

Lemma well_formed_filter d (p : warning_row → bool) :
  well_formed d →
  well_formed (set_warnings (List.filter p (warnings d)) (sqlite_sequence d) d).
Proof.
  intros (H1 & H2 & H3). repeat apply conj; simpl.
  - now apply NoDup_map_filter.
  - now apply Forall_filter_keep.
  - now apply NoDup_map_filter.
Qed.

Lemma well_formed_remove_warning w chat user :
  well_formed (db w) → well_formed (db (snd (remove_warning chat user w))).
Proof.
  intros H. rewrite run_remove_warning.
  destruct (select_latest _ _ _); [|exact H]. now apply well_formed_filter.
Qed.

Lemma well_formed_clear_warnings w chat user :
  well_formed (db w) → well_formed (db (snd (clear_warnings chat user w))).
Proof. intros H. rewrite run_clear_warnings. now apply well_formed_filter. Qed.



End Warnings.

Section Statistics.
Import Process Database Notions.

Lemma run_update_user_stats chat user w :
  update_user_stats chat user w =
  (Ok tt,
   set_db (set_user_stats
             (<[(chat, user) :=
                  {| messages_count :=
                       match stats_of chat user w with
                       | Some r => messages_count r + 1
                       | None => 1
                       end;
                     first_seen :=
                       match stats_of chat user w with
                       | Some r => first_seen r
                       | None => now w
                       end;
                     last_seen := now w |}]> (user_stats (db w))) (db w)) (tick w)).
Proof. reflexivity. Qed.

Lemma stats_of_update chat user w :
  stats_of chat user (snd (update_user_stats chat user w)) =
  Some {| messages_count :=
            match stats_of chat user w with
            | Some r => messages_count r + 1
            | None => 1
            end;
          first_seen :=
            match stats_of chat user w with
            | Some r => first_seen r
            | None => now w
            end;
          last_seen := now w |}.
Proof. rewrite run_update_user_stats. apply lookup_insert_eq. Qed.

(** The row of another user is not touched. *)
Lemma stats_of_update_other chat user chat' user' w :
  (chat', user') ≠ (chat, user) →
  stats_of chat' user' (snd (update_user_stats chat user w)) = stats_of chat' user' w.
Proof.
  intros Hne. rewrite run_update_user_stats. unfold stats_of. simpl.
  now apply lookup_insert_ne.
Qed.

(** What a history keeps true: the row of the user records the number of
    calls, the instant of the first and the instant of the last; no recorded
    instant is ahead of the clock, and the first is not after the last. *)
Lemma history_invariant chat user w ts w' :
  monotone_clock (env w) → stats_of chat user w = None →
  history chat user w ts w' →
  env w' = env w ∧ Forall (λ t, t ≤ now w') ts ∧
  (∀ a, hd a ts ≤ List.last ts a) ∧
  stats_of chat user w' =
    match ts with
    | [] => None
    | t0 :: _ => Some {| messages_count := Z.of_nat (length ts);
                         first_seen := t0;
                         last_seen := List.last ts t0 |}
    end.
Proof.
  intros Hmono Hnone Hrun.
  induction Hrun as [|ts w1 Hrun (Henv & Hpast & Hord & Hrow)
                     |ts w1 w2 Hrun (Henv & Hpast & Hord & Hrow) Henv2 Hticks Hsame].
  - repeat apply conj; auto. intros a. simpl. lia.
  - assert (Hstep : now w1 ≤ now (snd (update_user_stats chat user w1))).
    { rewrite run_update_user_stats. unfold now. simpl. rewrite Henv.
      apply Hmono. lia. }
    repeat apply conj.
    + now rewrite run_update_user_stats.
    + apply Forall_app. split.
      * eapply Forall_impl; [exact Hpast|]. cbv beta. intros; lia.
      * repeat constructor. exact Hstep.
    + intros a. rewrite List.last_last. destruct ts as [|t0 ts]; [simpl; lia|].
      simpl hd. now inversion Hpast.
    + rewrite stats_of_update, Hrow. destruct ts as [|t0 ts]; [reflexivity|].
      simpl app. cbv iota. f_equal. f_equal.
      * simpl messages_count. simpl length. rewrite length_app. simpl length. lia.
      * change (t0 :: ts ++ [now w1]) with ((t0 :: ts) ++ [now w1]).
        now rewrite List.last_last.
  - repeat apply conj.
    + congruence.
    + eapply Forall_impl; [exact Hpast|]. simpl. intros t Ht.
      assert (now w1 ≤ now w2); [|lia].
      unfold now. rewrite Henv2, Henv. now apply Hmono.
    + exact Hord.
    + now rewrite Hsame.
Qed.

(** What a history keeps true under any clock: the row of the user records
    the number of calls, the instant of the first and the instant of the
    last. *)
Lemma history_row chat user w ts w' :
  stats_of chat user w = None →
  history chat user w ts w' →
  stats_of chat user w' =
    match ts with
    | [] => None
    | t0 :: _ => Some {| messages_count := Z.of_nat (length ts);
                         first_seen := t0;
                         last_seen := List.last ts t0 |}
    end.
Proof.
  intros Hnone Hrun.
  induction Hrun as [|ts w1 Hrun Hrow|ts w1 w2 Hrun Hrow Henv2 Hticks Hsame].
  - exact Hnone.
  - rewrite stats_of_update, Hrow. destruct ts as [|t0 ts]; [reflexivity|].
    simpl app. cbv iota. f_equal. f_equal.
    + simpl messages_count. simpl length. rewrite length_app. simpl length. lia.
    + change (t0 :: ts ++ [now w1]) with ((t0 :: ts) ++ [now w1]).
      now rewrite List.last_last.
  - now rewrite Hsame.
Qed.

(** C9, as the specification words it, fails: [first_seen] is not after
    [last_seen] only as long as the wall clock is not set back.  Under a
    clock that shows 03:00 and then 02:00, the second call for a user stores
    a [last_seen] one hour before the [first_seen] of the first call. *)
Lemma user_stats_order_counterexample :
  ¬ (∀ chat user w ts w' r,
       stats_of chat user w = None → history chat user w ts w' →
       stats_of chat user w' = Some r → first_seen r ≤ last_seen r).
Proof.
  intros H.
  specialize (H 1 9 set_back_world _ _
                {| messages_count := 2; first_seen := 3 * hour; last_seen := 2 * hour |}
                eq_refl
                (history_update 1 9 set_back_world _ _
                   (history_update 1 9 set_back_world _ _
                      (history_start 1 9 set_back_world)))
                eq_refl).
  vm_compute in H. apply H. reflexivity.
Qed.

(** C9 (amended): along every history that starts without a row for the
    user, under any clock, the count of messages is the number of calls of
    [update_user_stats] made for the user, [first_seen] is the instant read
    at the first call and [last_seen] the instant read at the last one.
    [first_seen] is not after [last_seen] when the wall clock never runs
    backwards; the code does nothing to keep it so under another clock. *)
Theorem user_stats_history chat user w ts w' :
  stats_of chat user w = None →
  history chat user w ts w' →
  match ts with
  | [] => stats_of chat user w' = None
  | first :: _ =>
      ∃ r, stats_of chat user w' = Some r ∧
           messages_count r = Z.of_nat (length ts) ∧
           first_seen r = first ∧
           last_seen r = List.last ts first ∧
           (monotone_clock (env w) → first_seen r ≤ last_seen r)
  end.
Proof.
  intros Hnone Hrun.
  pose proof (history_row _ _ _ _ _ Hnone Hrun) as Hrow.
  destruct ts as [|t0 ts]; [exact Hrow|].
  eexists. split; [exact Hrow|]. simpl messages_count. simpl first_seen.
  simpl last_seen. repeat apply conj; try reflexivity.
  intros Hmono.
  destruct (history_invariant _ _ _ _ _ Hmono Hnone Hrun) as (_ & _ & Hord & _).
  exact (Hord t0).
Qed.

(** The other methods of the store are such other steps. *)
Lemma other_methods_keep_statistics w :
  (∀ chat user by_user why,
     keeps_statistics w (snd (add_warning chat user by_user why w))) ∧
  (∀ chat user, keeps_statistics w (snd (remove_warning chat user w))) ∧
  (∀ chat user, keeps_statistics w (snd (clear_warnings chat user w))) ∧
  (∀ chat user d, keeps_statistics w (snd (add_mute chat user d w))) ∧
  (∀ chat user, keeps_statistics w (snd (remove_mute chat user w))) ∧
  (∀ chat user, keeps_statistics w (snd (is_muted chat user w))).
Proof.
  unfold keeps_statistics. repeat apply conj; intros.
  - rewrite run_add_warning. destruct (collides _ _ _ _); cbn; auto with lia.
  - rewrite run_remove_warning. destruct (select_latest _ _ _); cbn; auto with lia.
  - rewrite run_clear_warnings. cbn. auto with lia.
  - rewrite run_add_mute. destruct (timedelta d); [|cbn; auto with lia].
    destruct (datetime_add _ _); cbn; auto with lia.
  - rewrite run_remove_mute. cbn. auto with lia.
  - rewrite run_is_muted. destruct (mute_of chat user w); [|auto with lia].
    destruct (_ <? _); cbn; auto with lia.
Qed.

Lemma history_step chat user w ts w1 w2 :
  history chat user w ts w1 → keeps_statistics w1 w2 → history chat user w ts w2.
Proof.
  intros Hrun (Henv & Hticks & Hstats).
  eapply history_other; [exact Hrun | exact Henv | exact Hticks |].
  unfold stats_of. now rewrite Hstats.
Qed.

End Statistics.

(* ===================================================================== *)
(** * The handlers *)
(* ===================================================================== *)

Section Handlers.
Import Process Database Bot Notions.

Lemma run_api c w :
  api c w = (if accepts (env w) (length (calls w)) c then Ok tt
             else Raise TelegramError, record c w).
Proof. unfold api. destruct (accepts _ _ _); reflexivity. Qed.

Lemma run_api_cooperative c w :
  cooperative (env w) → api c w = (Ok tt, record c w).
Proof. intros H. unfold api. now rewrite H. Qed.

Lemma is_admin_pure update w : snd (is_admin update w) = w.
Proof.
  unfold is_admin. destruct (get_member _ _ _) as [[]|]; reflexivity.
Qed.

Lemma is_admin_env update w1 w2 :
  env w1 = env w2 → fst (is_admin update w1) = fst (is_admin update w2).
Proof.
  intros H. unfold is_admin. rewrite H.
  destruct (get_member _ _ _) as [[]|]; reflexivity.
Qed.

Lemma is_admin_ok update w : ∃ b, is_admin update w = (Ok b, w).
Proof.
  unfold is_admin. destruct (get_member _ _ _) as [[]|]; eauto.
Qed.

(** The handler on a message of a muted sender. *)
Lemma handle_messages_muted w update context m txt :
  message update = Some m → text m = Some txt → txt ≠ EmptyString →
  fst (is_muted (effective_chat update) (effective_user update) w) = Ok true →
  handle_messages update context w =
  (Ok tt, record (DeleteMessage (effective_chat update) (message_id m)) (tick w)).
Proof.
  intros Hm Htxt Hne Hmuted. unfold handle_messages. rewrite Hm, Htxt.
  destruct txt as [|c txt]; [congruence|]. unfold bind.
  rewrite run_is_muted in *.
  destruct (mute_of _ _ w) as [t|]; [|discriminate].
  destruct (now w <? t); [|discriminate].
  unfold try_except, delete. rewrite run_api.
  destruct (accepts _ _ _); reflexivity.
Qed.

(** C5: a text message of a sender who is muted is deleted and nothing else
    happens: the handler issues the deletion as its only call and returns,
    whether the platform accepts the deletion or not; the database (warnings,
    statistics, settings and mutes) and the flood windows stay as they were. *)
Theorem muted_sender_is_dropped w update context m txt :
  message update = Some m → text m = Some txt → txt ≠ EmptyString →
  fst (is_muted (effective_chat update) (effective_user update) w) = Ok true →
  let w' := snd (handle_messages update context w) in
  fst (handle_messages update context w) = Ok tt ∧
  calls w' = calls w ++ [DeleteMessage (effective_chat update) (message_id m)] ∧
  db w' = db w ∧
  flood_cache w' = flood_cache w.
Proof.
  intros Hm Htxt Hne Hmuted.
  rewrite (handle_messages_muted _ _ _ _ _ Hm Htxt Hne Hmuted).
  repeat apply conj; reflexivity.
Qed.

Lemma timedelta_ok d :
  Z.abs (d / 86400) ≤ 999999999 → timedelta d = Ok (d * second).
Proof.
  intros H. unfold timedelta.
  destruct (Z.ltb_spec 999999999 (Z.abs (d / 86400))); [lia | reflexivity].
Qed.

Lemma datetime_add_ok t d :
  0 ≤ t + d ≤ datetime_max → datetime_add t d = Ok (t + d).
Proof.
  intros [H1 H2]. unfold datetime_add.
  destruct (Z.leb_spec 0 (t + d)); [|lia].
  destruct (Z.leb_spec (t + d) datetime_max); [reflexivity | lia].
Qed.

(** /mute by an administrator, in reply to a message, on a cooperative
    platform, with a duration [d] that fits: the member is restricted until
    [d] seconds after the first reading of the clock, the mute is stored with
    an expiry [d] seconds after the second, and the command reports it. *)
Lemma mute_command_records w update context m target d :
  cooperative (env w) →
  fst (is_admin update w) = Ok true →
  message update = Some m → reply_to_message m = Some target →
  (let duration := match args context with
                   | [] => None
                   | token :: _ => Utils.parse_time token
                   end in
   if truthy duration then default 0 duration else 3600) = d →
  fits w d →
  let w' := snd (mute_command update context w) in
  fst (mute_command update context w) = Ok tt ∧
  mute_of (effective_chat update) target w' =
    Some (clock (env w) (S (ticks w)) + d * second) ∧
  calls w' = calls w ++
    [RestrictMember (effective_chat update) target Utils.create_mute_permissions
                    (Some (now w + d * second));
     ReplyText (effective_chat update) (message_id m) (Muted (Utils.format_time d))].
Proof.
  intros Hcoop Hadmin Hm Hreply Hd (Hdays & Hcal). cbv zeta in Hd.
  assert (Hrun : mute_command update context w =
    (Ok tt,
     record (ReplyText (effective_chat update) (message_id m)
                       (Muted (Utils.format_time d)))
       (set_db (set_muted_users
                  (<[(effective_chat update, target) :=
                       clock (env w) (S (ticks w)) + d * second]>
                     (muted_users (db w))) (db w))
          (tick (record (RestrictMember (effective_chat update) target
                           Utils.create_mute_permissions (Some (now w + d * second)))
                   (tick w)))))).
  { unfold mute_command, bind at 1.
    destruct (is_admin_ok update w) as [b Hb]. rewrite Hb in Hadmin |- *.
    injection Hadmin as ->. unfold bind at 1, the_message. rewrite Hm.
    unfold ret at 1. cbn [negb]. rewrite Hreply. cbv zeta. rewrite Hd.
    unfold bind at 1, datetime_now. unfold bind at 1, lift.
    rewrite (timedelta_ok _ Hdays). unfold bind at 1.
    rewrite datetime_add_ok by (apply (Hcal (ticks w)); lia).
    unfold try_except, bind at 1. rewrite run_api_cooperative by exact Hcoop.
    unfold bind at 1. rewrite run_add_mute, (timedelta_ok _ Hdays).
    unfold now at 1. cbn [ticks tick record env].
    rewrite datetime_add_ok by (apply (Hcal (S (ticks w))); lia).
    unfold reply_text. rewrite run_api_cooperative by exact Hcoop.
    reflexivity. }
  rewrite Hrun. cbn [fst snd]. repeat apply conj.
  - reflexivity.
  - apply lookup_insert_eq.
  - cbn. now rewrite <- app_assoc.
Qed.

Lemma sample_cooperative : cooperative (env sample_world).
Proof. intros k c. reflexivity. Qed.

Lemma sample_fits d :
  0 ≤ d ≤ 86400 → fits sample_world d.
Proof.
  intros Hd. split.
  - assert (0 ≤ d / 86400 ≤ 1); [|lia].
    split; [apply Z.div_pos; lia | apply Z.div_le_upper_bound; lia].
  - intros k Hk. cbn [sample_world ticks env sample_env clock] in *.
    unfold datetime_max, second. lia.
Qed.

(** C7, as the specification words it, fails: the token "0s" parses, to 0
    seconds, and the mute that /mute records is the default of 3600 seconds,
    not one of 0 seconds. *)
Lemma mute_zero_counterexample :
  Utils.parse_time "0s" = Some 0 ∧
  mute_recorded sample_command (sample_context ["0s"]) 9 3600 sample_world ∧
  ¬ mute_recorded sample_command (sample_context ["0s"]) 9 0 sample_world.
Proof.
  assert (H : mute_recorded sample_command (sample_context ["0s"]) 9 3600 sample_world).
  { destruct (mute_command_records sample_world sample_command
                (sample_context ["0s"]) _ 9 3600
                sample_cooperative eq_refl eq_refl eq_refl eq_refl)
      as (H1 & H2 & H3); [apply sample_fits; lia|].
    repeat apply conj; [exact H1 | exact H2 |].
    eexists. split; [reflexivity | exact H3]. }
  split; [reflexivity|]. split; [exact H|].
  destruct H as (_ & H & _). intros (_ & H' & _).
  rewrite H in H'. injection H' as H'. unfold second in H'. lia.
Qed.

(** C7 (amended): for an administrator replying to a message, on a platform
    that accepts the calls and with a duration that fits the calendar:
    a token that parses to [n] seconds, [n] at least 1, makes /mute record a
    mute of [n] seconds; without a token, or with a token that does not
    parse or parses to 0, /mute runs to its end all the same and records a
    mute of 3600 seconds. *)
Theorem mute_duration w update context m target :
  cooperative (env w) →
  fst (is_admin update w) = Ok true →
  message update = Some m → reply_to_message m = Some target →
  (∀ token rest n,
     args context = token :: rest → Utils.parse_time token = Some n → 1 ≤ n →
     fits w n → mute_recorded update context target n w) ∧
  ((args context = [] ∨
    ∃ token rest, args context = token :: rest ∧
      (Utils.parse_time token = None ∨ Utils.parse_time token = Some 0)) →
   fits w 3600 → mute_recorded update context target 3600 w).
Proof.
  intros Hcoop Hadmin Hm Hreply.
  assert (Hrec : ∀ d,
    (let duration := match args context with
                     | [] => None
                     | token :: _ => Utils.parse_time token
                     end in
     if truthy duration then default 0 duration else 3600) = d →
    fits w d → mute_recorded update context target d w).
  { intros d Hd Hfits.
    destruct (mute_command_records w update context m target d
                Hcoop Hadmin Hm Hreply Hd Hfits) as (H1 & H2 & H3).
    repeat apply conj; [exact H1 | exact H2 |].
    exists m. split; [exact Hm | exact H3]. }
  split.
  - intros token rest n Hargs Hparse Hn Hfits. apply Hrec; [|exact Hfits].
    rewrite Hargs, Hparse. cbn. destruct (Z.eqb_spec n 0); [lia | reflexivity].
  - intros Hcase Hfits. apply Hrec; [|exact Hfits].
    destruct Hcase as [-> | (token & rest & -> & [-> | ->])]; reflexivity.
Qed.

Lemma mute_duration_witness :
  mute_recorded sample_command (sample_context ["10m"]) 9 600 sample_world ∧
  mute_recorded sample_command (sample_context ["soon"]) 9 3600 sample_world.
Proof.
  split.
  - apply (proj1 (mute_duration sample_world sample_command (sample_context ["10m"])
                    _ 9 sample_cooperative eq_refl eq_refl eq_refl)
             "10m" [] 600 eq_refl eq_refl); [lia | apply sample_fits; lia].
  - apply (proj2 (mute_duration sample_world sample_command (sample_context ["soon"])
                    _ 9 sample_cooperative eq_refl eq_refl eq_refl)).
    + right. exists "soon", []. split; [reflexivity | left; reflexivity].
    + apply sample_fits; lia.
Defined.

(** ** /warn *)

Lemma count_after_clear chat user l :
  List.filter (of_user chat user) (List.filter (λ x, negb (of_user chat user x)) l) = [].
Proof.
  induction l as [|a l IH]; simpl; [reflexivity|].
  destruct (of_user chat user a) eqn:Ha; simpl; [exact IH|].
  now rewrite Ha.
Qed.

(** /warn by an administrator in reply to a message, in a chat that has its
    settings, at an instant that no stored warning of the user has: the
    warning is stored, and the count decides between the ban and the
    notice. *)
Lemma run_warn_command w update context m target settings :
  fst (is_admin update w) = Ok true →
  message update = Some m → reply_to_message m = Some target →
  chat_settings (db w) !! effective_chat update = Some settings →
  collides (effective_chat update) target (now w) (warnings (db w)) = false →
  let chat := effective_chat update in
  let n := warning_count chat target w + 1 in
  let w1 := with_warning chat target (effective_user update) (warn_reason context) w in
  warn_command update context w =
  if warn_limit settings <=? n then
    try_except
      (api (BanMember chat target) ;;;
       clear_warnings chat target ;;;
       reply_text update m (BannedAtLimit n (warn_limit settings) (warn_reason context)))%process
      (λ e, reply_text update m (BanFailed e)) w1
  else reply_text update m (Warned n (warn_limit settings) (warn_reason context)) w1.
Proof.
  intros Hadmin Hm Hreply Hset Hfree. cbv zeta.
  unfold warn_command, bind at 1.
  destruct (is_admin_ok update w) as [b Hb]. rewrite Hb in Hadmin |- *.
  injection Hadmin as ->. unfold bind at 1, the_message. rewrite Hm.
  unfold ret at 1. cbn [negb]. rewrite Hreply.
  fold (warn_reason context).
  unfold bind at 1. rewrite run_add_warning, Hfree.
  fold (with_warning (effective_chat update) target (effective_user update)
          (warn_reason context) w).
  unfold bind at 1, get_chat_settings, bind at 1, get_db.
  cbn [with_warning set_db db set_warnings chat_settings]. rewrite Hset.
  unfold ret at 1. destruct (_ <=? _); reflexivity.
Qed.

Lemma warn_command_below w update context m target settings :
  fst (is_admin update w) = Ok true →
  message update = Some m → reply_to_message m = Some target →
  chat_settings (db w) !! effective_chat update = Some settings →
  collides (effective_chat update) target (now w) (warnings (db w)) = false →
  warning_count (effective_chat update) target w + 1 < warn_limit settings →
  snd (warn_command update context w) =
  record (ReplyText (effective_chat update) (message_id m)
            (Warned (warning_count (effective_chat update) target w + 1)
                    (warn_limit settings) (warn_reason context)))
         (with_warning (effective_chat update) target (effective_user update)
                       (warn_reason context) w).
Proof.
  intros Hadmin Hm Hreply Hset Hfree Hlt.
  rewrite (run_warn_command _ _ _ _ _ _ Hadmin Hm Hreply Hset Hfree).
  destruct (Z.leb_spec (warn_limit settings)
              (warning_count (effective_chat update) target w + 1)); [lia|].
  unfold reply_text. now rewrite run_api.
Qed.

Lemma warn_command_at_limit w update context m target settings :
  fst (is_admin update w) = Ok true →
  message update = Some m → reply_to_message m = Some target →
  chat_settings (db w) !! effective_chat update = Some settings →
  collides (effective_chat update) target (now w) (warnings (db w)) = false →
  warn_limit settings ≤ warning_count (effective_chat update) target w + 1 →
  let w' := snd (warn_command update context w) in
  (∃ rest, calls w' = calls w ++ BanMember (effective_chat update) target :: rest) ∧
  (accepts (env w) (length (calls w)) (BanMember (effective_chat update) target) = true →
   warning_count (effective_chat update) target w' = 0) ∧
  (accepts (env w) (length (calls w)) (BanMember (effective_chat update) target) = false →
   warning_count (effective_chat update) target w' =
   warning_count (effective_chat update) target w + 1).
Proof.
  intros Hadmin Hm Hreply Hset Hfree Hge.
  rewrite (run_warn_command _ _ _ _ _ _ Hadmin Hm Hreply Hset Hfree).
  destruct (Z.leb_spec (warn_limit settings)
              (warning_count (effective_chat update) target w + 1)); [|lia].
  unfold try_except, bind, reply_text. rewrite run_api.
  cbn [with_warning set_db env calls tick].
  destruct (accepts (env w) (length (calls w)) _) eqn:Hban; cbv beta iota.
  - rewrite run_clear_warnings. cbv beta iota. rewrite run_api.
    cbn [set_db record env calls tick].
    match goal with |- context [if ?b then _ else _] => destruct b end;
      cbv beta iota; [|rewrite run_api]; cbn [fst snd]; repeat apply conj.
    + eexists. cbn [calls record set_db tick]. now rewrite <- app_assoc.
    + intros _. unfold warning_count.
      cbn [db record set_db tick warnings set_warnings].
      now rewrite count_after_clear.
    + discriminate.
    + eexists. cbn [calls record set_db tick]. now rewrite <- !app_assoc.
    + intros _. unfold warning_count.
      cbn [db record set_db tick warnings set_warnings].
      now rewrite count_after_clear.
    + discriminate.
  - rewrite run_api. cbn [fst snd]. repeat apply conj.
    + eexists. cbn [calls record set_db tick]. now rewrite <- app_assoc.
    + discriminate.
    + intros _. unfold warning_count.
      cbn [db record set_db tick warnings set_warnings with_warning].
      rewrite List.filter_app, length_app. cbn [List.filter].
      unfold of_user at 2. cbn [chat_id user_id]. rewrite !Z.eqb_refl.
      cbn [andb length]. lia.
Qed.

Lemma collides_fresh chat user w :
  older_than_clock chat user w →
  collides chat user (now w) (warnings (db w)) = false.
Proof.
  intros Hold. apply not_true_iff_false. unfold collides.
  intros (r & Hin & [Hu Ht]%andb_prop)%existsb_exists.
  apply Z.eqb_eq in Ht. specialize (Hold r Hin Hu). lia.
Qed.

Lemma warned_app l1 l2 w : warned (l1 ++ l2) w = warned l2 (warned l1 w).
Proof.
  revert w. induction l1 as [|[u c] l1 IH]; intros w; cbn; [reflexivity | apply IH].
Qed.

(** While the count stays below the limit, each /warn adds one warning and
    answers with a notice; nothing else changes. *)
Lemma warned_below w l chat target settings :
  Forall (warns chat target w) l →
  chat_settings (db w) !! chat = Some settings →
  increasing_clock (env w) →
  older_than_clock chat target w →
  warning_count chat target w + Z.of_nat (length l) < warn_limit settings →
  let wl := warned l w in
  env wl = env w ∧
  chat_settings (db wl) = chat_settings (db w) ∧
  older_than_clock chat target wl ∧
  warning_count chat target wl = warning_count chat target w + Z.of_nat (length l) ∧
  no_ban_since w wl.
Proof.
  intros Hl Hset Hclock Hold. cbv zeta.
  induction l as [|[update context] l IH] using rev_ind; intros Hlt.
  - cbn [warned length]. repeat apply conj; try reflexivity; try assumption.
    + lia.
    + exists []. split; [now rewrite app_nil_r | constructor].
  - apply Forall_app in Hl as [Hl Hlast]. rewrite length_app in *. cbn [length] in *.
    destruct (IH Hl) as (Henv & Hsets & Holdk & Hcount & (new & Hcalls & Hnew)); [lia|].
    rewrite warned_app. cbn [warned]. set (wk := warned l w) in *.
    apply Forall_inv in Hlast as (Hchat & Hadmin & m & Hm & Hreply).
    cbn [fst] in Hchat, Hadmin, Hm. subst chat.
    assert (Hadmink : fst (is_admin update wk) = Ok true)
      by now rewrite (is_admin_env update wk w Henv).
    assert (Hsetk : chat_settings (db wk) !! effective_chat update = Some settings)
      by now rewrite Hsets.
    rewrite (warn_command_below wk update context m target settings
               Hadmink Hm Hreply Hsetk (collides_fresh _ _ _ Holdk)) by lia.
    repeat apply conj.
    + exact Henv.
    + exact Hsets.
    + intros r Hin Hu.
      assert (Hnext : now wk < now (tick wk)).
      { unfold now. cbn [tick env ticks]. rewrite Henv. apply Hclock. lia. }
      cbn [record with_warning set_db db warnings set_warnings] in Hin.
      change (now (record _ (with_warning _ _ _ _ wk))) with (now (tick wk)).
      apply in_app_or in Hin as [Hin | [<- | []]].
      * specialize (Holdk r Hin Hu). lia.
      * exact Hnext.
    + unfold warning_count in Hcount |- *.
      cbn [record with_warning set_db db warnings set_warnings].
      rewrite List.filter_app, length_app. cbn [List.filter].
      unfold of_user at 2. cbn [chat_id user_id]. rewrite !Z.eqb_refl.
      cbn [andb length]. lia.
    + eexists. split.
      * cbn [record with_warning set_db calls tick]. rewrite Hcalls.
        rewrite <- app_assoc. reflexivity.
      * apply Forall_app. split; [exact Hnew | repeat constructor].
Qed.

(** A chat that has a row of settings with the limit L, and /warn commands
    of its administrators against one user, each made at a later instant.
    As long as the count of warnings stays below L, it is the count at the
    start plus the number of commands, and no ban was issued.  The command
    whose warning makes the count reach L issues a ban of the user and, the
    platform accepting it, clears the warnings of the user in the chat: the
    count is 0 afterwards. *)
Theorem warn_limit_ban_and_reset w l update context chat target settings :
  Forall (warns chat target w) (l ++ [(update, context)]) →
  chat_settings (db w) !! chat = Some settings →
  increasing_clock (env w) →
  older_than_clock chat target w →
  let n := warning_count chat target w + Z.of_nat (length l) in
  let wl := warned l w in
  let w' := warned (l ++ [(update, context)]) w in
  n < warn_limit settings →
  (warning_count chat target wl = n ∧ no_ban_since w wl) ∧
  (n + 1 < warn_limit settings →
     warning_count chat target w' = n + 1 ∧ no_ban_since w w') ∧
  (warn_limit settings ≤ n + 1 →
     accepts (env wl) (length (calls wl)) (BanMember chat target) = true →
     (∃ rest, calls w' = calls wl ++ BanMember chat target :: rest) ∧
     warning_count chat target w' = 0).
Proof.
  intros Hall Hset Hclock Hold. cbv zeta. intros Hlt.
  pose proof Hall as [Hl Hlast]%Forall_app.
  destruct (warned_below w l chat target settings Hl Hset Hclock Hold Hlt)
    as (Henv & Hsets & Holdk & Hcount & Hnoban).
  split; [now split|]. split.
  - intros Hlt'.
    destruct (warned_below w (l ++ [(update, context)]) chat target settings
                Hall Hset Hclock Hold)
      as (_ & _ & _ & Hcount' & Hnoban').
    + rewrite length_app. cbn [length]. lia.
    + split; [|exact Hnoban']. rewrite Hcount', length_app. cbn [length]. lia.
  - intros Hge Hban. rewrite warned_app. cbn [warned].
    set (wk := warned l w) in *.
    apply Forall_inv in Hlast as (Hchat & Hadmin & m & Hm & Hreply).
    cbn [fst] in Hchat, Hadmin, Hm. subst chat.
    assert (Hadmink : fst (is_admin update wk) = Ok true)
      by now rewrite (is_admin_env update wk w Henv).
    assert (Hsetk : chat_settings (db wk) !! effective_chat update = Some settings)
      by now rewrite Hsets.
    destruct (warn_command_at_limit wk update context m target settings
                Hadmink Hm Hreply Hsetk (collides_fresh _ _ _ Holdk))
      as (Hcalls & Hzero & _); [lia|].
    split; [exact Hcalls | now apply Hzero].
Qed.

(** ** The word filter *)

(** C2 fails on the code.  Chat 1 has the limit 3 and the banned word
    "spam"; user 9 sends three messages with the word, 61 seconds apart.  The
    third warning reaches the limit and the handler asks for the ban, but it
    does not clear the warnings: three are still stored, and [remove_warning],
    as /unwarn calls it, returns 2. *)
Theorem word_filter_ban_keeps_warnings :
  let context := sample_context [] in
  let w3 := handled [(sample_message "buy spam", context);
                     (sample_message "more SPAM", context);
                     (sample_message "spam again", context)] slow_world in
  In (BanMember 1 9) (calls w3) ∧
  warning_count 1 9 w3 = 3 ∧
  fst (remove_warning 1 9 w3) = Ok 2 ∧
  fst (remove_warning 1 9 w3) ≠ Ok 0.
Proof.
  cbv zeta. repeat apply conj.
  - vm_compute. do 6 right. left. reflexivity.
  - vm_compute. reflexivity.
  - vm_compute. reflexivity.
  - vm_compute. discriminate.
Qed.

(** ** Quiet steps *)

Lemma quiet_refl w : quiet 0 w w.
Proof.
  repeat apply conj; try reflexivity; try lia.
  exists []. split; [now rewrite app_nil_r | constructor].
Qed.

Lemma quiet_trans n1 n2 w1 w2 w3 :
  quiet n1 w1 w2 → quiet n2 w2 w3 → quiet (n1 + n2) w1 w3.
Proof.
  intros (E1 & S1 & M1 & F1 & T1 & new1 & C1 & R1)
         (E2 & S2 & M2 & F2 & T2 & new2 & C2 & R2).
  repeat apply conj; try congruence; try lia.
  exists (new1 ++ new2). split.
  - now rewrite C2, C1, app_assoc.
  - now apply Forall_app.
Qed.

Lemma quiet_weaken n n' w w' : (n ≤ n')%nat → quiet n w w' → quiet n' w w'.
Proof.
  intros Hn (E & S & Mu & F & T & C). repeat apply conj; try assumption; lia.
Qed.

Lemma frames_ret {A} (a : A) : frames 0 (ret a).
Proof. intros w. apply quiet_refl. Qed.

Lemma frames_bind {A B} n1 n2 (m : M A) (f : A → M B) :
  frames n1 m → (∀ a, frames n2 (f a)) → frames (n1 + n2) (bind m f).
Proof.
  intros Hm Hf w. unfold bind. specialize (Hm w).
  destruct (m w) as [[a|e] w1]; cbn [snd] in *.
  - eapply quiet_trans; [exact Hm | apply Hf].
  - eapply quiet_weaken; [|exact Hm]. lia.
Qed.

Lemma frames_try_except {A} n1 n2 (body : M A) (handler : exn → M A) :
  frames n1 body → (∀ e, frames n2 (handler e)) →
  frames (n1 + n2) (try_except body handler).
Proof.
  intros Hm Hf w. unfold try_except. specialize (Hm w).
  destruct (body w) as [[a|e] w1]; cbn [snd] in *.
  - eapply quiet_weaken; [|exact Hm]. lia.
  - eapply quiet_trans; [exact Hm | apply Hf].
Qed.

Lemma frames_api c : is_restrict c = false → frames 0 (api c).
Proof.
  intros Hc w. rewrite run_api. repeat apply conj; try reflexivity; try (cbn; lia).
  exists [c]. split; [reflexivity | repeat constructor; exact Hc].
Qed.

Lemma frames_add_warning chat user by_user why :
  frames 1 (add_warning chat user by_user why).
Proof.
  intros w. rewrite run_add_warning.
  destruct (collides _ _ _ _); repeat apply conj; try reflexivity; try (cbn; lia);
    (exists []; split; [cbn; now rewrite app_nil_r | constructor]).
Qed.

Lemma frames_get_bad_words chat : frames 0 (get_bad_words chat).
Proof.
  intros w. unfold get_bad_words, bind, get_db.
  destruct (chat_settings (db w) !! chat); apply quiet_refl.
Qed.

(** The loop over the banned words restricts nobody, stores no mute and
    leaves the flood windows alone, whatever the platform answers. *)
Lemma frames_anti_mat update context m settings text_lower words :
  frames 1 (anti_mat update context m settings text_lower words).
Proof.
  induction words as [|word rest IH]; cbn [anti_mat].
  - intros w. eapply quiet_weaken; [|apply quiet_refl]. lia.
  - destruct (contains _ _); [|exact IH].
    change 1%nat with ((0 + (1 + (0 + 0))) + 0)%nat.
    apply frames_try_except; [|intros; apply frames_ret].
    apply frames_bind; [now apply frames_api|]. intros _.
    apply frames_bind; [apply frames_add_warning|]. intros warn_count.
    apply frames_bind; [now apply frames_api|]. intros _.
    destruct (_ <=? _).
    + change 0%nat with (0 + 0)%nat.
      apply frames_bind; [now apply frames_api|]. intros _. now apply frames_api.
    + apply frames_ret.
Qed.

(** ** The flood detector *)

Lemma bind_ok {A B} (m : M A) (f : A → M B) w a w' :
  m w = (Ok a, w') → bind m f w = f a w'.
Proof. intros H. unfold bind. now rewrite H. Qed.

Lemma ttl_positive : 0 < ttl.
Proof. reflexivity. Qed.

(** The part of the handler that follows the check of the key, run on an
    entry that is there and stays until the clock was read once more. *)
Lemma flood_tail {A} (k : list Z → M A) wc key v expires seconds :
  flood_cache wc !! key = Some (v, expires) →
  monotonic (env wc) (S (ticks wc)) < expires →
  let current := clock (env wc) (ticks wc) in
  let window := List.filter (λ t, current - t <=? seconds * second) (v ++ [current]) in
  (current_time <- datetime_now ;;
   cache_append key current_time ;;;
   window <- cache_get key ;;
   cache_set key (List.filter (λ t, current_time - t <=? seconds * second) window) ;;;
   window <- cache_get key ;;
   k window)%process wc =
  k window
    (set_flood_cache
       (<[key := (window, monotonic (env wc) (S (ticks wc)) + ttl)]>
          (<[key := (v ++ [current], expires)]> (flood_cache wc)))
       (tick wc)).
Proof.
  intros Hentry Hlive. cbv zeta.
  erewrite bind_ok by reflexivity. cbv beta.
  assert (Hlt : (cache_now (tick wc) <? expires) = true) by now apply Z.ltb_lt.
  erewrite bind_ok.
  2:{ unfold cache_append. cbn [tick flood_cache]. rewrite Hentry, Hlt. reflexivity. }
  cbv beta.
  erewrite bind_ok.
  2:{ unfold cache_get. cbn [set_flood_cache flood_cache].
      rewrite lookup_insert_eq.
      change (cache_now (set_flood_cache _ (tick wc))) with (cache_now (tick wc)).
      rewrite Hlt. reflexivity. }
  cbv beta.
  erewrite bind_ok by reflexivity. cbv beta.
  erewrite bind_ok.
  2:{ unfold cache_get. cbn [set_flood_cache flood_cache].
      rewrite lookup_insert_eq. unfold cache_now.
      cbn [set_flood_cache tick env ticks].
      match goal with |- context [?a <? ?a + ttl] =>
        replace (a <? a + ttl) with true
          by (symmetry; apply Z.ltb_lt; pose proof ttl_positive; lia) end.
      reflexivity. }
  cbv beta. reflexivity.
Qed.

(** A text message of a sender who is not muted, in a chat with antiflood
    on: the statistics are updated, the instant of the message joins the
    window, the window is cut to the configured seconds, and its length
    decides between the flood action and the check of the words. *)
Lemma handle_messages_open w update context m txt settings :
  let chat := effective_chat update in
  let user := effective_user update in
  message update = Some m → text m = Some txt → txt ≠ EmptyString →
  mute_of chat user w = None →
  chat_settings (db w) !! chat = Some settings →
  antiflood_enabled settings = true →
  cache_holds (chat, user) w →
  let current := clock (env w) (S (ticks w)) in
  let window :=
    List.filter (λ t, current - t <=? antiflood_seconds settings * second)
                (window_found (chat, user) w ++ [current]) in
  ∃ wf,
    env wf = env w ∧ ticks wf = S (S (ticks w)) ∧ calls wf = calls w ∧
    chat_settings (db wf) = chat_settings (db w) ∧
    muted_users (db wf) = muted_users (db w) ∧
    warnings (db wf) = warnings (db w) ∧
    flood_cache wf !! (chat, user) =
      Some (window, monotonic (env w) (S (S (ticks w))) + ttl) ∧
    handle_messages update context w =
      if antiflood_count settings <? Z.of_nat (length window)
      then try_except (flood_action update m) (λ _, ret tt) wf
      else words_check update context m settings txt wf.
Proof.
  cbv zeta. intros Hm Htxt Hne Hmute Hset Hon (Hfresh & Hlive).
  unfold handle_messages. rewrite Hm, Htxt.
  destruct txt as [|c0 txt0]; [congruence|]. set (txt := String c0 txt0) in *.
  erewrite bind_ok by (rewrite run_is_muted, Hmute; reflexivity). cbv beta iota.
  erewrite bind_ok by apply run_update_user_stats. cbv beta.
  match goal with |- context [set_db ?d (tick w)] => set (wb := set_db d (tick w)) end.
  erewrite bind_ok
    by (unfold get_chat_settings, bind, get_db; cbn [wb set_db db set_user_stats chat_settings];
        rewrite Hset; reflexivity).
  cbv beta zeta. rewrite Hon.
  set (key := (effective_chat update, effective_user update)) in *.
  (* the entry of the key once the handler made sure there is one *)
  assert (Hsure : ∃ wc expires,
    (∀ B (k : M B),
       (known <- cache_contains key ;;
        (if known then ret tt else cache_set key []) ;;; k)%process wb = k wc) ∧
    env wc = env w ∧ ticks wc = S (ticks w) ∧ calls wc = calls w ∧ db wc = db wb ∧
    flood_cache wc !! key = Some (window_found key w, expires) ∧
    monotonic (env w) (S (S (ticks w))) < expires).
  { unfold window_found. destruct (flood_cache w !! key) as [[v expires]|] eqn:Hentry.
    - destruct (Z.ltb_spec (monotonic (env w) (S (ticks w))) expires) as [Hlt|Hge].
      + exists wb, expires. repeat apply conj; try reflexivity; try assumption.
        * intros B k. erewrite bind_ok.
          2:{ unfold cache_contains. cbn [wb set_db flood_cache tick].
              rewrite Hentry. unfold cache_now. cbn [wb set_db tick env ticks].
              apply Z.ltb_lt in Hlt. rewrite Hlt. reflexivity. }
          cbv beta iota. now erewrite bind_ok by reflexivity.
        * now apply Hlive.
      + exists (set_flood_cache
                  (<[key := ([], monotonic (env w) (S (ticks w)) + ttl)]> (flood_cache w)) wb),
               (monotonic (env w) (S (ticks w)) + ttl).
        repeat apply conj; try reflexivity; try assumption.
        * intros B k. erewrite bind_ok.
          2:{ unfold cache_contains. cbn [wb set_db flood_cache tick].
              rewrite Hentry. unfold cache_now. cbn [wb set_db tick env ticks].
              apply Z.ltb_ge in Hge. rewrite Hge. reflexivity. }
          cbv beta iota. now erewrite bind_ok by reflexivity.
        * cbn [set_flood_cache flood_cache]. apply lookup_insert_eq.
    - exists (set_flood_cache
                (<[key := ([], monotonic (env w) (S (ticks w)) + ttl)]> (flood_cache w)) wb),
             (monotonic (env w) (S (ticks w)) + ttl).
      repeat apply conj; try reflexivity; try assumption.
      + intros B k. erewrite bind_ok.
        2:{ unfold cache_contains. cbn [wb set_db flood_cache tick].
            rewrite Hentry. reflexivity. }
        cbv beta iota. now erewrite bind_ok by reflexivity.
      + cbn [set_flood_cache flood_cache]. apply lookup_insert_eq. }
  destruct Hsure as (wc & expires & Hrun & Henv & Hticks & Hcalls & Hdb & Hentry & Hlive').
  rewrite Hrun.
  rewrite (flood_tail _ wc key (window_found key w) expires (antiflood_seconds settings) Hentry)
    by (rewrite Henv, Hticks; exact Hlive').
  rewrite Henv, Hticks.
  eexists. repeat apply conj;
    [..|destruct (antiflood_count settings <? _); reflexivity].
  - exact Henv.
  - cbn [set_flood_cache tick ticks]. now rewrite Hticks.
  - exact Hcalls.
  - cbn [set_flood_cache tick db]. now rewrite Hdb.
  - cbn [set_flood_cache tick db]. now rewrite Hdb.
  - cbn [set_flood_cache tick db]. now rewrite Hdb.
  - cbn [set_flood_cache flood_cache]. apply lookup_insert_eq.
Qed.

Lemma handled_app l1 l2 w : handled (l1 ++ l2) w = handled l2 (handled l1 w).
Proof.
  revert w. induction l1 as [|[u c] l1 IH]; intros w; cbn; [reflexivity | apply IH].
Qed.

Lemma frames_words_check update context m settings txt :
  frames 1 (words_check update context m settings txt).
Proof.
  unfold words_check. change 1%nat with (0 + 1)%nat.
  apply frames_bind; [apply frames_get_bad_words|].
  intros words. apply frames_anti_mat.
Qed.

Lemma filter_all {A} (p : A → bool) (l : list A) :
  Forall (λ x, p x = true) l → List.filter p l = l.
Proof.
  induction 1 as [|x l Hx _ IH]; cbn; [reflexivity|]. now rewrite Hx, IH.
Qed.

(** One more message of a burst: the handler finds the [n] instants of the
    window, adds the instant of the message and keeps them all; the [n + 1]
    instants decide between the flood action and the check of the words. *)
Lemma settled_open chat user readings w0 n w update context settings :
  from_user chat user (update, context) →
  chat_settings (db w0) !! chat = Some settings →
  antiflood_enabled settings = true →
  (ticks w + 3 ≤ ticks w0 + readings)%nat →
  within_seconds w0 readings (antiflood_seconds settings) →
  cache_steady w0 readings →
  settled chat user readings (antiflood_seconds settings) w0 n w →
  ∃ m txt wf v,
    message update = Some m ∧ text m = Some txt ∧
    env wf = env w0 ∧ ticks wf = S (S (ticks w)) ∧ calls wf = calls w ∧
    chat_settings (db wf) = chat_settings (db w0) ∧
    muted_users (db wf) = muted_users (db w) ∧
    warnings (db wf) = warnings (db w) ∧
    flood_cache wf !! (chat, user) =
      Some (v, monotonic (env w0) (S (S (ticks w))) + ttl) ∧
    length v = S n ∧
    Forall (λ t, ∀ j, upcoming w0 readings j →
                      clock (env w0) j - t ≤ antiflood_seconds settings * second) v ∧
    handle_messages update context w =
      if antiflood_count settings <? Z.of_nat (S n)
      then try_except (flood_action update m) (λ _, ret tt) wf
      else words_check update context m settings txt wf.
Proof.
  intros (<- & <- & m & txt & Hm & Htxt & Hne) Hset Hon Hroom Hspan Hsteady
         (Henv & Hsets & Hmute & Hticks & Hcalls & Hwin).
  cbn [fst] in *.
  set (chat := effective_chat update) in *. set (user := effective_user update) in *.
  assert (Hup1 : upcoming w0 readings (S (ticks w))) by (unfold upcoming; lia).
  assert (Hup2 : upcoming w0 readings (S (S (ticks w)))) by (unfold upcoming; lia).
  assert (Hholds : cache_holds (chat, user) w).
  { split.
    - rewrite Henv. specialize (Hsteady _ _ Hup1 Hup2). lia.
    - destruct (flood_cache w !! (chat, user)) as [[v expires]|]; [|exact I].
      destruct Hwin as (_ & _ & Hlive). intros _. rewrite Henv. now apply Hlive. }
  assert (Hset' : chat_settings (db w) !! chat = Some settings) by now rewrite Hsets.
  destruct (handle_messages_open w update context m txt settings
              Hm Htxt Hne Hmute Hset' Hon Hholds)
    as (wf & Henvf & Hticksf & Hcallsf & Hsetsf & Hmutesf & Hwarnsf & Hentry & Hrun).
  fold chat user in Hentry, Hrun.
  (* the window found has n instants, all recent *)
  assert (Hfound : length (window_found (chat, user) w) = n ∧
                   Forall (λ t, ∀ j, upcoming w0 readings j →
                             clock (env w0) j - t ≤ antiflood_seconds settings * second)
                          (window_found (chat, user) w)).
  { unfold window_found.
    destruct (flood_cache w !! (chat, user)) as [[v expires]|].
    - destruct Hwin as (Hlen & Hrecent & Hlive).
      rewrite Henv. specialize (Hlive _ Hup1). apply Z.ltb_lt in Hlive.
      rewrite Hlive. now split.
    - subst n. split; [reflexivity | constructor]. }
  destruct Hfound as [Hlen Hrecent].
  set (current := clock (env w) (S (ticks w))) in *.
  assert (Hcurrent : ∀ j, upcoming w0 readings j →
            clock (env w0) j - current ≤ antiflood_seconds settings * second).
  { intros j Hj. unfold current. rewrite Henv. now apply Hspan. }
  assert (Hkept : List.filter
            (λ t, current - t <=? antiflood_seconds settings * second)
            (window_found (chat, user) w ++ [current]) =
            window_found (chat, user) w ++ [current]).
  { apply filter_all, Forall_app. split.
    - eapply Forall_impl; [exact Hrecent|]. cbv beta. intros t Ht.
      apply Z.leb_le. unfold current. rewrite Henv. now apply Ht.
    - repeat constructor. apply Z.leb_le. unfold current. rewrite Henv.
      now apply Hspan. }
  rewrite Hkept in Hentry, Hrun.
  assert (Hlen' : length (window_found (chat, user) w ++ [current]) = S n)
    by (rewrite length_app, Hlen; cbn; lia).
  rewrite Hlen' in Hrun. rewrite Henv in Hentry.
  exists m, txt, wf, (window_found (chat, user) w ++ [current]).
  repeat apply conj; try assumption; try congruence.
  apply Forall_app. split; [exact Hrecent | repeat constructor; exact Hcurrent].
Qed.

(** One more message of the burst, while the window stays within the
    threshold: the message is no flood. *)
Lemma settled_next chat user readings w0 n w update context settings :
  from_user chat user (update, context) →
  chat_settings (db w0) !! chat = Some settings →
  antiflood_enabled settings = true →
  Z.of_nat (S n) ≤ antiflood_count settings →
  (3 * n + 3 ≤ readings)%nat →
  within_seconds w0 readings (antiflood_seconds settings) →
  cache_steady w0 readings →
  settled chat user readings (antiflood_seconds settings) w0 n w →
  settled chat user readings (antiflood_seconds settings) w0 (S n)
          (snd (handle_messages update context w)).
Proof.
  intros Hfrom Hset Hon Hcount Hroom Hspan Hsteady Hsettled.
  pose proof Hsettled as (Henv & Hsets & Hmute & Hticks & Hcalls & _).
  destruct (settled_open chat user readings w0 n w update context settings
              Hfrom Hset Hon ltac:(lia) Hspan Hsteady Hsettled)
    as (m & txt & wf & v & Hm & Htxt & Henvf & Hticksf & Hcallsf & Hsetsf & Hmutesf
        & _ & Hentry & Hlen & Hrecent & Hrun).
  destruct (Z.ltb_spec (antiflood_count settings) (Z.of_nat (S n))) as [Hover|_];
    [lia|].
  rewrite Hrun.
  destruct (frames_words_check update context m settings txt wf)
    as (Henv' & Hsets' & Hmutes' & Hcache' & Hticks' & new & Hcalls' & Hnew).
  set (w' := snd (words_check update context m settings txt wf)) in *.
  repeat apply conj.
  - congruence.
  - congruence.
  - unfold mute_of in *. rewrite Hmutes', Hmutesf. exact Hmute.
  - lia.
  - lia.
  - destruct Hcalls as (old & Hold & Hquiet). exists (old ++ new). split.
    + now rewrite Hcalls', Hcallsf, Hold, app_assoc.
    + now apply Forall_app.
  - rewrite Hcache', Hentry. repeat apply conj.
    + exact Hlen.
    + exact Hrecent.
    + intros j Hj.
      assert (Hup2 : upcoming w0 readings (S (S (ticks w)))) by (unfold upcoming; lia).
      specialize (Hsteady _ _ Hup2 Hj). lia.
Qed.

(** A burst that stays within the threshold takes no flood action. *)
Lemma settled_run chat user readings w0 l settings :
  Forall (from_user chat user) l →
  chat_settings (db w0) !! chat = Some settings →
  antiflood_enabled settings = true →
  Z.of_nat (length l) ≤ antiflood_count settings →
  (3 * length l ≤ readings)%nat →
  within_seconds w0 readings (antiflood_seconds settings) →
  cache_steady w0 readings →
  mute_of chat user w0 = None →
  flood_cache w0 !! (chat, user) = None →
  settled chat user readings (antiflood_seconds settings) w0 (length l) (handled l w0).
Proof.
  intros Hl Hset Hon Hcount Hroom Hspan Hsteady Hmute Hcache.
  induction l as [|[update context] l IH] using rev_ind.
  - cbn. repeat apply conj; try reflexivity; try assumption; try lia.
    + exists []. split; [now rewrite app_nil_r | constructor].
    + now rewrite Hcache.
  - apply Forall_app in Hl as [Hl Hlast]. rewrite length_app in *. cbn [length] in *.
    rewrite handled_app. cbn [handled].
    replace (length l + 1)%nat with (S (length l)) by lia.
    eapply settled_next; try eassumption; try lia.
    + now inversion Hlast.
    + apply IH; [assumption | lia | lia].
Qed.

(** The flood action on a platform that accepts the calls, away from the end
    of the calendar: the message is deleted, the member is restricted for
    five minutes and a mute of 300 seconds is stored. *)
Lemma flood_action_run wf update m :
  cooperative (env wf) →
  0 ≤ clock (env wf) (ticks wf) + 300 * second ≤ datetime_max →
  0 ≤ clock (env wf) (S (ticks wf)) + 300 * second ≤ datetime_max →
  let chat := effective_chat update in
  let user := effective_user update in
  ∃ w', try_except (flood_action update m) (λ _, ret tt) wf = (Ok tt, w') ∧
    calls w' = calls wf ++
      [DeleteMessage chat (message_id m);
       RestrictMember chat user (Utils.only_send_messages false)
                      (Some (clock (env wf) (ticks wf) + 300 * second));
       SendMessage chat MutedForFlood] ∧
    mute_of chat user w' = Some (clock (env wf) (S (ticks wf)) + 300 * second) ∧
    warnings (db w') = warnings (db wf).
Proof.
  intros Hcoop Hcal1 Hcal2. cbv zeta.
  assert (Hbody : ∃ w', flood_action update m wf = (Ok tt, w') ∧
    calls w' = calls wf ++
      [DeleteMessage (effective_chat update) (message_id m);
       RestrictMember (effective_chat update) (effective_user update)
                      (Utils.only_send_messages false)
                      (Some (clock (env wf) (ticks wf) + 300 * second));
       SendMessage (effective_chat update) MutedForFlood] ∧
    mute_of (effective_chat update) (effective_user update) w' =
      Some (clock (env wf) (S (ticks wf)) + 300 * second) ∧
    warnings (db w') = warnings (db wf)).
  { unfold flood_action.
    erewrite bind_ok by (unfold delete; apply run_api_cooperative, Hcoop). cbv beta.
    erewrite bind_ok by reflexivity. cbv beta.
    erewrite bind_ok.
    2:{ unfold lift. cbn [record env ticks]. now rewrite datetime_add_ok. }
    cbv beta.
    erewrite bind_ok by (apply run_api_cooperative, Hcoop). cbv beta.
    erewrite bind_ok.
    2:{ rewrite run_add_mute, timedelta_ok by (vm_compute; discriminate).
        unfold now. cbn [record tick env ticks].
        now rewrite datetime_add_ok. }
    cbv beta. rewrite run_api_cooperative by exact Hcoop.
    eexists. split; [reflexivity|]. repeat apply conj.
    - cbn [calls record tick set_db]. now rewrite <- !app_assoc.
    - unfold mute_of. cbn [db record tick set_db set_muted_users muted_users].
      apply lookup_insert_eq.
    - reflexivity. }
  destruct Hbody as (w' & Hrun & Hrest). exists w'. split; [|exact Hrest].
  unfold try_except. now rewrite Hrun.
Qed.

(** The message that takes the window over the threshold is a flood. *)
Lemma settled_flood chat user readings w0 n w update context settings :
  from_user chat user (update, context) →
  chat_settings (db w0) !! chat = Some settings →
  antiflood_enabled settings = true →
  antiflood_count settings < Z.of_nat (S n) →
  (3 * n + 4 ≤ readings)%nat →
  within_seconds w0 readings (antiflood_seconds settings) →
  cache_steady w0 readings →
  calendar_ok w0 readings 300 →
  cooperative (env w0) →
  settled chat user readings (antiflood_seconds settings) w0 n w →
  ∃ m, message update = Some m ∧
    let w' := snd (handle_messages update context w) in
    fst (handle_messages update context w) = Ok tt ∧
    calls w' = calls w ++
      [DeleteMessage chat (message_id m);
       RestrictMember chat user (Utils.only_send_messages false)
                      (Some (clock (env w0) (ticks w + 2) + 300 * second));
       SendMessage chat MutedForFlood] ∧
    mute_of chat user w' = Some (clock (env w0) (ticks w + 3) + 300 * second) ∧
    warnings (db w') = warnings (db w).
Proof.
  intros Hfrom Hset Hon Hcount Hroom Hspan Hsteady Hcal Hcoop Hsettled.
  pose proof Hsettled as (Henv & Hsets & Hmute & Hticks & Hcalls & _).
  pose proof Hfrom as (Hchat & Huser & _). cbn [fst] in Hchat, Huser.
  destruct (settled_open chat user readings w0 n w update context settings
              Hfrom Hset Hon ltac:(lia) Hspan Hsteady Hsettled)
    as (m & txt & wf & v & Hm & Htxt & Henvf & Hticksf & Hcallsf & Hsetsf & Hmutesf
        & Hwarnsf & Hentry & Hlen & Hrecent & Hrun).
  destruct (Z.ltb_spec (antiflood_count settings) (Z.of_nat (S n))) as [_|Hunder];
    [|lia].
  destruct (flood_action_run wf update m) as (w' & Haction & Hcalls' & Hmute' & Hwarns').
  - now rewrite Henvf.
  - rewrite Henvf, Hticksf. apply Hcal. unfold upcoming. lia.
  - rewrite Henvf, Hticksf. apply Hcal. unfold upcoming. lia.
  - exists m. split; [exact Hm|]. cbv zeta. rewrite Hrun, Haction. cbn [fst snd].
    rewrite Hchat, Huser, Henvf, Hticksf in *.
    replace (ticks w + 2)%nat with (S (S (ticks w))) by lia.
    replace (ticks w + 3)%nat with (S (S (S (ticks w)))) by lia.
    repeat apply conj; [reflexivity | congruence | exact Hmute' | congruence].
Qed.

(** A chat that has a row of settings with antiflood on, the threshold 5
    and the window of 10 seconds, and six text messages of a user who is not
    muted and has no window yet, while the next 24 readings of the clock all
    fall within 10 seconds.  After each of the first five no mute is stored
    and no call restricting a member was issued.  The sixth, on a platform
    that accepts the calls, is deleted, the user is restricted for 300
    seconds and a mute of 300 seconds is stored (the settings of the chat
    have no say in the 300), the three calls being all that the sixth
    message causes; no warning is added. *)
Theorem flood_on_sixth_message w l settings chat user :
  length l = 6%nat →
  Forall (from_user chat user) l →
  chat_settings (db w) !! chat = Some settings →
  antiflood_enabled settings = true →
  antiflood_count settings = 5 →
  antiflood_seconds settings = 10 →
  mute_of chat user w = None →
  flood_cache w !! (chat, user) = None →
  within_seconds w (readings_of 6) 10 →
  cache_steady w (readings_of 6) →
  (∀ n, (n ≤ 5)%nat →
     let wn := handled (take n l) w in
     mute_of chat user wn = None ∧ no_restrict_since w wn) ∧
  (cooperative (env w) → calendar_ok w (readings_of 6) 300 →
   ∃ update context m,
     l = take 5 l ++ [(update, context)] ∧ message update = Some m ∧
     let w5 := handled (take 5 l) w in
     let w6 := handled l w in
     calls w6 = calls w5 ++
       [DeleteMessage chat (message_id m);
        RestrictMember chat user (Utils.only_send_messages false)
                       (Some (clock (env w) (ticks w5 + 2) + 300 * second));
        SendMessage chat MutedForFlood] ∧
     mute_of chat user w6 = Some (clock (env w) (ticks w5 + 3) + 300 * second) ∧
     warnings (db w6) = warnings (db w5)).
Proof.
  intros Hlen Hl Hset Hon Hcount Hsecs Hmute Hcache Hspan Hsteady.
  rewrite <- Hsecs in Hspan.
  assert (Hrun : ∀ n, (n ≤ 5)%nat →
            settled chat user (readings_of 6) (antiflood_seconds settings) w n
                    (handled (take n l) w)).
  { intros n Hn.
    assert (Hn' : length (take n l) = n) by (rewrite length_take; lia).
    rewrite <- Hn' at 1.
    apply settled_run; try assumption.
    - now apply Forall_take.
    - rewrite Hn'. lia.
    - rewrite Hn'. unfold readings_of. lia. }
  split.
  - intros n Hn. cbv zeta. destruct (Hrun n Hn) as (_ & _ & Hm & _ & Hr & _).
    now split.
  - intros Hcoop Hcal.
    assert (Hsplit : l = take 5 l ++ drop 5 l) by now rewrite take_drop.
    destruct (drop 5 l) as [|[update context] [|? ?]] eqn:Hdrop;
      try (apply (f_equal length) in Hdrop; rewrite length_drop in Hdrop;
           cbn in Hdrop; lia).
    assert (Hfrom : from_user chat user (update, context)).
    { rewrite Hsplit in Hl. apply Forall_app in Hl as [_ Hlast]. now inversion Hlast. }
    destruct (settled_flood chat user (readings_of 6) w 5 (handled (take 5 l) w)
                update context settings Hfrom Hset Hon)
      as (m & Hm & Hflood); try assumption.
    + lia.
    + unfold readings_of. lia.
    + now apply Hrun.
    + exists update, context, m. split; [exact Hsplit|]. split; [exact Hm|].
      cbv zeta in Hflood |- *. destruct Hflood as (_ & Hcalls & Hmuted & Hwarns).
      assert (Hw6 : handled l w =
                snd (handle_messages update context (handled (take 5 l) w)))
        by (rewrite Hsplit at 1; now rewrite handled_app).
      rewrite Hw6. exact (conj Hcalls (conj Hmuted Hwarns)).
Qed.

(** ** The handler of text messages deletes no warning *)

Lemma grows_refl w : grows w w.
Proof. exists []. now rewrite app_nil_r. Qed.

Lemma grows_trans w1 w2 w3 : grows w1 w2 → grows w2 w3 → grows w1 w3.
Proof.
  intros [a1 H1] [a2 H2]. exists (a1 ++ a2). now rewrite H2, H1, app_assoc.
Qed.

(** A computation that leaves the table of warnings as it is. *)
Lemma growing_same {A} (m : M A) :
  (∀ w, warnings (db (snd (m w))) = warnings (db w)) → growing m.
Proof. intros H w. exists []. now rewrite app_nil_r. Qed.

Lemma growing_bind {A B} (m : M A) (f : A → M B) :
  growing m → (∀ a, growing (f a)) → growing (bind m f).
Proof.
  intros Hm Hf w. unfold bind. specialize (Hm w).
  destruct (m w) as [[a|e] w1]; cbn [snd] in *; [|exact Hm].
  eapply grows_trans; [exact Hm | apply Hf].
Qed.

Lemma growing_try_except {A} (body : M A) (handler : exn → M A) :
  growing body → (∀ e, growing (handler e)) → growing (try_except body handler).
Proof.
  intros Hm Hf w. unfold try_except. specialize (Hm w).
  destruct (body w) as [[a|e] w1]; cbn [snd] in *; [exact Hm|].
  eapply grows_trans; [exact Hm | apply Hf].
Qed.

Lemma growing_ret {A} (a : A) : growing (ret a).
Proof. now apply growing_same. Qed.

Lemma growing_lift {A} (r : result A) : growing (lift r).
Proof. now apply growing_same. Qed.

Lemma growing_api c : growing (api c).
Proof. apply growing_same. intros w. now rewrite run_api. Qed.

Lemma growing_datetime_now : growing datetime_now.
Proof. now apply growing_same. Qed.

Lemma growing_add_warning chat user by_user why :
  growing (add_warning chat user by_user why).
Proof.
  intros w. rewrite run_add_warning. destruct (collides _ _ _ _).
  - exists []. cbn. now rewrite app_nil_r.
  - eexists. reflexivity.
Qed.

Lemma growing_add_mute chat user d : growing (add_mute chat user d).
Proof.
  apply growing_same. intros w. rewrite run_add_mute.
  destruct (timedelta d); [|reflexivity]. destruct (datetime_add _ _); reflexivity.
Qed.

Lemma growing_is_muted chat user : growing (is_muted chat user).
Proof.
  apply growing_same. intros w. rewrite run_is_muted.
  destruct (mute_of chat user w); [|reflexivity]. destruct (_ <? _); reflexivity.
Qed.

Lemma growing_anti_mat update context m settings text_lower words :
  growing (anti_mat update context m settings text_lower words).
Proof.
  induction words as [|word rest IH]; cbn [anti_mat]; [apply growing_ret|].
  destruct (contains _ _); [|exact IH].
  apply growing_try_except; [|intros; apply growing_ret].
  apply growing_bind; [apply growing_api|]. intros _.
  apply growing_bind; [apply growing_add_warning|]. intros warn_count.
  apply growing_bind; [apply growing_api|]. intros _.
  destruct (_ <=? _); [|apply growing_ret].
  apply growing_bind; [apply growing_api|]. intros _. apply growing_api.
Qed.

Lemma growing_handle_messages update context : growing (handle_messages update context).
Proof.
  unfold handle_messages. destruct (message update) as [m|]; [|apply growing_ret].
  destruct (text m) as [[|c txt]|]; try apply growing_ret.
  apply growing_bind; [apply growing_is_muted|]. intros [|].
  { apply growing_try_except; [apply growing_api | intros; apply growing_ret]. }
  apply growing_bind; [now apply growing_same|]. intros _.
  apply growing_bind.
  { apply growing_same. intros w. unfold get_chat_settings, bind, get_db.
    now destruct (chat_settings (db w) !! _). }
  intros settings. cbv zeta.
  assert (Hwords : growing
            (bind (get_bad_words (effective_chat update))
                  (λ bad_words, anti_mat update context m settings
                                  (Utils.lower (String c txt)) bad_words))).
  { apply growing_bind; [|intros; apply growing_anti_mat].
    apply growing_same. intros w. unfold get_bad_words, bind, get_db.
    now destruct (chat_settings (db w) !! _). }
  destruct (antiflood_enabled settings); [|exact Hwords].
  apply growing_bind.
  { apply growing_same. intros w. unfold cache_contains.
    now destruct (flood_cache w !! _) as [[]|]. }
  intros known. apply growing_bind.
  { destruct known; now apply growing_same. }
  intros _. apply growing_bind; [apply growing_datetime_now|]. intros current_time.
  apply growing_bind.
  { apply growing_same. intros w. unfold cache_append.
    destruct (flood_cache w !! _) as [[]|]; [|reflexivity].
    now destruct (_ <? _). }
  intros _. apply growing_bind.
  { apply growing_same. intros w. unfold cache_get.
    destruct (flood_cache w !! _) as [[]|]; [|reflexivity].
    now destruct (_ <? _). }
  intros window. apply growing_bind; [now apply growing_same|]. intros _.
  apply growing_bind.
  { apply growing_same. intros w. unfold cache_get.
    destruct (flood_cache w !! _) as [[]|]; [|reflexivity].
    now destruct (_ <? _). }
  intros window'. destruct (_ <? _); [|exact Hwords].
  apply growing_try_except; [|intros; apply growing_ret].
  apply growing_bind; [apply growing_api|]. intros _.
  apply growing_bind; [apply growing_datetime_now|]. intros t.
  apply growing_bind; [apply growing_lift|]. intros mute_until.
  apply growing_bind; [apply growing_api|]. intros _.
  apply growing_bind; [apply growing_add_mute|]. intros _. apply growing_api.
Qed.

(** In every run, whatever the limit and whatever the platform answers, the
    handler of text messages leaves the count of warnings of a user at least
    as high as it found it: the ban of the word filter resets nothing. *)
Lemma handle_messages_keeps_warnings update context w chat user :
  warning_count chat user w ≤
  warning_count chat user (snd (handle_messages update context w)).
Proof.
  destruct (growing_handle_messages update context w) as [added Hadded].
  unfold warning_count. rewrite Hadded, List.filter_app, length_app. lia.
Qed.

(** ** The theorems at work on the sample worlds *)

Lemma sample_increasing : increasing_clock (env sample_world).
Proof. intros i j Hij. cbn. lia. Qed.

Lemma sample_well_formed : well_formed (db sample_world).
Proof. repeat split; cbn; constructor. Qed.

Lemma warn_limit_ban_and_reset_witness :
  let warn := (sample_command, sample_context ["spam"]) in
  warning_count 1 9 (warned [warn; warn] sample_world) = 2 ∧
  warning_count 1 9 (warned [warn; warn; warn] sample_world) = 0 ∧
  ∃ rest,
    calls (warned [warn; warn; warn] sample_world) =
    calls (warned [warn; warn] sample_world) ++ BanMember 1 9 :: rest.
Proof.
  cbv zeta.
  assert (Hold : older_than_clock 1 9 sample_world) by (intros r []).
  assert (Hall : Forall (warns 1 9 sample_world)
                   ([(sample_command, sample_context ["spam"]);
                     (sample_command, sample_context ["spam"])] ++
                    [(sample_command, sample_context ["spam"])])).
  { repeat constructor; eexists; split; reflexivity. }
  pose proof (warn_limit_ban_and_reset sample_world _ _ _ 1 9 sample_settings
                Hall eq_refl sample_increasing Hold) as H.
  cbv zeta in H. destruct H as ((Hcount & _) & _ & Hban); [reflexivity|].
  destruct Hban as (Hcalls & Hzero); [vm_compute; discriminate | reflexivity |].
  exact (conj Hcount (conj Hzero Hcalls)).
Defined.

Lemma is_muted_lazy_expiry_witness :
  fst (is_muted 1 9 (muted_until 9000)) = Ok true ∧
  fst (is_muted 1 9 (muted_until 5000)) = Ok false ∧
  mute_of 1 9 (snd (is_muted 1 9 (muted_until 5000))) = None ∧
  is_muted 1 9 sample_world = (Ok false, sample_world).
Proof.
  destruct (is_muted_lazy_expiry (muted_until 9000) 1 9) as (_ & Hactive & _).
  destruct (is_muted_lazy_expiry (muted_until 5000) 1 9) as (_ & _ & Hexpired).
  destruct (is_muted_lazy_expiry sample_world 1 9) as (Habsent & _).
  destruct (Hactive 9000) as [Htrue _]; [reflexivity | reflexivity |].
  destruct (Hexpired 5000) as (Hfalse & Hgone & _);
    [reflexivity | vm_compute; discriminate |].
  exact (conj Htrue (conj Hfalse (conj Hgone (Habsent eq_refl)))).
Defined.

Lemma muted_sender_is_dropped_witness :
  calls (snd (handle_messages (sample_message "hello") (sample_context [])
                              (muted_until 9000))) = [DeleteMessage 1 200] ∧
  db (snd (handle_messages (sample_message "hello") (sample_context [])
                           (muted_until 9000))) = db (muted_until 9000).
Proof.
  destruct (muted_sender_is_dropped (muted_until 9000) (sample_message "hello")
              (sample_context []) _ "hello" eq_refl eq_refl) as (_ & Hcalls & Hdb & _);
    [discriminate | reflexivity |].
  exact (conj Hcalls Hdb).
Defined.


Lemma user_stats_history_witness :
  (∃ r, stats_of 1 9 (snd (update_user_stats 1 9
                             (snd (update_user_stats 1 9 sample_world)))) = Some r ∧
        messages_count r = 2 ∧ first_seen r = 0 ∧ last_seen r = 1000 ∧
        first_seen r ≤ last_seen r) ∧
  (∃ r, stats_of 1 9 (snd (update_user_stats 1 9
                             (snd (update_user_stats 1 9 set_back_world)))) = Some r ∧
        messages_count r = 2 ∧ first_seen r = 3 * hour ∧ last_seen r = 2 * hour).
Proof.
  assert (Hmono : monotone_clock (env sample_world)) by (intros i j Hij; cbn; lia).
  split.
  - destruct (user_stats_history 1 9 sample_world _ _ eq_refl
                (history_update 1 9 sample_world _ _
                   (history_update 1 9 sample_world _ _ (history_start 1 9 sample_world))))
      as (r & Hrow & Hcount & Hfirst & Hlast & Hord).
    exists r. exact (conj Hrow (conj Hcount (conj Hfirst (conj Hlast (Hord Hmono))))).
  - destruct (user_stats_history 1 9 set_back_world _ _ eq_refl
                (history_update 1 9 set_back_world _ _
                   (history_update 1 9 set_back_world _ _
                      (history_start 1 9 set_back_world))))
      as (r & Hrow & Hcount & Hfirst & Hlast & _).
    exists r. exact (conj Hrow (conj Hcount (conj Hfirst Hlast))).
Defined.

Lemma flood_on_sixth_message_witness :
  mute_of 1 9 (handled (take 5 six_messages) sample_world) = None ∧
  ∃ t, mute_of 1 9 (handled six_messages sample_world) = Some (t + 300 * second).
Proof.
  assert (Hfrom : Forall (from_user 1 9) six_messages).
  { repeat constructor; cbn; eexists _, _; repeat split; discriminate. }
  assert (Hspan : within_seconds sample_world (readings_of 6) 10).
  { intros i j Hi Hj. unfold upcoming in *. cbn in *. unfold second. lia. }
  assert (Hsteady : cache_steady sample_world (readings_of 6)).
  { intros i j Hi Hj. unfold upcoming in *. cbn in *. unfold ttl, second. lia. }
  assert (Hcal : calendar_ok sample_world (readings_of 6) 300).
  { intros k Hk. unfold upcoming in *. cbn in *. unfold datetime_max, second. lia. }
  destruct (flood_on_sixth_message sample_world six_messages sample_settings 1 9
              eq_refl Hfrom eq_refl eq_refl eq_refl eq_refl eq_refl eq_refl
              Hspan Hsteady) as [Hquiet Hflood].
  destruct (Hquiet 5%nat (le_n 5)) as [Hnone _].
  destruct (Hflood sample_cooperative Hcal) as (u & c & m & _ & _ & _ & Hmuted & _).
  split; [exact Hnone | eexists; exact Hmuted].
Defined.

End Handlers.

(* ===================================================================== *)
(** * More on the time parser and on the shown durations *)
(* ===================================================================== *)

Section Durations.
Import Utils Notions.

Lemma digit_value_range c : is_digit c = true → 0 ≤ digit_value c ≤ 9.
Proof.
  destruct c as [[] [] [] [] [] [] [] []]; vm_compute; intros H;
    try discriminate H; split; discriminate.
Qed.

Lemma int_from_nonneg acc ds :
  digits ds = true → 0 ≤ acc → 0 ≤ int_from acc ds.
Proof.
  revert acc. induction ds as [|c ds IH]; intros acc Hds Hacc; simpl; [exact Hacc|].
  simpl in Hds. apply andb_prop in Hds as [Hc Hds].
  apply IH; [exact Hds|]. pose proof (digit_value_range c Hc). lia.
Qed.

Lemma multiplier_positive u : unit_letter u → 0 < multiplier u.
Proof.
  unfold unit_letter. cbn [In].
  intros H; repeat (destruct H as [<- | H]; [reflexivity|]). destruct H.
Qed.

(** X1: the parser never returns a negative number of seconds: whatever the
    string, a value that it returns is 0 or more. *)
Theorem parse_time_nonnegative s v :
  parse_time s = Some v → 0 ≤ v.
Proof.
  intros Hv. destruct (parse_time_some_inv s v Hv) as (ds & u & rest & Hne & Hds & Hu & ->).
  rewrite parse_time_prefix_value in Hv by assumption. injection Hv as <-.
  apply Z.mul_nonneg_nonneg.
  - now apply int_from_nonneg.
  - pose proof (multiplier_positive u Hu). lia.
Qed.

Lemma parse_time_nonnegative_witness : 0 ≤ 600.
Proof. exact (parse_time_nonnegative "10m" 600 eq_refl). Defined.

Lemma lower_char_idempotent c : lower_char (lower_char c) = lower_char c.
Proof. destruct c as [[] [] [] [] [] [] [] []]; reflexivity. Qed.

Lemma lower_idempotent s : lower (lower s) = lower s.
Proof.
  induction s as [|c s IH]; simpl; [reflexivity|].
  now rewrite lower_char_idempotent, IH.
Qed.

(** X2: the parser does not tell the cases of letters apart, anywhere in the
    string: a string and its lower-case form get the same answer. *)
Theorem parse_time_ignores_case s :
  parse_time (lower s) = parse_time s.
Proof.
  destruct s as [|c s]; [reflexivity|].
  unfold parse_time. cbn [lower]. fold (lower (String c s)).
  change (String (lower_char (lower_char c)) (lower (lower s)))
    with (lower (lower (String c s))).
  now rewrite lower_idempotent.
Qed.

(** X3: [format_time] rounds down to the largest unit that fits.  For a
    number of seconds that is not negative, the number shown is within the
    range of its unit (seconds and minutes below 60, hours below 24, and at
    least 1 above seconds), and the seconds lie between the number shown and
    the next one, in that unit. *)
Theorem format_time_rounds_down seconds :
  0 ≤ seconds →
  match format_time seconds with
  | Sec n => n = seconds ∧ 0 ≤ n < 60
  | Min n => 1 ≤ n < 60 ∧ 60 * n ≤ seconds < 60 * (n + 1)
  | Hours n => 1 ≤ n < 24 ∧ 3600 * n ≤ seconds < 3600 * (n + 1)
  | Days n => 1 ≤ n ∧ 86400 * n ≤ seconds < 86400 * (n + 1)
  end.
Proof.
  intros Hs. unfold format_time.
  destruct (Z.ltb_spec seconds 60); [lia|].
  destruct (Z.ltb_spec seconds 3600).
  { pose proof (Z.div_mod seconds 60 ltac:(lia)).
    pose proof (Z.mod_pos_bound seconds 60 ltac:(lia)). lia. }
  destruct (Z.ltb_spec seconds 86400).
  { pose proof (Z.div_mod seconds 3600 ltac:(lia)).
    pose proof (Z.mod_pos_bound seconds 3600 ltac:(lia)). lia. }
  pose proof (Z.div_mod seconds 86400 ltac:(lia)).
  pose proof (Z.mod_pos_bound seconds 86400 ltac:(lia)). lia.
Qed.

Lemma format_time_rounds_down_witness :
  match format_time 5400 with
  | Sec n => n = 5400 ∧ 0 ≤ n < 60
  | Min n => 1 ≤ n < 60 ∧ 60 * n ≤ 5400 < 60 * (n + 1)
  | Hours n => 1 ≤ n < 24 ∧ 3600 * n ≤ 5400 < 3600 * (n + 1)
  | Days n => 1 ≤ n ∧ 86400 * n ≤ 5400 < 86400 * (n + 1)
  end.
Proof. apply (format_time_rounds_down 5400). lia. Defined.

(** X4: [parse_time], then [format_time].  A token <digits><unit> whose
    number is within the range of its unit (0 to 59 seconds, 1 to 59
    minutes, 1 to 23 hours, 1 day or more) parses to a value that
    [format_time] shows as that same number of that same unit. *)
Theorem format_time_echoes_token ds u :
  ds ≠ EmptyString → digits ds = true → unit_letter u →
  (if Ascii.eqb u "s" || Ascii.eqb u "S" then 0 else 1) ≤ int ds →
  match unit_range u with Some r => int ds < r | None => True end →
  ∃ v, parse_time (ds +:+ String u EmptyString) = Some v ∧
       format_time v = unit_text u (int ds).
Proof.
  intros Hne Hds Hu Hlow Hhigh.
  rewrite parse_time_prefix_value by assumption. eexists. split; [reflexivity|].
  unfold unit_letter in Hu. cbn [In] in Hu. unfold format_time.
  repeat (destruct Hu as [<- | Hu];
    [cbn in Hlow, Hhigh |- *;
     repeat match goal with
            | |- context [?a <? ?b] => destruct (Z.ltb_spec a b); try lia
            end;
     try reflexivity; f_equal; try (symmetry; apply Z.div_unique_exact; lia);
     try (rewrite Z.mul_comm, Z.div_mul by lia; reflexivity); try lia|]).
  destruct Hu.
Qed.

Lemma format_time_echoes_token_witness :
  ∃ v, parse_time "45m" = Some v ∧ format_time v = Min 45.
Proof.
  apply (format_time_echoes_token "45" "m");
    [discriminate | reflexivity | unfold unit_letter; simpl; tauto
    | vm_compute; discriminate | reflexivity].
Defined.

End Durations.

(* ===================================================================== *)
(** * More on the store *)
(* ===================================================================== *)

Section StoreExtras.
Import Process Database Notions.

Lemma filter_other_user chat user chat' user' (r : warning_row) :
  (chat', user') ≠ (chat, user) → of_user chat user r = true →
  of_user chat' user' r = false.
Proof.
  intros Hne [Hc Hu]%of_user_true. apply not_true_iff_false.
  intros [Hc' Hu']%of_user_true. apply Hne. congruence.
Qed.

(** X5: [add_warning] at an instant that no stored warning of the user has:
    the count of the user grows by one and is what the method returns; the
    counts of all other users and chats, the mutes, the statistics and the
    settings stay.  At an instant that a stored warning of the user has, the
    method raises [IntegrityError] and the database stays as it was. *)
Theorem add_warning_counts w chat user by_user why :
  let w' := snd (add_warning chat user by_user why w) in
  (collides chat user (now w) (warnings (db w)) = false →
     fst (add_warning chat user by_user why w) = Ok (warning_count chat user w + 1) ∧
     warning_count chat user w' = warning_count chat user w + 1 ∧
     (∀ chat' user', (chat', user') ≠ (chat, user) →
        warning_count chat' user' w' = warning_count chat' user' w) ∧
     muted_users (db w') = muted_users (db w) ∧
     user_stats (db w') = user_stats (db w) ∧
     chat_settings (db w') = chat_settings (db w)) ∧
  (collides chat user (now w) (warnings (db w)) = true →
     fst (add_warning chat user by_user why w) = Raise IntegrityError ∧
     db w' = db w).
Proof.
  cbv zeta. rewrite run_add_warning. split; intros Hc; rewrite Hc; cbn [fst snd].
  - repeat apply conj; try reflexivity.
    + unfold warning_count. cbn [db set_db warnings set_warnings tick].
      rewrite List.filter_app, length_app. cbn [List.filter].
      unfold of_user at 2. cbn [chat_id user_id]. rewrite !Z.eqb_refl.
      cbn [andb length]. lia.
    + intros chat' user' Hne. unfold warning_count.
      cbn [db set_db warnings set_warnings tick].
      rewrite List.filter_app, length_app. cbn [List.filter].
      rewrite (filter_other_user chat user chat' user'); [cbn; lia | exact Hne |].
      apply of_user_true. split; reflexivity.
  - split; reflexivity.
Qed.

Lemma add_warning_counts_witness :
  fst (add_warning 1 9 7 "first" sample_world) = Ok 1 ∧
  warning_count 1 8 (snd (add_warning 1 9 7 "first" sample_world)) = 0.
Proof.
  destruct (add_warning_counts sample_world 1 9 7 "first") as [Hfree _].
  destruct (Hfree eq_refl) as (Hret & _ & Hother & _).
  split; [exact Hret|]. rewrite (Hother 1 8); [reflexivity | congruence].
Defined.

(** Among rows whose [id] is at most [seq], deleting the id [seq + 1] deletes
    nothing. *)
Lemma filter_keeps_older (l : list warning_row) seq :
  Forall (λ r, id r ≤ seq) l →
  List.filter (λ x, negb (id x =? seq + 1)) l = l.
Proof.
  induction 1 as [|r l Hr _ IH]; cbn; [reflexivity|].
  destruct (Z.eqb_spec (id r) (seq + 1)); [lia|]. cbn. now rewrite IH.
Qed.

(** X6: [remove_warning] undoes the [add_warning] made just before for the
    same user: on a table that satisfies the constraints of the schema and
    whose warnings of the user are older than the clock, adding a warning and
    removing one leaves the rows of the table as they were, and the count
    returned is the count before the two calls. *)
Theorem remove_warning_undoes_add w chat user by_user why :
  well_formed (db w) → older_than_clock chat user w →
  let w1 := snd (add_warning chat user by_user why w) in
  warnings (db (snd (remove_warning chat user w1))) = warnings (db w) ∧
  fst (remove_warning chat user w1) = Ok (warning_count chat user w).
Proof.
  intros (Hid & Hseq & Huniq) Hold. cbv zeta.
  rewrite run_add_warning, (collides_fresh _ _ _ Hold). cbn [snd].
  set (new := {| id := sqlite_sequence (db w) + 1; chat_id := chat; user_id := user;
                 warned_by := by_user; reason := why; created_at := now w |}).
  rewrite run_remove_warning. cbn [db set_db warnings set_warnings tick].
  destruct (select_latest chat user (warnings (db w) ++ [new])) as [r|] eqn:Hsel.
  2:{ apply select_latest_none in Hsel. rewrite List.filter_app in Hsel.
      cbn [List.filter] in Hsel. unfold of_user at 2 in Hsel.
      cbn [new chat_id user_id] in Hsel. rewrite !Z.eqb_refl in Hsel.
      now destruct (List.filter _ (warnings (db w))). }
  apply select_latest_some in Hsel as (Hin & Hr & Hmax).
  assert (Hnew : r = new).
  { apply in_app_or in Hin as [Hin | [<- | []]]; [|reflexivity].
    specialize (Hold r Hin Hr).
    assert (created_at new ≤ created_at r).
    { apply Hmax; [apply in_or_app; right; now left|].
      apply of_user_true. split; reflexivity. }
    cbn [new created_at] in *. lia. }
  subst r. cbn zeta. cbn [fst snd db set_db warnings set_warnings].
  assert (Hfilter : List.filter (λ x, negb (id x =? id new)) (warnings (db w) ++ [new]) =
                    warnings (db w)).
  { rewrite List.filter_app. cbn [List.filter new id]. rewrite Z.eqb_refl. cbn [negb].
    rewrite app_nil_r. now apply filter_keeps_older. }
  split; [exact Hfilter|].
  unfold warning_count. cbn [db set_db warnings set_warnings]. now rewrite Hfilter.
Qed.

Lemma remove_warning_undoes_add_witness :
  warnings (db (snd (remove_warning 1 9
                       (snd (add_warning 1 9 7 "first" sample_world))))) = [] ∧
  fst (remove_warning 1 9 (snd (add_warning 1 9 7 "first" sample_world))) = Ok 0.
Proof.
  assert (Hold : older_than_clock 1 9 sample_world) by (intros r []).
  exact (remove_warning_undoes_add sample_world 1 9 7 "first" sample_well_formed Hold).
Defined.

Lemma filter_negb_twice {A} (p : A → bool) (l : list A) :
  List.filter (λ x, negb (p x)) (List.filter (λ x, negb (p x)) l) =
  List.filter (λ x, negb (p x)) l.
Proof.
  induction l as [|a l IH]; cbn; [reflexivity|].
  destruct (p a) eqn:Ha; cbn; [exact IH|]. now rewrite Ha, IH.
Qed.

Lemma filter_negb_other chat user chat' user' (l : list warning_row) :
  (chat', user') ≠ (chat, user) →
  List.filter (of_user chat' user') (List.filter (λ x, negb (of_user chat user x)) l) =
  List.filter (of_user chat' user') l.
Proof.
  intros Hne. induction l as [|a l IH]; cbn; [reflexivity|].
  destruct (of_user chat user a) eqn:Ha; cbn.
  - now rewrite (filter_other_user chat user chat' user' a Hne Ha).
  - destruct (of_user chat' user' a); now rewrite IH.
Qed.

(** X7: [clear_warnings] leaves the user without a warning in the chat and
    touches nobody else: the count of the user is 0, [remove_warning] then
    returns 0, the count of every other user or chat is what it was, and a
    second [clear_warnings] changes nothing. *)
Theorem clear_warnings_resets w chat user :
  let w' := snd (clear_warnings chat user w) in
  warning_count chat user w' = 0 ∧
  fst (remove_warning chat user w') = Ok 0 ∧
  (∀ chat' user', (chat', user') ≠ (chat, user) →
     warning_count chat' user' w' = warning_count chat' user' w) ∧
  snd (clear_warnings chat user w') = w'.
Proof.
  cbv zeta. rewrite run_clear_warnings. cbn [snd].
  assert (Hzero : warning_count chat user
            (set_db (set_warnings
                       (List.filter (λ x, negb (of_user chat user x)) (warnings (db w)))
                       (sqlite_sequence (db w)) (db w)) w) = 0).
  { unfold warning_count. cbn [db set_db warnings set_warnings].
    now rewrite count_after_clear. }
  repeat apply conj.
  - exact Hzero.
  - rewrite run_remove_warning.
    destruct (select_latest _ _ _) as [r|] eqn:Hsel.
    + apply select_latest_some in Hsel as (Hin & Hr & _).
      cbn [db set_db warnings set_warnings] in Hin.
      apply filter_In in Hin as [_ Hin]. now rewrite Hr in Hin.
    + cbn [fst]. now rewrite Hzero.
  - intros chat' user' Hne. unfold warning_count.
    cbn [db set_db warnings set_warnings]. now rewrite filter_negb_other.
  - rewrite run_clear_warnings. cbn [snd db set_db warnings set_warnings sqlite_sequence].
    now rewrite filter_negb_twice.
Qed.

(** X8: [add_mute] stores one expiry for the user in the chat, the instant
    read plus the duration, in place of whatever was stored; the mutes of
    everybody else stay, and so do the warnings.  [is_muted] called next
    answers True exactly when the clock then shows an instant before that
    expiry.  A duration of more than 999999999 days raises [OverflowError]
    and stores nothing. *)
Theorem add_mute_then_is_muted w chat user d :
  let w1 := snd (add_mute chat user d w) in
  (Z.abs (d / 86400) ≤ 999999999 → 0 ≤ now w + d * second ≤ datetime_max →
     fst (add_mute chat user d w) = Ok (now w + d * second) ∧
     mute_of chat user w1 = Some (now w + d * second) ∧
     (∀ chat' user', (chat', user') ≠ (chat, user) →
        mute_of chat' user' w1 = mute_of chat' user' w) ∧
     warnings (db w1) = warnings (db w) ∧
     fst (is_muted chat user w1) = Ok (now w1 <? now w + d * second)) ∧
  (999999999 < Z.abs (d / 86400) →
     fst (add_mute chat user d w) = Raise OverflowError ∧ db w1 = db w).
Proof.
  cbv zeta. rewrite run_add_mute. split.
  - intros Hdays Hcal. rewrite (timedelta_ok _ Hdays), (datetime_add_ok _ _ Hcal).
    cbn [fst snd].
    assert (Hstored : mute_of chat user
              (set_db (set_muted_users
                         (<[(chat, user) := now w + d * second]> (muted_users (db w)))
                         (db w)) (tick w)) = Some (now w + d * second))
      by apply lookup_insert_eq.
    repeat apply conj; try reflexivity.
    + exact Hstored.
    + intros chat' user' Hne. unfold mute_of.
      cbn [db set_db muted_users set_muted_users]. apply lookup_insert_ne. congruence.
    + rewrite run_is_muted, Hstored. now destruct (_ <? _).
  - intros Hover. unfold timedelta.
    destruct (Z.ltb_spec 999999999 (Z.abs (d / 86400))); [|lia]. split; reflexivity.
Qed.

Lemma add_mute_then_is_muted_witness :
  mute_of 1 9 (snd (add_mute 1 9 300 sample_world)) = Some (300 * second) ∧
  fst (is_muted 1 9 (snd (add_mute 1 9 300 sample_world))) = Ok true.
Proof.
  destruct (add_mute_then_is_muted sample_world 1 9 300) as [Hok _].
  destruct Hok as (_ & Hstored & _ & _ & Hmuted);
    [vm_compute; discriminate | vm_compute; split; discriminate |].
  exact (conj Hstored Hmuted).
Defined.

(** X9: [remove_mute] ends the mute of the user in the chat and nothing
    else: [is_muted] then answers False without reading the clock or
    changing anything, the mutes of everybody else and the warnings stay, and
    removing a mute that is not there changes nothing. *)
Theorem remove_mute_unmutes w chat user :
  let w' := snd (remove_mute chat user w) in
  is_muted chat user w' = (Ok false, w') ∧
  (∀ chat' user', (chat', user') ≠ (chat, user) →
     mute_of chat' user' w' = mute_of chat' user' w) ∧
  warnings (db w') = warnings (db w) ∧
  (mute_of chat user w = None → w' = w).
Proof.
  cbv zeta. rewrite run_remove_mute. cbn [snd].
  repeat apply conj.
  - rewrite run_is_muted.
    assert (Hgone : mute_of chat user
              (set_db (set_muted_users (delete (chat, user) (muted_users (db w))) (db w)) w)
              = None) by apply lookup_delete_eq.
    now rewrite Hgone.
  - intros chat' user' Hne. unfold mute_of. cbn [db set_db muted_users set_muted_users].
    apply lookup_delete_ne. congruence.
  - reflexivity.
  - intros Hnone. unfold mute_of in Hnone. rewrite (delete_id _ _ Hnone).
    destruct w as [e [cs ws sq mu us] fc t c]. reflexivity.
Qed.

End StoreExtras.

(* ===================================================================== *)
(** * What the handlers leave as it is *)
(* ===================================================================== *)

Section Keeping.
Import Utils Process Database Bot Notions.

(** ** Composition *)

Section Composition.
Context (R : world → world → Prop) `{!PreOrder R}.

Lemma keeps_ret {A} (a : A) : keeps R (ret a).
Proof. intros w. reflexivity. Qed.

Lemma keeps_raise {A} (e : exn) : keeps R (raise (A := A) e).
Proof. intros w. reflexivity. Qed.

Lemma keeps_lift {A} (r : result A) : keeps R (lift r).
Proof. intros w. reflexivity. Qed.

Lemma keeps_bind {A B} (m : M A) (f : A → M B) :
  keeps R m → (∀ a, keeps R (f a)) → keeps R (bind m f).
Proof.
  intros Hm Hf w. unfold bind. specialize (Hm w).
  destruct (m w) as [[a|e] w1]; cbn in *; [|exact Hm].
  etransitivity; [exact Hm | apply Hf].
Qed.

Lemma keeps_try_except {A} (body : M A) (handler : exn → M A) :
  keeps R body → (∀ e, keeps R (handler e)) → keeps R (try_except body handler).
Proof.
  intros Hm Hf w. unfold try_except. specialize (Hm w).
  destruct (body w) as [[a|e] w1]; cbn in *; [exact Hm|].
  etransitivity; [exact Hm | apply Hf].
Qed.

Lemma keeps_is_admin update : keeps R (is_admin update).
Proof.
  intros w. unfold is_admin.
  destruct (get_member _ _ _) as [[]|]; reflexivity.
Qed.

Lemma keeps_the_message update : keeps R (the_message update).
Proof. intros w. unfold the_message. destruct (message update); reflexivity. Qed.

End Composition.

(** ** The chats that have settings *)

#[local] Instance same_chats_preorder : PreOrder same_chats.
Proof.
  split.
  - intros w chat. reflexivity.
  - intros w1 w2 w3 H12 H23 chat. rewrite (H23 chat). apply H12.
Qed.

Lemma same_settings {A} (m : M A) :
  (∀ w, chat_settings (db (snd (m w))) = chat_settings (db w)) → keeps same_chats m.
Proof. intros H w chat. now rewrite H. Qed.

Lemma alter_same_chats (f : settings_row → settings_row) chat w :
  same_chats w (set_db (set_chat_settings (alter f chat (chat_settings (db w))) (db w)) w).
Proof.
  intros c. cbn. destruct (decide (c = chat)) as [->|Hne].
  - rewrite lookup_alter_eq. destruct (chat_settings (db w) !! chat); cbn.
    + split; eauto.
    + reflexivity.
  - now rewrite lookup_alter_ne.
Qed.

Create HintDb chats.

Lemma chats_api c : keeps same_chats (api c).
Proof. apply same_settings. intros w. unfold api. now destruct (accepts _ _ _). Qed.

Lemma chats_datetime_now : keeps same_chats datetime_now.
Proof. now apply same_settings. Qed.

Lemma chats_add_warning chat user by_user why :
  keeps same_chats (add_warning chat user by_user why).
Proof.
  apply same_settings. intros w. rewrite run_add_warning.
  now destruct (collides _ _ _ _).
Qed.

Lemma chats_remove_warning chat user : keeps same_chats (remove_warning chat user).
Proof.
  apply same_settings. intros w. rewrite run_remove_warning.
  now destruct (select_latest _ _ _).
Qed.

Lemma chats_clear_warnings chat user : keeps same_chats (clear_warnings chat user).
Proof. apply same_settings. intros w. now rewrite run_clear_warnings. Qed.

Lemma chats_get_warnings_count chat user :
  keeps same_chats (get_warnings_count chat user).
Proof. apply same_settings. intros w. now rewrite run_get_warnings_count. Qed.

Lemma chats_add_mute chat user d : keeps same_chats (add_mute chat user d).
Proof.
  apply same_settings. intros w. rewrite run_add_mute.
  destruct (timedelta d); [|reflexivity]. now destruct (datetime_add _ _).
Qed.

Lemma chats_remove_mute chat user : keeps same_chats (remove_mute chat user).
Proof. apply same_settings. intros w. now rewrite run_remove_mute. Qed.

Lemma chats_is_muted chat user : keeps same_chats (is_muted chat user).
Proof.
  apply same_settings. intros w. rewrite run_is_muted.
  destruct (mute_of chat user w); [|reflexivity]. now destruct (_ <? _).
Qed.

Lemma chats_update_user_stats chat user : keeps same_chats (update_user_stats chat user).
Proof. now apply same_settings. Qed.

Lemma chats_get_user_stats chat user : keeps same_chats (get_user_stats chat user).
Proof. now apply same_settings. Qed.

Lemma chats_get_chat_settings chat : keeps same_chats (get_chat_settings chat).
Proof.
  apply same_settings. intros w. unfold get_chat_settings, bind, get_db.
  now destruct (chat_settings (db w) !! _).
Qed.

Lemma chats_get_bad_words chat : keeps same_chats (get_bad_words chat).
Proof.
  apply same_settings. intros w. unfold get_bad_words, bind, get_db.
  now destruct (chat_settings (db w) !! _).
Qed.

Lemma chats_update_welcome chat message : keeps same_chats (update_welcome chat message).
Proof. intros w. apply alter_same_chats. Qed.

Lemma chats_update_rules chat text : keeps same_chats (update_rules chat text).
Proof. intros w. apply alter_same_chats. Qed.

Lemma chats_update_bad_words chat l : keeps same_chats (update_bad_words chat l).
Proof. intros w. apply alter_same_chats. Qed.

Lemma chats_cache_contains key : keeps same_chats (cache_contains key).
Proof.
  apply same_settings. intros w. unfold cache_contains.
  now destruct (flood_cache w !! _) as [[]|].
Qed.

Lemma chats_cache_get key : keeps same_chats (cache_get key).
Proof.
  apply same_settings. intros w. unfold cache_get.
  destruct (flood_cache w !! _) as [[]|]; [|reflexivity]. now destruct (_ <? _).
Qed.

Lemma chats_cache_set key v : keeps same_chats (cache_set key v).
Proof. now apply same_settings. Qed.

Lemma chats_cache_append key x : keeps same_chats (cache_append key x).
Proof.
  apply same_settings. intros w. unfold cache_append.
  destruct (flood_cache w !! _) as [[]|]; [|reflexivity]. now destruct (_ <? _).
Qed.

#[local] Hint Resolve chats_api chats_datetime_now chats_add_warning
  chats_remove_warning chats_clear_warnings chats_get_warnings_count chats_add_mute
  chats_remove_mute chats_is_muted chats_update_user_stats chats_get_user_stats
  chats_get_chat_settings chats_get_bad_words chats_update_welcome chats_update_rules
  chats_update_bad_words chats_cache_contains chats_cache_get chats_cache_set
  chats_cache_append : chats.

(** One step through a handler: a sequence, a [try], a test. *)
Ltac through :=
  first
    [ apply keeps_ret; exact _
    | apply keeps_raise; exact _
    | apply keeps_lift; exact _
    | apply keeps_is_admin; exact _
    | apply keeps_the_message; exact _
    | solve [unfold reply_text, delete, reply, edit_message_text; auto with chats]
    | apply keeps_bind; [exact _ | | intros ?]
    | apply keeps_try_except; [exact _ | | intros ?]
    | lazymatch goal with
      | |- keeps _ (if ?b then _ else _) => destruct b
      | |- keeps _ (match ?x with _ => _ end) => destruct x
      end
    | progress cbv zeta ].

Lemma chats_reply update t : keeps same_chats (reply update t).
Proof. unfold reply. repeat through. Qed.

Lemma chats_anti_mat update context m settings text_lower words :
  keeps same_chats (anti_mat update context m settings text_lower words).
Proof.
  induction words as [|word rest IH]; cbn [anti_mat]; [repeat through|].
  destruct (contains _ _); [|exact IH]. repeat through.
Qed.

Lemma chats_send_reports admins report_text sent_count :
  keeps same_chats (send_reports admins report_text sent_count).
Proof.
  revert sent_count. induction admins as [|admin rest IH]; intros sent_count;
    cbn [send_reports]; [repeat through|].
  destruct (admin_is_bot admin); [apply IH|].
  apply keeps_bind; [exact _ | repeat through | intros sent; apply IH].
Qed.

Lemma chats_greet settings members : keeps same_chats (greet settings members).
Proof.
  induction members as [|new_member rest IH]; cbn [greet]; [repeat through|].
  destruct (is_bot new_member); [exact IH|]. repeat through.
Qed.

#[local] Hint Resolve chats_reply chats_anti_mat chats_send_reports chats_greet : chats.

Lemma chats_handler e : keeps same_chats (handler_of e).
Proof.
  destruct e; cbn [handler_of];
    unfold ban_command, unban_command, mute_command, unmute_command, warn_command,
      unwarn_command, slowmode_command, report_command, rules_command,
      set_welcome_command, set_rules_command, add_badword_command,
      remove_badword_command, handle_new_members, handle_messages, button_callback;
    repeat through.
Qed.

Lemma chats_after l w : same_chats w (after l w).
Proof.
  revert w. induction l as [|e rest IH]; intros w; cbn [after]; [reflexivity|].
  etransitivity; [apply chats_handler | apply IH].
Qed.

End Keeping.

(* ===================================================================== *)
(** * The settings of a chat *)
(* ===================================================================== *)

Section Settings.
Import Utils Process Database Bot Notions.

(** X10: no handler creates a row of settings.  When a chat has no row in
    [chat_settings], then after any sequence of runs of the handlers of
    /ban, /unban, /mute, /unmute, /warn, /unwarn, /slowmode, /report, /rules,
    /set_welcome, /set_rules, /add_badword, /remove_badword, of joins, of
    text messages and of buttons, whatever the platform answers, the chat
    still has no row, and [get_chat_settings] raises [NameError] in place of
    inserting the default row. *)
Theorem settings_row_never_created (l : list event) (w : world) (chat : Z) :
  chat_settings (db w) !! chat = None →
  chat_settings (db (after l w)) !! chat = None ∧
  fst (get_chat_settings chat (after l w)) = Raise NameError.
Proof.
  intros Hnone.
  assert (Hafter : chat_settings (db (after l w)) !! chat = None).
  { apply eq_None_not_Some. rewrite (chats_after l w chat), Hnone.
    intros [x Hx]. discriminate. }
  split; [exact Hafter|].
  unfold get_chat_settings, bind, get_db. cbn. now rewrite Hafter.
Qed.

Lemma settings_row_never_created_witness :
  let l := [on_message (sample_message "hello") (sample_context []);
            on_set_rules sample_command (sample_context ["be"; "kind"]);
            on_warn sample_command (sample_context []);
            on_rules (sample_message "/rules") (sample_context [])] in
  chat_settings (db (after l fresh_world)) !! 1 = None ∧
  fst (get_chat_settings 1 (after l fresh_world)) = Raise NameError.
Proof. cbv zeta. apply settings_row_never_created. reflexivity. Defined.

(** X11: a text message in a chat without a row of settings.  When the
    sender is not muted, the handler counts the message in the statistics
    and then raises [NameError]: the world it leaves is the one left by
    [is_muted] and [update_user_stats], so no call is issued, the flood
    window is not touched and no word is checked. *)
Theorem handle_messages_without_settings update context w m txt :
  let chat := effective_chat update in
  let user := effective_user update in
  message update = Some m → text m = Some txt → txt ≠ EmptyString →
  fst (is_muted chat user w) = Ok false →
  chat_settings (db w) !! chat = None →
  handle_messages update context w =
  (Raise NameError, snd (update_user_stats chat user (snd (is_muted chat user w)))).
Proof.
  cbv zeta. intros Hm Htxt Hne Hmuted Hnone.
  unfold handle_messages. rewrite Hm, Htxt.
  destruct txt as [|c0 txt0]; [congruence|].
  pose proof (chats_is_muted (effective_chat update) (effective_user update) w
                (effective_chat update)) as Hsame.
  destruct (is_muted (effective_chat update) (effective_user update) w)
    as [r w1] eqn:Hrun.
  cbn [fst snd] in *. subst r.
  erewrite bind_ok by exact Hrun. cbv beta iota.
  erewrite bind_ok by apply run_update_user_stats. cbv beta.
  rewrite run_update_user_stats. cbn [snd].
  unfold bind at 1. unfold get_chat_settings, bind, get_db.
  cbn [set_db db set_user_stats chat_settings tick fst snd].
  destruct (chat_settings (db w1) !! effective_chat update) as [row|] eqn:Hrow;
    [|reflexivity].
  exfalso. rewrite Hnone in Hsame. destruct (proj1 Hsame (mk_is_Some _ _ eq_refl)).
  discriminate.
Qed.

Lemma handle_messages_without_settings_witness :
  fst (handle_messages (sample_message "spam") (sample_context []) fresh_world) =
    Raise NameError ∧
  calls (snd (handle_messages (sample_message "spam") (sample_context []) fresh_world)) = [].
Proof.
  rewrite (handle_messages_without_settings (sample_message "spam") (sample_context [])
             fresh_world _ "spam" eq_refl eq_refl);
    [split; reflexivity | discriminate | reflexivity | reflexivity].
Defined.

End Settings.

(* ===================================================================== *)
(** * Who may use the commands *)
(* ===================================================================== *)

Section Refusals.
Import Utils Process Database Bot Notions.

(** X12: a user who is not an administrator changes nothing.  Each of the
    commands /ban, /unban, /mute, /unmute, /warn, /unwarn, /slowmode,
    /set_welcome, /set_rules, /add_badword and /remove_badword, sent by a
    user for whom [is_admin] is false, does one thing: it answers with its
    refusal.  The store, the flood windows and the clock are as before. *)
Theorem non_admin_is_refused (e : event) update refusal w m :
  admin_command e = Some (update, refusal) →
  fst (is_admin update w) = Ok false →
  message update = Some m →
  handler_of e w = api (ReplyText (effective_chat update) (message_id m) refusal) w.
Proof.
  intros Hcmd Hadmin Hm.
  destruct (is_admin_ok update w) as [b Hb]. rewrite Hb in Hadmin. cbn in Hadmin.
  assert (b = false) by congruence. subst b.
  assert (Hmsg : the_message update w = (Ok m, w))
    by (unfold the_message; now rewrite Hm).
  destruct e; cbn in Hcmd; try discriminate;
    injection Hcmd as -> <-; cbn [handler_of];
    unfold ban_command, unban_command, mute_command, unmute_command, warn_command,
      unwarn_command, slowmode_command, set_welcome_command, set_rules_command,
      add_badword_command, remove_badword_command, reply;
    erewrite bind_ok by exact Hb; cbv beta iota delta [negb];
    erewrite bind_ok by exact Hmsg; reflexivity.
Qed.

Lemma non_admin_is_refused_witness :
  snd (mute_command sample_command (sample_context ["10m"])
                    (with_env member_env sample_world)) =
  record (ReplyText 1 100 AdminsOnly) (with_env member_env sample_world).
Proof.
  exact (f_equal snd
           (non_admin_is_refused (on_mute sample_command (sample_context ["10m"]))
              sample_command AdminsOnly (with_env member_env sample_world) _
              eq_refl eq_refl eq_refl)).
Defined.

(** X13: a command without its target.  /ban, /mute, /unmute, /warn and
    /unwarn of an administrator, sent as a message that replies to none, do
    one thing: they answer that a reply is required.  Nobody is banned,
    muted or warned, and the store is as before. *)
Theorem missing_reply_is_refused (e : event) update w m :
  reply_command e = Some update →
  fst (is_admin update w) = Ok true →
  message update = Some m → reply_to_message m = None →
  handler_of e w = api (ReplyText (effective_chat update) (message_id m) ReplyRequired) w.
Proof.
  intros Hcmd Hadmin Hm Hreply.
  destruct (is_admin_ok update w) as [b Hb]. rewrite Hb in Hadmin. cbn in Hadmin.
  assert (b = true) by congruence. subst b.
  assert (Hmsg : the_message update w = (Ok m, w))
    by (unfold the_message; now rewrite Hm).
  destruct e; cbn in Hcmd; try discriminate;
    injection Hcmd as ->; cbn [handler_of];
    unfold ban_command, mute_command, unmute_command, warn_command, unwarn_command;
    erewrite bind_ok by exact Hb; cbv beta iota delta [negb];
    erewrite bind_ok by exact Hmsg; cbv beta zeta; rewrite Hreply; reflexivity.
Qed.

Lemma missing_reply_is_refused_witness :
  snd (warn_command (sample_message "/warn") (sample_context []) sample_world) =
  record (ReplyText 1 200 ReplyRequired) sample_world.
Proof.
  exact (f_equal snd
           (missing_reply_is_refused (on_warn (sample_message "/warn") (sample_context []))
              (sample_message "/warn") sample_world _ eq_refl eq_refl eq_refl eq_refl)).
Defined.

End Refusals.

(* ===================================================================== *)
(** * The other commands of moderation *)
(* ===================================================================== *)

Section Moderation.
Import Utils Process Database Bot Notions.

(** The start of a command of an administrator. *)
Lemma as_admin {A} (body : Message → M A) (refusal : Message → M A) update w m :
  fst (is_admin update w) = Ok true → message update = Some m →
  (admin <- is_admin update ;;
   message <- the_message update ;;
   if negb admin then refusal message else body message)%process w = body m w.
Proof.
  intros Hadmin Hm.
  destruct (is_admin_ok update w) as [b Hb]. rewrite Hb in Hadmin. cbn in Hadmin.
  assert (b = true) by congruence. subst b.
  erewrite bind_ok by exact Hb. cbv beta iota delta [negb].
  erewrite bind_ok by (unfold the_message; rewrite Hm; reflexivity). reflexivity.
Qed.

(** X14: /ban asks the platform and leaves the store alone.  For an
    administrator who replies to a message of [target], the first call is
    the ban of [target]; the answer that follows tells whether the platform
    accepted it; and the store is as before, so the warnings and the mute of
    the banned user stay. *)
Theorem ban_command_outcome update context w m target :
  fst (is_admin update w) = Ok true →
  message update = Some m → reply_to_message m = Some target →
  let chat := effective_chat update in
  let w' := snd (ban_command update context w) in
  db w' = db w ∧
  ∃ rest,
    calls w' =
    calls w ++ BanMember chat target ::
      ReplyText chat (message_id m)
        (if accepts (env w) (length (calls w)) (BanMember chat target)
         then Banned else Failed TelegramError) :: rest.
Proof.
  intros Hadmin Hm Hreply. cbv zeta. unfold ban_command.
  rewrite (as_admin _ _ update w m Hadmin Hm). cbv zeta. rewrite Hreply.
  unfold try_except, bind, reply_text. rewrite run_api.
  destruct (accepts (env w) (length (calls w)) _).
  - rewrite run_api. destruct (accepts _ _ _).
    + split; [reflexivity|]. exists []. cbn. now rewrite <- app_assoc.
    + rewrite run_api. split; [reflexivity|]. eexists [_]. cbn.
      now rewrite <- !app_assoc.
  - rewrite run_api. split; [reflexivity|]. exists []. cbn. now rewrite <- app_assoc.
Qed.

Lemma ban_command_outcome_witness :
  warning_count 1 9 (snd (ban_command sample_command (sample_context []) twice_warned)) = 2 ∧
  ∃ rest, calls (snd (ban_command sample_command (sample_context []) twice_warned)) =
          BanMember 1 9 :: ReplyText 1 100 Banned :: rest.
Proof.
  destruct (ban_command_outcome sample_command (sample_context []) twice_warned _ 9
              eq_refl eq_refl eq_refl) as [Hdb Hcalls].
  split; [|exact Hcalls].
  unfold warning_count. rewrite Hdb. reflexivity.
Defined.

(** X15: /unmute follows the platform.  For an administrator who replies to
    a message of [target], the first call asks the platform to let [target]
    send messages.  When the platform accepts, the mute of [target] is
    deleted from the store; when it rejects, the store is as before, the
    mute stays, and the answer is the error. *)
Theorem unmute_command_outcome update context w m target :
  fst (is_admin update w) = Ok true →
  message update = Some m → reply_to_message m = Some target →
  let chat := effective_chat update in
  let lifting := RestrictMember chat target (only_send_messages true) None in
  let w' := snd (unmute_command update context w) in
  if accepts (env w) (length (calls w)) lifting
  then mute_of chat target w' = None ∧
       ∃ rest, calls w' =
               calls w ++ lifting :: ReplyText chat (message_id m) Unmuted :: rest
  else db w' = db w ∧
       calls w' =
       calls w ++ [lifting; ReplyText chat (message_id m) (Failed TelegramError)].
Proof.
  intros Hadmin Hm Hreply. cbv zeta. unfold unmute_command.
  rewrite (as_admin _ _ update w m Hadmin Hm). cbv zeta. rewrite Hreply.
  unfold try_except, bind, reply_text. rewrite run_api.
  destruct (accepts (env w) (length (calls w)) _).
  - rewrite run_remove_mute, run_api. destruct (accepts _ _ _).
    + split; [apply lookup_delete_eq|]. exists []. cbn. now rewrite <- app_assoc.
    + rewrite run_api. split; [apply lookup_delete_eq|]. eexists [_]. cbn.
      now rewrite <- !app_assoc.
  - rewrite run_api. split; [reflexivity|]. cbn. now rewrite <- app_assoc.
Qed.

Lemma unmute_command_outcome_witness :
  mute_of 1 9 (snd (unmute_command sample_command (sample_context [])
                                   (muted_until 9000))) = None ∧
  mute_of 1 9 (snd (unmute_command sample_command (sample_context [])
                                   (with_env refusing_env (muted_until 9000)))) =
    Some 9000.
Proof.
  pose proof (unmute_command_outcome sample_command (sample_context [])
                (muted_until 9000) _ 9 eq_refl eq_refl eq_refl) as Hyes.
  pose proof (unmute_command_outcome sample_command (sample_context [])
                (with_env refusing_env (muted_until 9000)) _ 9
                eq_refl eq_refl eq_refl) as Hno.
  cbv zeta in Hyes, Hno.
  change (accepts _ _ _) with true in Hyes. change (accepts _ _ _) with false in Hno.
  cbv iota in Hyes, Hno.
  split; [exact (proj1 Hyes)|].
  unfold mute_of. rewrite (proj1 Hno). reflexivity.
Defined.

(** X16: /slowmode keeps the delay in range.  For an administrator whose
    first argument [int] reads as the number [n], the delay asked of the
    platform is [n] brought into the range from 0 to 300, whatever [n] is;
    the store is as before. *)
Theorem slowmode_command_clamps python_int update context w m token rest n :
  fst (is_admin update w) = Ok true → message update = Some m →
  args context = token :: rest → python_int token = Some n →
  let chat := effective_chat update in
  let w' := snd (slowmode_command python_int update context w) in
  0 ≤ clamped n ≤ 300 ∧
  db w' = db w ∧
  ∃ answer more,
    calls w' =
    calls w ++ SetSlowModeDelay chat (clamped n) :: ReplyText chat (message_id m) answer
            :: more.
Proof.
  intros Hadmin Hm Hargs Hint. cbv zeta. unfold slowmode_command.
  rewrite (as_admin _ _ update w m Hadmin Hm). cbv zeta.
  unfold slowmode_seconds_of. rewrite Hargs, Hint. cbv zeta.
  assert (Hclamp : (if 300 <? (if n <? 0 then 0 else n) then 300
                    else if n <? 0 then 0 else n) = clamped n).
  { unfold clamped. destruct (Z.ltb_spec n 0); [reflexivity + (cbn; lia)|].
    destruct (Z.ltb_spec 300 n); lia. }
  rewrite Hclamp. split; [unfold clamped; lia|].
  unfold try_except, bind, reply_text. rewrite run_api.
  destruct (accepts (env w) (length (calls w)) _).
  - destruct (0 <? clamped n); rewrite run_api; destruct (accepts _ _ _);
      try rewrite run_api; (split; [reflexivity|]);
      first [ eexists _, []; cbn; now rewrite <- !app_assoc
            | eexists _, [_]; cbn; now rewrite <- !app_assoc ].
  - rewrite run_api. split; [reflexivity|]. eexists _, []. cbn.
    now rewrite <- !app_assoc.
Qed.

Lemma slowmode_command_clamps_witness :
  ∃ answer more,
    calls (snd (slowmode_command (λ _, Some 1000) sample_command
                                 (sample_context ["1000"]) sample_world)) =
    SetSlowModeDelay 1 300 :: ReplyText 1 100 answer :: more.
Proof.
  exact (proj2 (proj2 (slowmode_command_clamps (λ _, Some 1000) sample_command
                         (sample_context ["1000"]) sample_world _ "1000" [] 1000
                         eq_refl eq_refl eq_refl eq_refl))).
Defined.

(** X17: /slowmode with no number.  When [int] raises [ValueError] on the
    first argument, the command answers that a number of seconds is needed
    and asks nothing of the platform about the delay. *)
Theorem slowmode_command_rejects_text python_int update context w m token rest :
  fst (is_admin update w) = Ok true → message update = Some m →
  args context = token :: rest → python_int token = None →
  slowmode_command python_int update context w =
  api (ReplyText (effective_chat update) (message_id m) SecondsRequired) w.
Proof.
  intros Hadmin Hm Hargs Hint. unfold slowmode_command.
  rewrite (as_admin _ _ update w m Hadmin Hm). cbv zeta.
  unfold slowmode_seconds_of. now rewrite Hargs, Hint.
Qed.

Lemma slowmode_command_rejects_text_witness :
  calls (snd (slowmode_command (λ _, None) sample_command
                               (sample_context ["soon"]) sample_world)) =
  [ReplyText 1 100 SecondsRequired].
Proof.
  exact (f_equal (λ r, calls (snd r))
           (slowmode_command_rejects_text (λ _, None) sample_command
              (sample_context ["soon"]) sample_world _ "soon" []
              eq_refl eq_refl eq_refl eq_refl)).
Defined.

(** X18: /unban by its argument.  On a platform that accepts every call, an
    administrator's /unban with a first argument that starts with [@] only
    answers that names are not served; with an argument that [int] reads as
    [id] it unbans [id] and says so; and with any other argument it unbans
    nobody and answers with the [ValueError] of [int]. *)
Theorem unban_command_outcome python_int update context w m token rest :
  cooperative (env w) →
  fst (is_admin update w) = Ok true → message update = Some m →
  args context = token :: rest →
  let chat := effective_chat update in
  let answer t := ReplyText chat (message_id m) t in
  calls (snd (unban_command python_int update context w)) =
  calls w ++
  (if starts_with_at token then [answer ByNameUnavailable]
   else match python_int token with
        | Some id => [UnbanMember chat id; answer (Unbanned id)]
        | None => [answer (Failed ValueError)]
        end).
Proof.
  intros Hcoop Hadmin Hm Hargs. cbv zeta. unfold unban_command.
  rewrite (as_admin _ _ update w m Hadmin Hm). cbv zeta. rewrite Hargs.
  unfold try_except, reply_text.
  destruct (starts_with_at token).
  - now rewrite run_api_cooperative.
  - unfold bind. destruct (python_int token) as [id|]; cbn [ret raise].
    + rewrite run_api_cooperative by exact Hcoop.
      rewrite run_api_cooperative by exact Hcoop. cbn. now rewrite <- app_assoc.
    + now rewrite run_api_cooperative.
Qed.

Lemma unban_command_outcome_witness :
  calls (snd (unban_command (λ _, None) sample_command
                            (sample_context ["nine"]) sample_world)) =
  [ReplyText 1 100 (Failed ValueError)].
Proof.
  exact (unban_command_outcome (λ _, None) sample_command (sample_context ["nine"])
           sample_world _ "nine" [] sample_cooperative eq_refl eq_refl eq_refl).
Defined.

End Moderation.

(* ===================================================================== *)
(** * Buttons, reports and joins *)
(* ===================================================================== *)

Section Events.
Import Utils Process Database Bot Notions.

(** X19: the button under the rules lifts a mute.  On a platform that
    accepts every call, when a user whose mute has not expired presses the
    button that accepts the rules, the handler deletes the mute from the
    store and asks the platform to let the user send messages again.  The
    handler asks nobody whether the user is an administrator. *)
Theorem accept_rules_lifts_mute query captcha w t :
  let chat := query_chat query in
  let user := Bot.from_user query in
  data query = "accept_rules" →
  cooperative (env w) →
  mute_of chat user w = Some t → now w < t →
  let w' := snd (button_callback query captcha w) in
  mute_of chat user w' = None ∧
  calls w' =
  calls w ++ [AnswerCallbackQuery (query_id query);
              EditMessageText chat (query_message_id query) RulesAccepted;
              RestrictMember chat user (only_send_messages true) None].
Proof.
  cbv zeta. intros Hdata Hcoop Hmute Hnow. unfold button_callback.
  erewrite bind_ok by (apply run_api_cooperative; exact Hcoop). cbv beta zeta.
  rewrite Hdata, String.eqb_refl. unfold edit_message_text.
  erewrite bind_ok by (apply run_api_cooperative; exact Hcoop). cbv beta.
  match goal with |- context [bind (is_muted _ _) _ ?x] => set (w2 := x) end.
  assert (His : is_muted (query_chat query) (Bot.from_user query) w2 = (Ok true, tick w2)).
  { rewrite run_is_muted. change (mute_of _ _ w2) with (mute_of (query_chat query)
      (Bot.from_user query) w). rewrite Hmute. change (now w2) with (now w).
    now apply Z.ltb_lt in Hnow as ->. }
  erewrite bind_ok by exact His. cbv beta iota.
  erewrite bind_ok by apply run_remove_mute. cbv beta.
  rewrite run_api_cooperative by exact Hcoop. cbn [snd].
  split; [apply lookup_delete_eq|].
  cbn. now rewrite <- !app_assoc.
Qed.

Lemma accept_rules_lifts_mute_witness :
  mute_of 1 9 (snd (button_callback (sample_query "accept_rules") None
                                    (muted_until 9000))) = None ∧
  calls (snd (button_callback (sample_query "accept_rules") None (muted_until 9000))) =
  [AnswerCallbackQuery 50; EditMessageText 1 300 RulesAccepted;
   RestrictMember 1 9 (only_send_messages true) None].
Proof.
  exact (accept_rules_lifts_mute (sample_query "accept_rules") None (muted_until 9000)
           9000 eq_refl sample_cooperative eq_refl eq_refl).
Defined.

(** The loop of /report: it writes to the people among the administrators,
    in their order, and counts at most one for each. *)
Lemma run_send_reports admins report_text n w :
  ∃ k w',
    send_reports admins report_text n w = (Ok (n + k), w') ∧
    0 ≤ k ≤ Z.of_nat (length (people admins)) ∧
    (cooperative (env w) → k = Z.of_nat (length (people admins))) ∧
    env w' = env w ∧ db w' = db w ∧ flood_cache w' = flood_cache w ∧
    calls w' =
    calls w ++ map (λ a, SendMessage (admin_id a) report_text) (people admins).
Proof.
  revert n w. induction admins as [|admin rest IH]; intros n w; cbn [send_reports people List.filter].
  - exists 0, w. rewrite Z.add_0_r, app_nil_r. cbn. repeat apply conj; auto; lia.
  - fold (people rest). destruct (admin_is_bot admin); cbn [negb].
    { apply IH. }
    unfold bind at 1. unfold try_except, bind. rewrite run_api.
    destruct (accepts (env w) (length (calls w)) _) eqn:Hacc; cbn [ret fst snd].
    + destruct (IH (n + 1) (record (SendMessage (admin_id admin) report_text) w))
        as (k & w' & Hrun & Hk & Hcoop & Henv & Hdb & Hcache & Hcalls).
      exists (1 + k), w'. rewrite Hrun, Z.add_assoc.
      repeat apply conj; auto; cbn [length map]; try lia.
      * intros Hc. rewrite (Hcoop Hc). lia.
      * rewrite Hcalls. cbn. now rewrite <- app_assoc.
    + destruct (IH n (record (SendMessage (admin_id admin) report_text) w))
        as (k & w' & Hrun & Hk & Hcoop & Henv & Hdb & Hcache & Hcalls).
      exists k, w'. rewrite Hrun.
      repeat apply conj; auto; cbn [length map]; try lia.
      * intros Hc. now rewrite Hc in Hacc.
      * rewrite Hcalls. cbn. now rewrite <- app_assoc.
Qed.

(** X20: /report writes to the people among the administrators.  When the
    message replies to one and the platform lists the administrators, the
    handler sends the report once to each administrator that is no bot, in
    the order of the list, and to nobody else; then it answers with a count
    that is at most the number of these sends, and equal to it on a platform
    that accepts every call.  The store is as before. *)
Theorem report_command_reaches_people admins update context w m reported :
  message update = Some m → reply_to_message m = Some reported →
  let chat := effective_chat update in
  let report_text := Report (effective_user update) reported in
  let w' := snd (report_command (Ok admins) update context w) in
  ∃ n,
    calls w' =
    calls w ++ map (λ a, SendMessage (admin_id a) report_text) (people admins)
            ++ [ReplyText chat (message_id m) (ReportSent n)] ∧
    0 ≤ n ≤ Z.of_nat (length (people admins)) ∧
    (cooperative (env w) → n = Z.of_nat (length (people admins))) ∧
    db w' = db w.
Proof.
  intros Hm Hreply. cbv zeta.
  destruct (run_send_reports admins (Report (effective_user update) reported) 0 w)
    as (k & w1 & Hrun & Hk & Hcoop & Henv & Hdb & Hcache & Hcalls).
  assert (Heq : report_command (Ok admins) update context w =
                api (ReplyText (effective_chat update) (message_id m) (ReportSent k)) w1).
  { unfold report_command.
    erewrite bind_ok by (unfold the_message; rewrite Hm; reflexivity). cbv beta.
    rewrite Hreply. unfold bind at 1, lift. cbv beta iota zeta.
    erewrite bind_ok by exact Hrun. now rewrite Z.add_0_l. }
  rewrite Heq, run_api. exists k. cbn [snd record calls db].
  rewrite Hcalls, <- app_assoc. repeat apply conj; auto; lia.
Qed.

Lemma report_command_reaches_people_witness :
  let admins := [ {| admin_id := 7; admin_is_bot := false |};
                  {| admin_id := 8; admin_is_bot := true |};
                  {| admin_id := 6; admin_is_bot := false |} ] in
  ∃ n,
    calls (snd (report_command (Ok admins) sample_command (sample_context [])
                               sample_world)) =
    [SendMessage 7 (Report 7 9); SendMessage 6 (Report 7 9);
     ReplyText 1 100 (ReportSent n)] ∧ n = 2.
Proof.
  cbv zeta.
  destruct (report_command_reaches_people
              [ {| admin_id := 7; admin_is_bot := false |};
                {| admin_id := 8; admin_is_bot := true |};
                {| admin_id := 6; admin_is_bot := false |} ]
              sample_command (sample_context []) sample_world _ 9 eq_refl eq_refl)
    as (n & Hcalls & _ & Hcoop & _).
  exists n. split; [exact Hcalls | exact (Hcoop sample_cooperative)].
Defined.

(** The loop over the new members issues no call and leaves the store. *)
Lemma run_greet settings members w :
  ∃ r w', greet settings members w = (r, w') ∧
          calls w' = calls w ∧ db w' = db w ∧ flood_cache w' = flood_cache w ∧
          (Exists (λ new_member, is_bot new_member = false) members → r ≠ Ok tt).
Proof.
  induction members as [|new_member rest IH]; cbn [greet].
  - exists (Ok tt), w. repeat apply conj; auto. intros H. inversion H.
  - destruct (is_bot new_member) eqn:Hbot.
    + destruct IH as (r & w' & Hrun & Hcalls & Hdb & Hcache & Hraise).
      exists r, w'. repeat apply conj; auto.
      intros H. inversion H; subst; [congruence | auto].
    + unfold bind, lift.
      destruct (created_at_of new_member) as [[t|]|e];
        (eexists _, _; split; [reflexivity|]; cbn;
         repeat apply conj; auto; discriminate).
Qed.

(** X21: nobody is welcomed.  Whatever the settings of the chat and whoever
    joins, the handler of joins issues no call to the platform and leaves
    the store as it is: no welcome is sent, no captcha is asked and no new
    member is restricted.  When a member who is no bot is among those who
    join, the handler ends by an exception. *)
Theorem handle_new_members_greets_nobody members update context w :
  let r := handle_new_members members update context w in
  calls (snd r) = calls w ∧ db (snd r) = db w ∧
  (Exists (λ new_member, is_bot new_member = false) members → fst r ≠ Ok tt).
Proof.
  cbv zeta.
  assert (Heq : handle_new_members members update context w =
                match chat_settings (db w) !! effective_chat update with
                | None => (Raise NameError, w)
                | Some settings =>
                    match message update with
                    | None => (Raise AttributeError, w)
                    | Some _ => greet settings members w
                    end
                end).
  { unfold handle_new_members, get_chat_settings, bind, get_db, the_message.
    destruct (chat_settings (db w) !! effective_chat update); [|reflexivity].
    destruct (message update); reflexivity. }
  rewrite Heq.
  destruct (chat_settings (db w) !! effective_chat update) as [settings|];
    [|repeat apply conj; auto; discriminate].
  destruct (message update) as [m|]; [|repeat apply conj; auto; discriminate].
  destruct (run_greet settings members w) as (r & w' & Hrun & Hcalls & Hdb & _ & Hraise).
  rewrite Hrun. cbn. auto.
Qed.

End Events.

(* ===================================================================== *)
(** * The admin panel *)
(* ===================================================================== *)

Section Panel.
Import Utils Process Database Bot Notions.

Lemma as_panel_admin {A} (body refusal : M A) update w :
  fst (is_admin update w) = Ok true →
  (admin <- is_admin update ;; if negb admin then refusal else body)%process w = body w.
Proof.
  intros Hadmin.
  destruct (is_admin_ok update w) as [b Hb]. rewrite Hb in Hadmin. cbn in Hadmin.
  assert (b = true) by congruence. subst b.
  erewrite bind_ok by exact Hb. reflexivity.
Qed.

Lemma run_reply update t w m :
  message update = Some m →
  reply update t w = api (ReplyText (effective_chat update) (message_id m) t) w.
Proof. intros Hm. unfold reply, bind, the_message. now rewrite Hm. Qed.

Lemma run_get_bad_words chat w :
  get_bad_words chat w =
  (Ok match chat_settings (db w) !! chat with
      | Some settings => bad_words settings
      | None => []
      end, w).
Proof.
  unfold get_bad_words, bind, get_db. cbn.
  now destruct (chat_settings (db w) !! chat).
Qed.

Lemma run_update_welcome chat text w :
  update_welcome chat text w =
  (Ok tt, set_db (set_chat_settings
                    (alter (with_welcome_message text) chat (chat_settings (db w)))
                    (db w)) w).
Proof. reflexivity. Qed.

Lemma run_update_rules chat text w :
  update_rules chat text w =
  (Ok tt, set_db (set_chat_settings
                    (alter (with_rules text) chat (chat_settings (db w))) (db w)) w).
Proof. reflexivity. Qed.

Lemma run_update_bad_words chat l w :
  update_bad_words chat l w =
  (Ok tt, set_db (set_chat_settings
                    (alter (with_bad_words l) chat (chat_settings (db w))) (db w)) w).
Proof. reflexivity. Qed.

Lemma alter_absent (f : settings_row → settings_row) chat (m : gmap Z settings_row) :
  m !! chat = None → alter f chat m = m.
Proof.
  intros Hnone. apply map_eq. intros c. destruct (decide (c = chat)) as [->|Hne].
  - now rewrite lookup_alter_eq, Hnone.
  - now rewrite lookup_alter_ne.
Qed.

Lemma update_absent (f : settings_row → settings_row) chat w :
  chat_settings (db w) !! chat = None →
  set_db (set_chat_settings (alter f chat (chat_settings (db w))) (db w)) w = w.
Proof.
  intros Hnone. rewrite alter_absent by exact Hnone.
  destruct w as [e [] c t k]. reflexivity.
Qed.

(** X22: without a row of settings the panel stores nothing and says it
    did.  In a chat that has no row in [chat_settings], /set_welcome and
    /set_rules with a text and /add_badword with a word, sent by an
    administrator, leave the store as it is, and their one call to the
    platform is the answer that the text was updated or the word added. *)
Theorem panel_without_row_stores_nothing (e : event) update success w m :
  panel_success e = Some (update, success) →
  fst (is_admin update w) = Ok true → message update = Some m →
  chat_settings (db w) !! effective_chat update = None →
  handler_of e w = api (ReplyText (effective_chat update) (message_id m) success) w.
Proof.
  intros Hcmd Hadmin Hm Hnone.
  destruct e; cbn in Hcmd; try discriminate;
    destruct (args context) as [|token rest] eqn:Hargs; try discriminate;
    injection Hcmd as -> <-; cbn [handler_of];
    unfold set_welcome_command, set_rules_command, add_badword_command;
    rewrite (as_panel_admin _ _ update w Hadmin), Hargs; cbv zeta.
  - erewrite bind_ok by apply run_update_welcome. cbv beta.
    rewrite update_absent by exact Hnone. now apply run_reply.
  - erewrite bind_ok by apply run_update_rules. cbv beta.
    rewrite update_absent by exact Hnone. now apply run_reply.
  - erewrite bind_ok by apply run_get_bad_words. cbv beta. rewrite Hnone.
    cbn [listed existsb negb].
    erewrite bind_ok by apply run_update_bad_words. cbv beta.
    rewrite update_absent by exact Hnone. now apply run_reply.
Qed.

Lemma panel_without_row_stores_nothing_witness :
  snd (add_badword_command sample_command (sample_context ["Spam"]) fresh_world) =
    record (ReplyText 1 100 (WordAdded "spam")) fresh_world ∧
  fst (get_bad_words 1 (snd (add_badword_command sample_command (sample_context ["Spam"])
                                                 fresh_world))) = Ok [].
Proof.
  pose proof (panel_without_row_stores_nothing
                (on_add_badword sample_command (sample_context ["Spam"]))
                sample_command _ fresh_world _ eq_refl eq_refl eq_refl eq_refl) as H.
  cbn [handler_of] in H. rewrite H. split; reflexivity.
Defined.

(** X23: /set_rules, then /rules.  After an administrator's /set_rules with
    a text in a chat that has a row of settings, /rules of anyone in that
    chat answers with the arguments joined by single spaces.  The welcome
    text and the settings of moderation of the chat are as before, and so
    are the settings of every other chat. *)
Theorem set_rules_then_rules update context w m settings :
  fst (is_admin update w) = Ok true → message update = Some m →
  args context ≠ [] →
  chat_settings (db w) !! effective_chat update = Some settings →
  let chat := effective_chat update in
  let text := String.concat " " (args context) in
  let w' := snd (set_rules_command update context w) in
  (∀ update2 context2 m2,
     effective_chat update2 = chat → message update2 = Some m2 →
     rules_command update2 context2 w' =
     api (ReplyText chat (message_id m2) (RulesText text)) w') ∧
  (∃ settings', chat_settings (db w') !! chat = Some settings' ∧
                welcome_message settings' = welcome_message settings ∧
                moderation settings' = moderation settings) ∧
  (∀ other, other ≠ chat →
            chat_settings (db w') !! other = chat_settings (db w) !! other).
Proof.
  intros Hadmin Hm Hargs Hrow. cbv zeta.
  assert (Hrun : snd (set_rules_command update context w) =
                 record (ReplyText (effective_chat update) (message_id m) RulesUpdated)
                   (set_db (set_chat_settings
                              (alter (with_rules (String.concat " " (args context)))
                                     (effective_chat update) (chat_settings (db w)))
                              (db w)) w)).
  { unfold set_rules_command. rewrite (as_panel_admin _ _ update w Hadmin).
    destruct (args context) as [|token rest]; [congruence|].
    erewrite bind_ok by apply run_update_rules. cbv beta.
    rewrite (run_reply _ _ _ m Hm), run_api. reflexivity. }
  rewrite Hrun. cbn [db record set_db chat_settings set_chat_settings].
  repeat apply conj.
  - intros update2 context2 m2 Hchat Hm2. unfold rules_command.
    erewrite bind_ok.
    2:{ unfold get_chat_settings, bind, get_db.
        cbn [db record set_db chat_settings set_chat_settings fst snd].
        rewrite Hchat, lookup_alter_eq, Hrow. reflexivity. }
    cbv beta. rewrite (run_reply _ _ _ m2 Hm2), Hchat. reflexivity.
  - rewrite lookup_alter_eq, Hrow. eexists. split; [reflexivity|]. split; reflexivity.
  - intros other Hother. now rewrite lookup_alter_ne.
Qed.

Lemma set_rules_then_rules_witness :
  calls (snd (rules_command (sample_message "/rules") (sample_context [])
                (snd (set_rules_command sample_command (sample_context ["be"; "kind"])
                                        sample_world)))) =
  [ReplyText 1 100 RulesUpdated; ReplyText 1 200 (RulesText "be kind")].
Proof.
  destruct (set_rules_then_rules sample_command (sample_context ["be"; "kind"])
              sample_world _ sample_settings eq_refl eq_refl) as (Hrules & _);
    [discriminate | reflexivity |].
  rewrite (Hrules (sample_message "/rules") (sample_context []) _ eq_refl eq_refl).
  reflexivity.
Defined.

Lemma listed_In word l : listed word l = true ↔ In word l.
Proof.
  unfold listed. rewrite existsb_exists. split.
  - intros (x & Hx & ->%String.eqb_eq). exact Hx.
  - intros Hin. exists word. split; [exact Hin | apply String.eqb_refl].
Qed.

Lemma listed_false word l : listed word l = false ↔ ¬ In word l.
Proof. rewrite <- listed_In. now destruct (listed word l). Qed.

(** The world that /add_badword leaves. *)
Lemma run_add_badword update context w m token rest settings :
  fst (is_admin update w) = Ok true → message update = Some m →
  args context = token :: rest →
  chat_settings (db w) !! effective_chat update = Some settings →
  let chat := effective_chat update in
  let word := lower token in
  snd (add_badword_command update context w) =
  if listed word (bad_words settings)
  then record (ReplyText chat (message_id m) (WordKnown word)) w
  else record (ReplyText chat (message_id m) (WordAdded word))
         (set_db (set_chat_settings
                    (alter (with_bad_words (bad_words settings ++ [word])) chat
                           (chat_settings (db w))) (db w)) w).
Proof.
  intros Hadmin Hm Hargs Hrow. cbv zeta. unfold add_badword_command.
  rewrite (as_panel_admin _ _ update w Hadmin), Hargs. cbv zeta.
  erewrite bind_ok by apply run_get_bad_words. cbv beta. rewrite Hrow.
  destruct (listed _ _); cbn [negb].
  - now rewrite (run_reply _ _ _ m Hm), run_api.
  - erewrite bind_ok by apply run_update_bad_words. cbv beta.
    now rewrite (run_reply _ _ _ m Hm), run_api.
Qed.

(** X24: /add_badword lists the word once.  After an administrator's
    /add_badword in a chat that has a row of settings, the list of banned
    words is the list of before, followed by nothing when the word in small
    letters was in it, and by that word otherwise.  So the word is in the
    list, the words of before keep their places, and a list without
    repetition stays without repetition. *)
Theorem add_badword_lists_word update context w m token rest settings :
  fst (is_admin update w) = Ok true → message update = Some m →
  args context = token :: rest →
  chat_settings (db w) !! effective_chat update = Some settings →
  let chat := effective_chat update in
  let word := lower token in
  let w' := snd (add_badword_command update context w) in
  ∃ added,
    fst (get_bad_words chat w') = Ok (bad_words settings ++ added) ∧
    In word (bad_words settings ++ added) ∧
    (In word (bad_words settings) → added = []) ∧
    (NoDup (bad_words settings) → NoDup (bad_words settings ++ added)).
Proof.
  intros Hadmin Hm Hargs Hrow. cbv zeta.
  rewrite (run_add_badword update context w m token rest settings Hadmin Hm Hargs Hrow).
  rewrite run_get_bad_words. cbn [fst].
  destruct (listed (lower token) (bad_words settings)) eqn:Hlisted.
  - exists []. cbn [db record]. rewrite Hrow, app_nil_r.
    apply listed_In in Hlisted. auto.
  - exists [lower token]. cbn [db record set_db chat_settings set_chat_settings].
    rewrite lookup_alter_eq, Hrow. cbn.
    apply listed_false in Hlisted.
    repeat apply conj; [reflexivity | apply in_or_app; right; now left | tauto |].
    intros Hnodup. apply NoDup_app. repeat apply conj; [exact Hnodup | | apply NoDup_singleton].
    intros x Hx ->%list_elem_of_singleton. apply Hlisted. now apply list_elem_of_In.
Qed.

Lemma add_badword_lists_word_witness :
  ∃ added,
    fst (get_bad_words 1 (snd (add_badword_command sample_command
                                 (sample_context ["Viagra"]) sample_world))) =
      Ok ("spam" :: added) ∧
    In "viagra" ("spam" :: added).
Proof.
  destruct (add_badword_lists_word sample_command (sample_context ["Viagra"]) sample_world
              _ "Viagra" [] sample_settings eq_refl eq_refl eq_refl eq_refl)
    as (added & Hwords & Hin & _).
  exists added. exact (conj Hwords Hin).
Defined.

Lemma remove_first_last word l :
  ¬ In word l → remove_first word (l ++ [word]) = l.
Proof.
  induction l as [|x l IH]; intros Hnot; cbn [remove_first app].
  - now rewrite String.eqb_refl.
  - destruct (String.eqb_spec word x) as [->|Hne].
    + exfalso. apply Hnot. now left.
    + rewrite IH; [reflexivity|]. intros Hin. apply Hnot. now right.
Qed.

(** X25: /remove_badword undoes /add_badword.  In a chat that has a row of
    settings, when the word in small letters is not in the list of banned
    words, an administrator's /add_badword followed by /remove_badword of
    the same word leaves the list as it was before the two commands. *)
Theorem remove_badword_undoes_add update context w m token rest settings :
  fst (is_admin update w) = Ok true → message update = Some m →
  args context = token :: rest →
  chat_settings (db w) !! effective_chat update = Some settings →
  ¬ In (lower token) (bad_words settings) →
  let chat := effective_chat update in
  let w1 := snd (add_badword_command update context w) in
  let w2 := snd (remove_badword_command update context w1) in
  fst (get_bad_words chat w1) = Ok (bad_words settings ++ [lower token]) ∧
  fst (get_bad_words chat w2) = Ok (bad_words settings).
Proof.
  intros Hadmin Hm Hargs Hrow Hnot. cbv zeta.
  rewrite (run_add_badword update context w m token rest settings Hadmin Hm Hargs Hrow).
  apply listed_false in Hnot. rewrite Hnot.
  match goal with |- context [record ?c ?x] => set (w1 := record c x) end.
  assert (Hrow1 : chat_settings (db w1) !! effective_chat update =
                  Some (with_bad_words (bad_words settings ++ [lower token]) settings)).
  { cbn. now rewrite lookup_alter_eq, Hrow. }
  split; [now rewrite run_get_bad_words, Hrow1|].
  assert (Hadmin1 : fst (is_admin update w1) = Ok true)
    by (rewrite <- Hadmin; now apply is_admin_env).
  unfold remove_badword_command.
  rewrite (as_panel_admin _ _ update w1 Hadmin1), Hargs. cbv zeta.
  erewrite bind_ok by apply run_get_bad_words. cbv beta. rewrite Hrow1.
  cbn [bad_words with_bad_words].
  assert (Hlisted : listed (lower token) (bad_words settings ++ [lower token]) = true)
    by (apply listed_In, in_or_app; right; now left).
  rewrite Hlisted.
  erewrite bind_ok by apply run_update_bad_words. cbv beta.
  rewrite (run_reply _ _ _ m Hm), run_api, run_get_bad_words.
  cbn [fst snd db record set_db chat_settings set_chat_settings].
  rewrite lookup_alter_eq, Hrow1. cbn [fmap option_fmap option_map bad_words with_bad_words].
  f_equal. apply remove_first_last. now apply listed_false.
Qed.

Lemma remove_badword_undoes_add_witness :
  fst (get_bad_words 1
         (snd (remove_badword_command sample_command (sample_context ["Viagra"])
                 (snd (add_badword_command sample_command (sample_context ["Viagra"])
                                           sample_world))))) = Ok ["spam"].
Proof.
  refine (proj2 (remove_badword_undoes_add sample_command (sample_context ["Viagra"])
                   sample_world _ "Viagra" [] sample_settings
                   eq_refl eq_refl eq_refl eq_refl _)).
  intros [H|[]]. discriminate H.
Defined.

End Panel.

(* ===================================================================== *)
(** * The filter of words *)
(* ===================================================================== *)

Section Filter.
Import Utils Process Database Bot Notions.

Lemma run_get_chat_settings chat w settings :
  chat_settings (db w) !! chat = Some settings →
  get_chat_settings chat w = (Ok settings, w).
Proof. intros H. unfold get_chat_settings, bind, get_db. cbn. now rewrite H. Qed.

Lemma is_muted_settings chat user w :
  chat_settings (db (snd (is_muted chat user w))) = chat_settings (db w).
Proof.
  rewrite run_is_muted. destruct (mute_of chat user w); [|reflexivity].
  now destruct (_ <? _).
Qed.

(** A text message of a sender who is not muted, in a chat with the flood
    control off: the statistics are updated and the words are checked. *)
Lemma handle_messages_off w update context m txt settings :
  let chat := effective_chat update in
  let user := effective_user update in
  message update = Some m → text m = Some txt → txt ≠ EmptyString →
  fst (is_muted chat user w) = Ok false →
  chat_settings (db w) !! chat = Some settings →
  antiflood_enabled settings = false →
  handle_messages update context w =
  words_check update context m settings txt
    (snd (update_user_stats chat user (snd (is_muted chat user w)))).
Proof.
  cbv zeta. intros Hm Htxt Hne Hmuted Hrow Hoff.
  pose proof (is_muted_settings (effective_chat update) (effective_user update) w)
    as Hsame.
  destruct (is_muted (effective_chat update) (effective_user update) w)
    as [r w1] eqn:Hrun.
  cbn [fst snd] in *. subst r.
  unfold handle_messages. rewrite Hm, Htxt.
  destruct txt as [|c0 txt0]; [congruence|].
  erewrite bind_ok by exact Hrun. cbv beta iota.
  erewrite bind_ok by apply run_update_user_stats. cbv beta.
  rewrite run_update_user_stats. cbn [snd].
  erewrite bind_ok.
  2:{ apply run_get_chat_settings.
      cbn [set_db db set_user_stats chat_settings tick]. rewrite Hsame. exact Hrow. }
  cbv beta zeta. rewrite Hoff. reflexivity.
Qed.

(** A text message that is no flood ends in the check of the words, in a
    world with the calls, the warnings and the settings of before. *)
Lemma handle_messages_calm w update context m txt settings :
  let chat := effective_chat update in
  let user := effective_user update in
  message update = Some m → text m = Some txt → txt ≠ EmptyString →
  mute_of chat user w = None →
  chat_settings (db w) !! chat = Some settings →
  calm update settings w →
  ∃ wf,
    env wf = env w ∧ (ticks w < ticks wf)%nat ∧ calls wf = calls w ∧
    chat_settings (db wf) = chat_settings (db w) ∧
    warnings (db wf) = warnings (db w) ∧
    handle_messages update context w = words_check update context m settings txt wf.
Proof.
  cbv zeta. intros Hm Htxt Hne Hmute Hrow Hcalm.
  destruct (antiflood_enabled settings) eqn:Hflood.
  - destruct (Hcalm Hflood) as [Hholds Hwindow].
    destruct (handle_messages_open w update context m txt settings
                Hm Htxt Hne Hmute Hrow Hflood Hholds)
      as (wf & Henv & Hticks & Hcalls & Hset & _ & Hwarn & _ & Hrun).
    exists wf. repeat apply conj; auto; [lia|].
    rewrite Hrun.
    now apply Z.ltb_ge in Hwindow as ->.
  - assert (His : is_muted (effective_chat update) (effective_user update) w = (Ok false, w))
      by (rewrite run_is_muted, Hmute; reflexivity).
    eexists. repeat apply conj.
    6:{ rewrite (handle_messages_off w update context m txt settings Hm Htxt Hne);
          [rewrite His; reflexivity | now rewrite His | exact Hrow | exact Hflood]. }
    all: rewrite run_update_user_stats; cbn; auto.
Qed.

(** The row that the filter stores for [word]. *)
Lemma anti_mat_block update context m settings text_lower word rest w :
  let chat := effective_chat update in
  let user := effective_user update in
  contains (lower word) text_lower = true →
  let w' := snd (anti_mat update context m settings text_lower (word :: rest) w) in
  ∃ more,
    calls w' = calls w ++ DeleteMessage chat (message_id m) :: more ∧
    (accepts (env w) (length (calls w)) (DeleteMessage chat (message_id m)) = true →
     collides chat user (now w) (warnings (db w)) = false →
     ∃ row, warnings (db w') = warnings (db w) ++ [row] ∧
            of_user chat user row = true).
Proof.
  cbv zeta. intros Hfound. cbn [anti_mat]. rewrite Hfound. cbv zeta.
  unfold try_except, bind, delete. rewrite run_api.
  destruct (accepts (env w) (length (calls w)) _); cbn [fst snd ret].
  2:{ exists []. split; [reflexivity | discriminate]. }
  rewrite run_add_warning.
  change (collides _ _ (now (record _ w)) (warnings (db (record _ w))))
    with (collides (effective_chat update) (effective_user update) (now w)
            (warnings (db w))).
  destruct (collides _ _ _ _); cbn [fst snd ret].
  { exists []. split; [reflexivity | discriminate]. }
  assert (Hrow : ∀ r, of_user (effective_chat update) (effective_user update)
                   {| id := sqlite_sequence (db w) + 1;
                      chat_id := effective_chat update;
                      user_id := effective_user update;
                      warned_by := bot_id context; reason := r;
                      created_at := now w |} = true).
  { intros r. unfold of_user. cbn. now rewrite !Z.eqb_refl. }
  rewrite run_api. destruct (accepts _ _ _); cbn [fst snd ret].
  2:{ eexists [_]. split; [cbn; now rewrite <- !app_assoc|].
      intros _ _. eexists. split; [reflexivity | apply Hrow]. }
  destruct (_ <=? _).
  2:{ eexists [_]. split; [cbn; now rewrite <- !app_assoc|].
      intros _ _. eexists. split; [reflexivity | apply Hrow]. }
  rewrite run_api. destruct (accepts _ _ _); cbn [fst snd ret].
  2:{ eexists [_; _]. split; [cbn; now rewrite <- !app_assoc|].
      intros _ _. eexists. split; [reflexivity | apply Hrow]. }
  rewrite run_api. destruct (accepts _ _ _); cbn [fst snd ret];
    (eexists [_; _; _]; split; [cbn; now rewrite <- !app_assoc|];
     intros _ _; eexists; split; [reflexivity | apply Hrow]).
Qed.

Lemma anti_mat_catches update context m settings text_lower words w :
  let chat := effective_chat update in
  let user := effective_user update in
  Exists (λ word, contains (lower word) text_lower = true) words →
  let w' := snd (anti_mat update context m settings text_lower words w) in
  ∃ more,
    calls w' = calls w ++ DeleteMessage chat (message_id m) :: more ∧
    (accepts (env w) (length (calls w)) (DeleteMessage chat (message_id m)) = true →
     collides chat user (now w) (warnings (db w)) = false →
     ∃ row, warnings (db w') = warnings (db w) ++ [row] ∧
            of_user chat user row = true).
Proof.
  cbv zeta. induction words as [|word rest IH]; intros Hex; [inversion Hex|].
  destruct (contains (lower word) text_lower) eqn:Hfound.
  - now apply anti_mat_block.
  - cbn [anti_mat]. rewrite Hfound. apply IH.
    inversion Hex; subst; [congruence | assumption].
Qed.

(** X26: a listed word is caught.  When a text message that is no flood
    comes from a sender who is not muted, and its text in small letters
    contains a banned word of the chat in small letters, the first thing the
    handler asks of the platform is to delete the message.  On a platform
    that accepts every call, with a clock that moves on and no warning of
    the sender dated in the future, the sender then has one warning more. *)
Theorem listed_word_is_caught update context w m txt settings word :
  let chat := effective_chat update in
  let user := effective_user update in
  message update = Some m → text m = Some txt → txt ≠ EmptyString →
  mute_of chat user w = None →
  chat_settings (db w) !! chat = Some settings →
  calm update settings w →
  In word (bad_words settings) → contains (lower word) (lower txt) = true →
  let w' := snd (handle_messages update context w) in
  (∃ more, calls w' = calls w ++ DeleteMessage chat (message_id m) :: more) ∧
  (cooperative (env w) → increasing_clock (env w) → older_than_clock chat user w →
   warning_count chat user w' = warning_count chat user w + 1).
Proof.
  cbv zeta. intros Hm Htxt Hne Hmute Hrow Hcalm Hin Hfound.
  destruct (handle_messages_calm w update context m txt settings
              Hm Htxt Hne Hmute Hrow Hcalm)
    as (wf & Henv & Hticks & Hcalls & Hset & Hwarn & Hrun).
  rewrite Hrun. unfold words_check.
  erewrite bind_ok by apply run_get_bad_words. cbv beta. rewrite Hset, Hrow.
  destruct (anti_mat_catches update context m settings (lower txt) (bad_words settings) wf)
    as (more & Hmore & Hadded).
  { apply Exists_exists. exists word. split; [now apply list_elem_of_In | exact Hfound]. }
  split; [exists more; now rewrite Hmore, Hcalls|].
  intros Hcoop Hclock Hold.
  destruct Hadded as (row & Hrows & Huser).
  - rewrite Henv. apply Hcoop.
  - apply collides_fresh. intros r Hr Hu. rewrite Hwarn in Hr.
    specialize (Hold r Hr Hu). unfold now in *. rewrite Henv.
    specialize (Hclock _ _ Hticks). lia.
  - unfold warning_count. rewrite Hrows, Hwarn, List.filter_app, length_app.
    cbn [List.filter]. rewrite Huser. cbn [length]. lia.
Qed.

Lemma listed_word_is_caught_witness :
  let w1 := snd (add_badword_command sample_command (sample_context ["Viagra"])
                                     sample_world) in
  let w2 := snd (handle_messages (sample_message "buy VIAGRA now") (sample_context [])
                                 w1) in
  (∃ more, calls w2 = calls w1 ++ DeleteMessage 1 200 :: more) ∧
  warning_count 1 9 w2 = warning_count 1 9 w1 + 1.
Proof.
  cbv zeta.
  set (w1 := snd (add_badword_command sample_command (sample_context ["Viagra"])
                                      sample_world)).
  assert (Hcalm : calm (sample_message "buy VIAGRA now")
                       (with_bad_words ["spam"; "viagra"] sample_settings) w1).
  { intros _. cbv zeta. split; [split; [vm_compute; reflexivity | exact I]|].
    vm_compute. discriminate. }
  destruct (listed_word_is_caught (sample_message "buy VIAGRA now") (sample_context [])
              w1 _ "buy VIAGRA now" (with_bad_words ["spam"; "viagra"] sample_settings)
              "viagra" eq_refl eq_refl) as [Hcalls Hcount];
    [discriminate | reflexivity | reflexivity | exact Hcalm
    | right; left; reflexivity | reflexivity |].
  split; [exact Hcalls|].
  apply Hcount.
  - exact sample_cooperative.
  - exact sample_increasing.
  - intros r [].
Defined.

(** ** One warning for one message *)

#[local] Instance same_warnings_preorder : PreOrder same_warnings.
Proof.
  split.
  - intros w. reflexivity.
  - intros w1 w2 w3 H12 H23. unfold same_warnings in *. congruence.
Qed.

Lemma rows_api c : keeps same_warnings (api c).
Proof. intros w. unfold same_warnings, api. now destruct (accepts _ _ _). Qed.

Lemma rows_datetime_now : keeps same_warnings datetime_now.
Proof. intros w. reflexivity. Qed.

Lemma rows_add_mute chat user d : keeps same_warnings (add_mute chat user d).
Proof.
  intros w. unfold same_warnings. rewrite run_add_mute.
  destruct (timedelta d); [|reflexivity]. now destruct (datetime_add _ _).
Qed.

Lemma rows_is_muted chat user : keeps same_warnings (is_muted chat user).
Proof.
  intros w. unfold same_warnings. rewrite run_is_muted.
  destruct (mute_of chat user w); [|reflexivity]. now destruct (_ <? _).
Qed.

Lemma rows_update_user_stats chat user : keeps same_warnings (update_user_stats chat user).
Proof. intros w. reflexivity. Qed.

Lemma rows_get_chat_settings chat : keeps same_warnings (get_chat_settings chat).
Proof.
  intros w. unfold same_warnings, get_chat_settings, bind, get_db.
  now destruct (chat_settings (db w) !! _).
Qed.

Lemma rows_get_bad_words chat : keeps same_warnings (get_bad_words chat).
Proof. intros w. unfold same_warnings. now rewrite run_get_bad_words. Qed.

Lemma rows_cache_contains key : keeps same_warnings (cache_contains key).
Proof.
  intros w. unfold same_warnings, cache_contains.
  now destruct (flood_cache w !! _) as [[]|].
Qed.

Lemma rows_cache_get key : keeps same_warnings (cache_get key).
Proof.
  intros w. unfold same_warnings, cache_get.
  destruct (flood_cache w !! _) as [[]|]; [|reflexivity]. now destruct (_ <? _).
Qed.

Lemma rows_cache_set key v : keeps same_warnings (cache_set key v).
Proof. intros w. reflexivity. Qed.

Lemma rows_cache_append key x : keeps same_warnings (cache_append key x).
Proof.
  intros w. unfold same_warnings, cache_append.
  destruct (flood_cache w !! _) as [[]|]; [|reflexivity]. now destruct (_ <? _).
Qed.

Create HintDb rows.

#[local] Hint Resolve rows_api rows_datetime_now rows_add_mute rows_is_muted
  rows_update_user_stats rows_get_chat_settings rows_get_bad_words rows_cache_contains
  rows_cache_get rows_cache_set rows_cache_append : rows.

(** One step through a computation that stores no warning. *)
Ltac along :=
  first
    [ apply keeps_ret; exact _
    | apply keeps_raise; exact _
    | apply keeps_lift; exact _
    | solve [unfold reply_text, delete; auto with rows]
    | apply keeps_bind; [exact _ | | intros ?]
    | apply keeps_try_except; [exact _ | | intros ?]
    | lazymatch goal with
      | |- keeps _ (if ?b then _ else _) => destruct b
      | |- keeps _ (match ?x with _ => _ end) => destruct x
      end
    | progress cbv zeta ].

Section Once.
Context (chat user by_user : Z).

Lemma warns_once_keeps {A} (m : M A) :
  keeps same_warnings m → warns_once chat user by_user m.
Proof.
  intros H w. exists []. rewrite app_nil_r. repeat apply conj; [apply H | cbn; lia | constructor].
Qed.

Lemma warns_once_after {A B} (m : M A) (f : A → M B) :
  keeps same_warnings m → (∀ a, warns_once chat user by_user (f a)) →
  warns_once chat user by_user (bind m f).
Proof.
  intros Hm Hf w. unfold bind. specialize (Hm w). unfold same_warnings in Hm.
  destruct (m w) as [[a|e] w1]; cbn [snd] in *.
  - destruct (Hf a w1) as (added & Hadded & Hlen & Hall).
    exists added. rewrite Hadded, Hm. auto.
  - exists []. rewrite app_nil_r. repeat apply conj; [exact Hm | cbn; lia | constructor].
Qed.

Lemma warns_once_before {A B} (m : M A) (f : A → M B) :
  warns_once chat user by_user m → (∀ a, keeps same_warnings (f a)) →
  warns_once chat user by_user (bind m f).
Proof.
  intros Hm Hf w. unfold bind. destruct (Hm w) as (added & Hadded & Hlen & Hall).
  destruct (m w) as [[a|e] w1]; cbn [snd] in *.
  - exists added. specialize (Hf a w1). unfold same_warnings in Hf.
    rewrite Hf, Hadded. auto.
  - exists added. auto.
Qed.

Lemma warns_once_try {A} (body : M A) (handler : exn → M A) :
  warns_once chat user by_user body → (∀ e, keeps same_warnings (handler e)) →
  warns_once chat user by_user (try_except body handler).
Proof.
  intros Hm Hf w. unfold try_except. destruct (Hm w) as (added & Hadded & Hlen & Hall).
  destruct (body w) as [[a|e] w1]; cbn [snd] in *.
  - exists added. auto.
  - exists added. specialize (Hf e w1). unfold same_warnings in Hf.
    rewrite Hf, Hadded. auto.
Qed.

Lemma warns_once_add_warning why :
  warns_once chat user by_user (add_warning chat user by_user why).
Proof.
  intros w. rewrite run_add_warning. destruct (collides _ _ _ _); cbn [snd].
  - exists []. rewrite app_nil_r. repeat apply conj; [reflexivity | cbn; lia | constructor].
  - eexists [_]. repeat apply conj; [reflexivity | cbn; lia |].
    constructor; [|constructor]. cbn. auto.
Qed.

End Once.

Lemma warns_once_anti_mat update context m settings text_lower words :
  warns_once (effective_chat update) (effective_user update) (bot_id context)
             (anti_mat update context m settings text_lower words).
Proof.
  induction words as [|word rest IH]; cbn [anti_mat].
  - apply warns_once_keeps. along.
  - destruct (contains _ _); [|exact IH]. cbv zeta.
    apply warns_once_try; [|intros; along].
    apply warns_once_after; [along|]. intros _.
    apply warns_once_before; [apply warns_once_add_warning|].
    intros warn_count. repeat along.
Qed.

(** X27: one message, at most one warning.  Whatever the message, the
    settings and the answers of the platform, the handler of text messages
    deletes no warning and stores at most one, at the end of the table: a
    warning of the sender in the chat of the message, given in the name of
    the bot.  A text with several banned words is warned once. *)
Theorem handle_messages_warns_once update context w :
  let w' := snd (handle_messages update context w) in
  ∃ added,
    warnings (db w') = warnings (db w) ++ added ∧
    (length added ≤ 1)%nat ∧
    Forall (λ r, chat_id r = effective_chat update ∧
                 user_id r = effective_user update ∧
                 warned_by r = bot_id context) added.
Proof.
  cbv zeta. revert w.
  change (warns_once (effective_chat update) (effective_user update) (bot_id context)
            (handle_messages update context)).
  unfold handle_messages.
  destruct (message update) as [m|]; [|apply warns_once_keeps; along].
  destruct (text m) as [[|c txt]|]; try solve [apply warns_once_keeps; along].
  cbv zeta.
  apply warns_once_after; [along|]. intros [|].
  { apply warns_once_keeps. repeat along. }
  apply warns_once_after; [along|]. intros _.
  apply warns_once_after; [along|]. intros settings.
  assert (Hwords : warns_once (effective_chat update) (effective_user update)
                     (bot_id context)
                     (bind (get_bad_words (effective_chat update))
                           (λ bad_words, anti_mat update context m settings
                                           (lower (String c txt)) bad_words))).
  { apply warns_once_after; [along|]. intros; apply warns_once_anti_mat. }
  destruct (antiflood_enabled settings); [|exact Hwords].
  apply warns_once_after; [along|]. intros known.
  apply warns_once_after; [repeat along|]. intros _.
  apply warns_once_after; [along|]. intros current_time.
  apply warns_once_after; [along|]. intros _.
  apply warns_once_after; [along|]. intros window.
  apply warns_once_after; [along|]. intros _.
  apply warns_once_after; [along|]. intros window'.
  destruct (_ <? _); [|exact Hwords].
  apply warns_once_keeps. repeat along.
Qed.

(** ** With the flood control off *)

Lemma is_muted_effect chat user w :
  let w1 := snd (is_muted chat user w) in
  flood_cache w1 = flood_cache w ∧ calls w1 = calls w ∧
  (∀ key t, muted_users (db w1) !! key = Some t → muted_users (db w) !! key = Some t) ∧
  ∃ b, fst (is_muted chat user w) = Ok b.
Proof.
  cbv zeta. rewrite run_is_muted. destruct (mute_of chat user w) as [t|].
  - destruct (now w <? t); cbn; repeat apply conj; eauto.
    intros key t' [_ H]%lookup_delete_Some. exact H.
  - cbn. repeat apply conj; eauto.
Qed.

(** X28: with the flood control off nobody is muted for a flood.  In a chat
    whose settings have the flood control off, the handler of text messages
    leaves the flood windows as they are, asks the platform for no
    restriction of a member, and stores no mute: every mute in the store
    after the message was in it before. *)
Theorem antiflood_off_never_mutes update context w settings :
  chat_settings (db w) !! effective_chat update = Some settings →
  antiflood_enabled settings = false →
  let w' := snd (handle_messages update context w) in
  flood_cache w' = flood_cache w ∧
  (∀ key t, muted_users (db w') !! key = Some t → muted_users (db w) !! key = Some t) ∧
  ∃ new, calls w' = calls w ++ new ∧ Forall (λ c, is_restrict c = false) new.
Proof.
  intros Hrow Hoff. cbv zeta.
  assert (Hidle : flood_cache w = flood_cache w ∧
                  (∀ key t, muted_users (db w) !! key = Some t →
                            muted_users (db w) !! key = Some t) ∧
                  ∃ new, calls w = calls w ++ new ∧
                         Forall (λ c, is_restrict c = false) new).
  { repeat apply conj; auto. exists []. now rewrite app_nil_r. }
  destruct (message update) as [m|] eqn:Hm;
    [|unfold handle_messages; rewrite Hm; exact Hidle].
  destruct (text m) as [txt|] eqn:Htxt;
    [|unfold handle_messages; rewrite Hm, Htxt; exact Hidle].
  destruct (string_dec txt EmptyString) as [->|Hne];
    [unfold handle_messages; rewrite Hm, Htxt; exact Hidle|].
  clear Hidle.
  destruct (is_muted_effect (effective_chat update) (effective_user update) w)
    as (Hcache & Hcalls & Hmutes & [[|] Hb]).
  - rewrite (handle_messages_muted w update context m txt Hm Htxt Hne Hb). cbn.
    repeat apply conj; auto. eexists [_]. split; [reflexivity|].
    constructor; [reflexivity | constructor].
  - rewrite (handle_messages_off w update context m txt settings Hm Htxt Hne Hb Hrow Hoff).
    match goal with |- context [words_check _ _ _ _ _ ?x] => set (wb := x) end.
    destruct (frames_words_check update context m settings txt wb)
      as (_ & _ & Hmu & Hfc & _ & new & Hnew & Hall).
    assert (Hwb : flood_cache wb = flood_cache (snd (is_muted (effective_chat update)
                                                       (effective_user update) w)) ∧
                  muted_users (db wb) = muted_users (db (snd (is_muted (effective_chat update)
                                                       (effective_user update) w))) ∧
                  calls wb = calls (snd (is_muted (effective_chat update)
                                                  (effective_user update) w))).
    { unfold wb. rewrite run_update_user_stats. cbn. auto. }
    destruct Hwb as (Hwb1 & Hwb2 & Hwb3).
    repeat apply conj.
    + now rewrite Hfc, Hwb1.
    + intros key t. rewrite Hmu, Hwb2. apply Hmutes.
    + exists new. split; [now rewrite Hnew, Hwb3, Hcalls | exact Hall].
Qed.

Lemma antiflood_off_never_mutes_witness :
  let quiet_chat :=
    set_db (set_chat_settings
              {[ 1 := {| welcome_message := "welcome"; rules := "rules"; warn_limit := 3;
                         antiflood_enabled := false; antiflood_count := 0;
                         antiflood_seconds := 10; bad_words := ["spam"];
                         banned_links := []; slowmode_enabled := false;
                         slowmode_seconds := 5 |} ]} sample_db) sample_world in
  let w' := snd (handle_messages (sample_message "hello") (sample_context []) quiet_chat) in
  flood_cache w' = ∅ ∧ muted_users (db w') !! (1, 9) = None.
Proof.
  cbv zeta.
  match goal with |- context [handle_messages _ _ ?x] => set (w0 := x) end.
  destruct (antiflood_off_never_mutes (sample_message "hello") (sample_context []) w0 _
              eq_refl eq_refl) as (Hcache & Hmutes & _).
  split; [exact Hcache|].
  destruct (muted_users (db (snd (handle_messages (sample_message "hello")
                                    (sample_context []) w0))) !! (1, 9)) as [t|] eqn:Ht;
    [|reflexivity].
  apply Hmutes in Ht. discriminate Ht.
Defined.

End Filter.

(* ===================================================================== *)
(** * A store without settings *)
(* ===================================================================== *)

Section FreshStore.
Import Utils Process Database Bot Notions.

(** /warn in a chat without a row of settings: the warning is stored, and
    the read of the settings raises before the limit is looked at. *)
Lemma warn_command_rowless w update context m target :
  fst (is_admin update w) = Ok true →
  message update = Some m → reply_to_message m = Some target →
  chat_settings (db w) !! effective_chat update = None →
  collides (effective_chat update) target (now w) (warnings (db w)) = false →
  warn_command update context w =
  (Raise NameError,
   with_warning (effective_chat update) target (effective_user update)
                (warn_reason context) w).
Proof.
  intros Hadmin Hm Hreply Hnone Hfree.
  unfold warn_command, bind at 1.
  destruct (is_admin_ok update w) as [b Hb]. rewrite Hb in Hadmin |- *.
  injection Hadmin as ->. unfold bind at 1, the_message. rewrite Hm.
  unfold ret at 1. cbn [negb]. rewrite Hreply.
  fold (warn_reason context).
  unfold bind at 1. rewrite run_add_warning, Hfree.
  fold (with_warning (effective_chat update) target (effective_user update)
          (warn_reason context) w).
  unfold bind at 1, get_chat_settings, bind at 1, get_db.
  cbn [with_warning set_db db set_warnings chat_settings]. now rewrite Hnone.
Qed.

(** However many /warn commands the administrators send there, the warnings
    pile up and the platform hears nothing. *)
Lemma warned_rowless w l chat target :
  Forall (warns chat target w) l →
  chat_settings (db w) !! chat = None →
  increasing_clock (env w) →
  older_than_clock chat target w →
  let wl := warned l w in
  env wl = env w ∧
  chat_settings (db wl) = chat_settings (db w) ∧
  older_than_clock chat target wl ∧
  warning_count chat target wl = warning_count chat target w + Z.of_nat (length l) ∧
  calls wl = calls w.
Proof.
  intros Hl Hnone Hclock Hold. cbv zeta.
  induction l as [|[update context] l IH] using rev_ind.
  - cbn [warned length]. repeat apply conj; try reflexivity; try assumption. lia.
  - apply Forall_app in Hl as [Hl Hlast]. rewrite length_app. cbn [length].
    destruct (IH Hl) as (Henv & Hsets & Holdk & Hcount & Hcalls).
    rewrite warned_app. cbn [warned]. set (wk := warned l w) in *.
    apply Forall_inv in Hlast as (Hchat & Hadmin & m & Hm & Hreply).
    cbn [fst] in Hchat, Hadmin, Hm. subst chat.
    assert (Hadmink : fst (is_admin update wk) = Ok true)
      by now rewrite (is_admin_env update wk w Henv).
    assert (Hnonek : chat_settings (db wk) !! effective_chat update = None)
      by now rewrite Hsets.
    rewrite (warn_command_rowless wk update context m target
               Hadmink Hm Hreply Hnonek (collides_fresh _ _ _ Holdk)).
    cbn [snd]. repeat apply conj.
    + exact Henv.
    + exact Hsets.
    + intros r Hin Hu.
      assert (Hnext : now wk < now (tick wk)).
      { unfold now. cbn [tick env ticks]. rewrite Henv. apply Hclock. lia. }
      cbn [with_warning set_db db warnings set_warnings] in Hin.
      change (now (with_warning _ _ _ _ wk)) with (now (tick wk)).
      apply in_app_or in Hin as [Hin | [<- | []]].
      * specialize (Holdk r Hin Hu). lia.
      * exact Hnext.
    + unfold warning_count in Hcount |- *.
      cbn [with_warning set_db db warnings set_warnings].
      rewrite List.filter_app, length_app. cbn [List.filter].
      unfold of_user at 2. cbn [chat_id user_id]. rewrite !Z.eqb_refl.
      cbn [andb length]. lia.
    + exact Hcalls.
Qed.

(** C1 fails on the code.  On the store that [create_tables] leaves, an
    administrator warns user 9 in chat 1, again and again.  The chat has no
    row of settings, and [get_chat_settings], in place of inserting the row
    of the defaults with the limit 3, raises [NameError]: every /warn stores
    its warning and ends there.  After [k] commands, whatever [k], the user
    has [k] warnings, no call was made to the platform, so nobody was banned
    and nothing was cleared, and the next /warn raises again. *)
Theorem warn_on_fresh_store_never_bans :
  ∀ k : nat,
    let wk := warned (repeat (sample_command, sample_context ["spam"]) k) fresh_world in
    warning_count 1 9 wk = Z.of_nat k ∧
    calls wk = [] ∧
    fst (warn_command sample_command (sample_context ["spam"]) wk) = Raise NameError.
Proof.
  intros k. cbv zeta.
  assert (Hall : Forall (warns 1 9 fresh_world)
                   (repeat (sample_command, sample_context ["spam"]) k)).
  { induction k as [|k IH]; cbn [repeat]; constructor; [|exact IH].
    repeat split. eexists. split; reflexivity. }
  assert (Hold : older_than_clock 1 9 fresh_world) by (intros r []).
  destruct (warned_rowless fresh_world _ 1 9 Hall eq_refl sample_increasing Hold)
    as (Henv & Hsets & Holdk & Hcount & Hcalls).
  rewrite repeat_length in Hcount.
  repeat apply conj; [exact Hcount | exact Hcalls |].
  erewrite (warn_command_rowless _ sample_command (sample_context ["spam"]) _ 9);
    [reflexivity | | reflexivity | reflexivity | | ].
  - now rewrite (is_admin_env sample_command _ fresh_world Henv).
  - now rewrite Hsets.
  - now apply collides_fresh.
Qed.

(** A text message of a sender with no stored mute, in a chat without a row
    of settings: the message is counted and the handler raises. *)
Lemma handle_messages_rowless w update context :
  from_user (effective_chat update) (effective_user update) (update, context) →
  mute_of (effective_chat update) (effective_user update) w = None →
  chat_settings (db w) !! effective_chat update = None →
  handle_messages update context w =
  (Raise NameError,
   snd (update_user_stats (effective_chat update) (effective_user update) w)).
Proof.
  intros (_ & _ & m & txt & Hm & Htxt & Hne) Hmute Hnone. cbn [fst] in Hm.
  unfold handle_messages. rewrite Hm, Htxt.
  destruct txt as [|c0 txt0]; [congruence|].
  erewrite bind_ok by (rewrite run_is_muted, Hmute; reflexivity). cbv beta iota.
  erewrite bind_ok by apply run_update_user_stats. cbv beta.
  rewrite run_update_user_stats. cbn [snd].
  unfold bind at 1. unfold get_chat_settings, bind, get_db.
  cbn [set_db db set_user_stats chat_settings tick fst snd]. now rewrite Hnone.
Qed.

(** However many messages the user sends there, nothing is muted, no window
    is kept and the platform hears nothing; each message reads the clock
    once, for the statistics. *)
Lemma handled_rowless w l chat user :
  Forall (from_user chat user) l →
  mute_of chat user w = None →
  chat_settings (db w) !! chat = None →
  let wl := handled l w in
  env wl = env w ∧
  chat_settings (db wl) = chat_settings (db w) ∧
  muted_users (db wl) = muted_users (db w) ∧
  warnings (db wl) = warnings (db w) ∧
  flood_cache wl = flood_cache w ∧
  calls wl = calls w ∧
  ticks wl = (ticks w + length l)%nat.
Proof.
  intros Hl Hmute Hnone. cbv zeta.
  induction l as [|[update context] l IH] using rev_ind.
  - cbn [handled length]. repeat apply conj; try reflexivity. lia.
  - apply Forall_app in Hl as [Hl Hlast]. rewrite length_app. cbn [length].
    destruct (IH Hl) as (Henv & Hsets & Hmutes & Hwarns & Hcache & Hcalls & Hticks).
    rewrite handled_app. cbn [handled]. set (wk := handled l w) in *.
    apply Forall_inv in Hlast. pose proof Hlast as (Hchat & Huser & _).
    cbn [fst] in Hchat, Huser. subst chat user.
    rewrite (handle_messages_rowless wk update context Hlast).
    + rewrite run_update_user_stats. cbn.
      repeat apply conj; try assumption. lia.
    + unfold mute_of in *. now rewrite Hmutes.
    + now rewrite Hsets.
Qed.

(** C3 fails on the code.  On the store that [create_tables] leaves, user 9
    sends text messages in chat 1, one millisecond apart.  The chat has no
    row of settings, and [get_chat_settings], in place of inserting the row
    of the defaults (flood control on, 5 messages in 10 seconds), raises
    [NameError] before the flood control is reached.  After [k] messages,
    whatever [k], and so after six of them within six milliseconds, no mute
    is stored, no flood window exists and no call was made to the platform:
    no message was deleted and nobody restricted; and the next message
    raises again. *)
Theorem flood_on_fresh_store_never_mutes :
  ∀ k : nat,
    let wk := handled (repeat (sample_message "hello", sample_context []) k)
                      fresh_world in
    now wk = 1000 * Z.of_nat k ∧
    mute_of 1 9 wk = None ∧
    flood_cache wk = ∅ ∧
    calls wk = [] ∧
    fst (handle_messages (sample_message "hello") (sample_context []) wk) =
      Raise NameError.
Proof.
  intros k. cbv zeta.
  assert (Hfrom : from_user 1 9 (sample_message "hello", sample_context [])).
  { repeat split. eexists _, _. repeat split. discriminate. }
  assert (Hall : Forall (from_user 1 9)
                   (repeat (sample_message "hello", sample_context []) k)).
  { induction k as [|k IH]; cbn [repeat]; constructor; [exact Hfrom | exact IH]. }
  destruct (handled_rowless fresh_world _ 1 9 Hall eq_refl eq_refl)
    as (Henv & Hsets & Hmutes & _ & Hcache & Hcalls & Hticks).
  rewrite repeat_length in Hticks.
  repeat apply conj.
  - unfold now. rewrite Henv, Hticks. reflexivity.
  - unfold mute_of. now rewrite Hmutes.
  - exact Hcache.
  - exact Hcalls.
  - rewrite (handle_messages_rowless _ (sample_message "hello") (sample_context []) Hfrom);
      [reflexivity | unfold mute_of; now rewrite Hmutes | now rewrite Hsets].
Qed.

End FreshStore.

(* ===================================================================== *)
(** * A chat that has its settings *)
(* ===================================================================== *)

Section WithSettings.
Import Utils Process Database Bot Notions.

(** X29: /warn in a chat that has a row of settings.  An administrator
    warns, in reply to a message, a user none of whose stored warnings has
    the instant that the clock shows; [n] is the count of the user with the
    new warning.  Below the limit of the chat the command stores the warning
    and answers, and that is all.  When [n] reaches or exceeds the limit,
    whatever the count was before, the first call asks the platform to ban
    the user; when the platform accepts, the warnings of the user in the
    chat are cleared and the count is 0; when it rejects, nothing is
    cleared and the count is [n]. *)
Theorem warn_command_with_settings w update context m target settings :
  fst (is_admin update w) = Ok true →
  message update = Some m → reply_to_message m = Some target →
  chat_settings (db w) !! effective_chat update = Some settings →
  collides (effective_chat update) target (now w) (warnings (db w)) = false →
  let chat := effective_chat update in
  let n := warning_count chat target w + 1 in
  let ban := BanMember chat target in
  let w' := snd (warn_command update context w) in
  (n < warn_limit settings →
     warning_count chat target w' = n ∧
     calls w' = calls w ++
       [ReplyText chat (message_id m)
                  (Warned n (warn_limit settings) (warn_reason context))]) ∧
  (warn_limit settings ≤ n →
     (∃ rest, calls w' = calls w ++ ban :: rest) ∧
     (accepts (env w) (length (calls w)) ban = true → warning_count chat target w' = 0) ∧
     (accepts (env w) (length (calls w)) ban = false → warning_count chat target w' = n)).
Proof.
  intros Hadmin Hm Hreply Hset Hfree. cbv zeta. split.
  - intros Hlt.
    rewrite (warn_command_below w update context m target settings
               Hadmin Hm Hreply Hset Hfree Hlt).
    split; [|reflexivity].
    unfold warning_count. cbn [record with_warning set_db db warnings set_warnings].
    rewrite List.filter_app, length_app. cbn [List.filter].
    unfold of_user at 2. cbn [chat_id user_id]. rewrite !Z.eqb_refl.
    cbn [andb length]. lia.
  - intros Hge.
    exact (warn_command_at_limit w update context m target settings
             Hadmin Hm Hreply Hset Hfree Hge).
Qed.

Lemma warn_command_with_settings_witness :
  (∃ rest, calls (snd (warn_command sample_command (sample_context ["spam"])
                                    twice_warned)) = BanMember 1 9 :: rest) ∧
  warning_count 1 9 (snd (warn_command sample_command (sample_context ["spam"])
                                       twice_warned)) = 0.
Proof.
  destruct (warn_command_with_settings twice_warned sample_command
              (sample_context ["spam"]) _ 9 sample_settings
              eq_refl eq_refl eq_refl eq_refl eq_refl) as [_ Hat].
  destruct Hat as (Hcalls & Hzero & _); [vm_compute; discriminate|].
  split; [exact Hcalls | apply Hzero; reflexivity].
Defined.

(** X30: one step of the flood control.  In a chat that has a row of
    settings with the flood control on, a text message of a sender with no
    stored mute, while no entry of the sender expires during the handler.
    The window is what the handler finds for the sender, with the instant of
    this message, cut to the instants of the last seconds of the settings.
    When it holds no more instants than the settings allow, nobody is muted
    or restricted and the window is kept for the next message.  When it
    holds more (the comparison is strict), then on a platform that accepts
    the calls, away from the end of the calendar, the handler makes three
    calls: it deletes the message, restricts the sender until 300 seconds
    later and sends the notice; it stores a mute of 300 seconds, whatever
    the settings of the chat, and adds no warning. *)
Theorem flood_control_step w update context m txt settings :
  let chat := effective_chat update in
  let user := effective_user update in
  message update = Some m → text m = Some txt → txt ≠ EmptyString →
  mute_of chat user w = None →
  chat_settings (db w) !! chat = Some settings →
  antiflood_enabled settings = true →
  cache_holds (chat, user) w →
  let current := clock (env w) (S (ticks w)) in
  let window :=
    List.filter (λ t, current - t <=? antiflood_seconds settings * second)
                (window_found (chat, user) w ++ [current]) in
  let at_restriction := clock (env w) (S (S (ticks w))) in
  let at_mute := clock (env w) (S (S (S (ticks w)))) in
  let w' := snd (handle_messages update context w) in
  (Z.of_nat (length window) ≤ antiflood_count settings →
     mute_of chat user w' = None ∧
     no_restrict_since w w' ∧
     ∃ expires, flood_cache w' !! (chat, user) = Some (window, expires)) ∧
  (antiflood_count settings < Z.of_nat (length window) →
     cooperative (env w) →
     0 ≤ at_restriction + 300 * second ≤ datetime_max →
     0 ≤ at_mute + 300 * second ≤ datetime_max →
     calls w' = calls w ++
       [DeleteMessage chat (message_id m);
        RestrictMember chat user (only_send_messages false)
                       (Some (at_restriction + 300 * second));
        SendMessage chat MutedForFlood] ∧
     mute_of chat user w' = Some (at_mute + 300 * second) ∧
     warnings (db w') = warnings (db w)).
Proof.
  cbv zeta. intros Hm Htxt Hne Hmute Hrow Hon Hholds.
  destruct (handle_messages_open w update context m txt settings
              Hm Htxt Hne Hmute Hrow Hon Hholds)
    as (wf & Henv & Hticks & Hcalls & Hset & Hmutes & Hwarn & Hentry & Hrun).
  rewrite Hrun. split.
  - intros Hunder. apply Z.ltb_ge in Hunder. rewrite Hunder.
    destruct (frames_words_check update context m settings txt wf)
      as (_ & _ & Hmu & Hfc & _ & new & Hnew & Hall).
    repeat apply conj.
    + unfold mute_of in *. now rewrite Hmu, Hmutes.
    + exists new. split; [now rewrite Hnew, Hcalls | exact Hall].
    + eexists. rewrite Hfc. exact Hentry.
  - intros Hover Hcoop Hcal1 Hcal2. apply Z.ltb_lt in Hover. rewrite Hover.
    destruct (flood_action_run wf update m)
      as (w' & Haction & Hcalls' & Hmute' & Hwarns').
    + now rewrite Henv.
    + now rewrite Henv, Hticks.
    + now rewrite Henv, Hticks.
    + rewrite Haction. cbn [snd]. rewrite Henv, Hticks in *.
      repeat apply conj; [congruence | exact Hmute' | congruence].
Qed.

Lemma flood_control_step_witness :
  let w5 := handled (take 5 six_messages) sample_world in
  let w6 := snd (handle_messages (sample_message "hello") (sample_context []) w5) in
  mute_of 1 9 w5 = None ∧
  (∃ t, mute_of 1 9 w6 = Some (t + 300 * second)) ∧
  ∃ until, calls w6 = calls w5 ++
                      [DeleteMessage 1 200;
                       RestrictMember 1 9 (only_send_messages false) (Some until);
                       SendMessage 1 MutedForFlood].
Proof.
  cbv zeta. set (w5 := handled (take 5 six_messages) sample_world).
  assert (Hholds : cache_holds (1, 9) w5)
    by (vm_compute; split; [reflexivity | intros _; reflexivity]).
  destruct (flood_control_step w5 (sample_message "hello") (sample_context []) _ "hello"
              sample_settings eq_refl eq_refl) as [_ Hflood];
    [discriminate | reflexivity | reflexivity | reflexivity | exact Hholds |].
  destruct Hflood as (Hcalls & Hmuted & _);
    [vm_compute; reflexivity | exact sample_cooperative
    | vm_compute; split; discriminate | vm_compute; split; discriminate |].
  split; [reflexivity|]. split; [eexists; exact Hmuted | eexists; exact Hcalls].
Defined.

End WithSettings.
